(** * Metadata probing and scan reconciliation of audiobookshelf

    A shallow embedding of the scan reconciler
    ([server/scanner/LibraryItemScanData.js]) in its two definitions, of the
    [scanConfig] modules, of the probe cache ([ProbeCache]), of the two
    [Prober] classes of [server/utils/prober.js] and of the [node-ffprobe]
    wrapper [doProbe], with the properties that the specification states
    about them and further properties of the code.

    Conventions.
    - JavaScript numbers that hold integers (sizes, millisecond time stamps,
      counters, bit rates) are [Z] or [N]; [NaN] is a separate constructor
      where the code can produce it.
    - An inode ([ino]) is a scalar ([jsprim]): the code compares inodes with
      [===] and [!==] and tests them with [&&], which tell [null],
      [undefined], [0], the other numbers and strings apart.
    - In the other optional fields [null] and [undefined] are both [None];
      [Thrown] tells them apart.
    - Logging ([Logger], [libraryScan.addLog]) is left out; an argument of a
      log call is kept when evaluating it can throw. *)

From Stdlib Require Import ZArith NArith List String Ascii Bool Lia.
From Stdlib Require Import Floats DecimalString.
Import ListNotations.

Local Open Scope string_scope.
Local Open Scope list_scope.
Local Open Scope Z_scope.

(* ================================================================= *)
(** ** Small JavaScript helpers *)

(** A scalar: a value of a property that is compared or tested but never
    taken apart, such as an inode or a field of the JSON output of ffprobe
    (which prints bit rates, sizes and durations as strings).  Numbers are
    the integers. *)
Inductive jsprim :=
| JUndefined
| JNull
| JBool (b : bool)
| JNum (n : Z)
| JStr (s : string).

Definition truthy (v : jsprim) : bool :=
  match v with
  | JUndefined | JNull => false
  | JBool b => b
  | JNum n => negb (Z.eqb n 0)
  | JStr s => negb (String.eqb s "")
  end.

(** [a || b] *)
Definition js_or (a b : jsprim) : jsprim := if truthy a then a else b.

(** [a === b]: no conversion, so [null], [undefined], a number and the
    string of its digits are four different values. *)
Definition strict_eq (a b : jsprim) : bool :=
  match a, b with
  | JUndefined, JUndefined => true
  | JNull, JNull => true
  | JBool x, JBool y => Bool.eqb x y
  | JNum x, JNum y => Z.eqb x y
  | JStr x, JStr y => String.eqb x y
  | _, _ => false
  end.

Definition option_eqb {A : Type} (eqb : A -> A -> bool) (x y : option A) : bool :=
  match x, y with
  | Some a, Some b => eqb a b
  | None, None => true
  | _, _ => false
  end.

(** [arr.find(p)], returning the element together with its position, which
    stands for the identity of the object found. *)
Fixpoint find_from {A : Type} (p : A -> bool) (i : nat) (l : list A) : option (nat * A) :=
  match l with
  | [] => None
  | x :: l' => if p x then Some (i, x) else find_from p (S i) l'
  end.

Definition js_find {A : Type} (p : A -> bool) (l : list A) : option (nat * A) :=
  find_from p 0 l.

(** The elements of an array paired with their positions. *)
Fixpoint indexed_from {A : Type} (i : nat) (l : list A) : list (nat * A) :=
  match l with
  | [] => []
  | x :: l' => (i, x) :: indexed_from (S i) l'
  end.

(* ================================================================= *)
(** ** The scan reconciler: [LibraryItemScanData.checkLibraryItemData] *)

(** Modelled from the spec: the declarations of [LibraryFile] and of its
    [metadata] object are not part of the sources; section 3 of the
    specification gives [{inode, metadata: {path, relPath, size, mtimeMs,
    ctimeMs}, isSupplementary, isEBookFile}]. *)
Module Metadata.
Record t := mk {
  path : string;
  relPath : string;
  size : Z;
  mtimeMs : Z;
  ctimeMs : Z
}.

(** The own enumerable keys that [for (const key in metadata)] visits. *)
Inductive key := Kpath | KrelPath | Ksize | KmtimeMs | KctimeMs.

Definition keys : list key := [Kpath; KrelPath; Ksize; KmtimeMs; KctimeMs].

(** [a[key] !== b[key]] *)
Definition differs (k : key) (a b : t) : bool :=
  match k with
  | Kpath => negb (String.eqb (path a) (path b))
  | KrelPath => negb (String.eqb (relPath a) (relPath b))
  | Ksize => negb (Z.eqb (size a) (size b))
  | KmtimeMs => negb (Z.eqb (mtimeMs a) (mtimeMs b))
  | KctimeMs => negb (Z.eqb (ctimeMs a) (ctimeMs b))
  end.

(** [dst[key] = src[key]] *)
Definition copy (k : key) (src dst : t) : t :=
  match k with
  | Kpath => mk (path src) (relPath dst) (size dst) (mtimeMs dst) (ctimeMs dst)
  | KrelPath => mk (path dst) (relPath src) (size dst) (mtimeMs dst) (ctimeMs dst)
  | Ksize => mk (path dst) (relPath dst) (size src) (mtimeMs dst) (ctimeMs dst)
  | KmtimeMs => mk (path dst) (relPath dst) (size dst) (mtimeMs src) (ctimeMs dst)
  | KctimeMs => mk (path dst) (relPath dst) (size dst) (mtimeMs dst) (ctimeMs src)
  end.
End Metadata.

Module LibraryFile.
Record t := mk {
  ino : jsprim;
  metadata : Metadata.t;
  isSupplementary : bool;
  isEBookFile : bool;
  updatedAt : option Z
}.

Definition set_ino (v : jsprim) (f : t) : t :=
  mk v (metadata f) (isSupplementary f) (isEBookFile f) (updatedAt f).
Definition set_metadata (m : Metadata.t) (f : t) : t :=
  mk (ino f) m (isSupplementary f) (isEBookFile f) (updatedAt f).
Definition set_isSupplementary (b : bool) (f : t) : t :=
  mk (ino f) (metadata f) b (isEBookFile f) (updatedAt f).
Definition set_updatedAt (v : option Z) (f : t) : t :=
  mk (ino f) (metadata f) (isSupplementary f) (isEBookFile f) v.

Definition path (f : t) : string := Metadata.path (metadata f).
End LibraryFile.

(** The persisted record ([existingLibraryItem]).  [mtime], [ctime] and
    [birthtime] hold the value of [date?.valueOf()]: [None] for a missing
    date. *)
Module LibraryItem.
Record t := mk {
  ino : jsprim;
  libraryFolderId : string;
  path : string;
  relPath : string;
  isFile : bool;
  mtime : option Z;
  ctime : option Z;
  birthtime : option Z;
  isMissing : bool;
  libraryFiles : list LibraryFile.t;
  size : Z;
  lastScan : option Z;
  lastScanVersion : option string
}.

Definition set_ino v (e : t) : t :=
  mk v (libraryFolderId e) (path e) (relPath e) (isFile e) (mtime e) (ctime e)
     (birthtime e) (isMissing e) (libraryFiles e) (size e) (lastScan e) (lastScanVersion e).
Definition set_libraryFolderId v (e : t) : t :=
  mk (ino e) v (path e) (relPath e) (isFile e) (mtime e) (ctime e)
     (birthtime e) (isMissing e) (libraryFiles e) (size e) (lastScan e) (lastScanVersion e).
Definition set_path v (e : t) : t :=
  mk (ino e) (libraryFolderId e) v (relPath e) (isFile e) (mtime e) (ctime e)
     (birthtime e) (isMissing e) (libraryFiles e) (size e) (lastScan e) (lastScanVersion e).
Definition set_relPath v (e : t) : t :=
  mk (ino e) (libraryFolderId e) (path e) v (isFile e) (mtime e) (ctime e)
     (birthtime e) (isMissing e) (libraryFiles e) (size e) (lastScan e) (lastScanVersion e).
Definition set_isFile v (e : t) : t :=
  mk (ino e) (libraryFolderId e) (path e) (relPath e) v (mtime e) (ctime e)
     (birthtime e) (isMissing e) (libraryFiles e) (size e) (lastScan e) (lastScanVersion e).
Definition set_mtime v (e : t) : t :=
  mk (ino e) (libraryFolderId e) (path e) (relPath e) (isFile e) v (ctime e)
     (birthtime e) (isMissing e) (libraryFiles e) (size e) (lastScan e) (lastScanVersion e).
Definition set_ctime v (e : t) : t :=
  mk (ino e) (libraryFolderId e) (path e) (relPath e) (isFile e) (mtime e) v
     (birthtime e) (isMissing e) (libraryFiles e) (size e) (lastScan e) (lastScanVersion e).
Definition set_birthtime v (e : t) : t :=
  mk (ino e) (libraryFolderId e) (path e) (relPath e) (isFile e) (mtime e) (ctime e)
     v (isMissing e) (libraryFiles e) (size e) (lastScan e) (lastScanVersion e).
Definition set_isMissing v (e : t) : t :=
  mk (ino e) (libraryFolderId e) (path e) (relPath e) (isFile e) (mtime e) (ctime e)
     (birthtime e) v (libraryFiles e) (size e) (lastScan e) (lastScanVersion e).
Definition set_libraryFiles v (e : t) : t :=
  mk (ino e) (libraryFolderId e) (path e) (relPath e) (isFile e) (mtime e) (ctime e)
     (birthtime e) (isMissing e) v (size e) (lastScan e) (lastScanVersion e).
Definition set_size v (e : t) : t :=
  mk (ino e) (libraryFolderId e) (path e) (relPath e) (isFile e) (mtime e) (ctime e)
     (birthtime e) (isMissing e) (libraryFiles e) v (lastScan e) (lastScanVersion e).
Definition set_lastScan v (e : t) : t :=
  mk (ino e) (libraryFolderId e) (path e) (relPath e) (isFile e) (mtime e) (ctime e)
     (birthtime e) (isMissing e) (libraryFiles e) (size e) v (lastScanVersion e).
Definition set_lastScanVersion v (e : t) : t :=
  mk (ino e) (libraryFolderId e) (path e) (relPath e) (isFile e) (mtime e) (ctime e)
     (birthtime e) (isMissing e) (libraryFiles e) (size e) (lastScan e) v.
End LibraryItem.

(** The freshly scanned candidate: the input fields of [this]. *)
Module ScanData.
Record t := mk {
  ino : jsprim;
  libraryFolderId : string;
  path : string;
  relPath : string;
  isFile : bool;
  mtimeMs : Z;
  ctimeMs : Z;
  birthtimeMs : Z;
  libraryFiles : list LibraryFile.t
}.
End ScanData.

Module Reconciler.

(** The keys of the first loop of [checkLibraryItemData]. *)
Inductive ItemKey := Kino | KlibraryFolderId | Kpath | KrelPath | KisFile.

(** [IGNORE_FILE_METADATA_CHANGES] is the Tolerant policy of the
    specification; [false] is Strict. *)
Definition keysToCompare (IGNORE_FILE_METADATA_CHANGES : bool) : list ItemKey :=
  let keys := [KlibraryFolderId; Kpath; KrelPath; KisFile] in
  if negb IGNORE_FILE_METADATA_CHANGES then Kino :: keys else keys.

(** [existingLibraryItem[key] !== this[key]] *)
Definition item_differs (k : ItemKey) (e : LibraryItem.t) (s : ScanData.t) : bool :=
  match k with
  | Kino => negb (strict_eq (LibraryItem.ino e) (ScanData.ino s))
  | KlibraryFolderId =>
      negb (String.eqb (LibraryItem.libraryFolderId e) (ScanData.libraryFolderId s))
  | Kpath => negb (String.eqb (LibraryItem.path e) (ScanData.path s))
  | KrelPath => negb (String.eqb (LibraryItem.relPath e) (ScanData.relPath s))
  | KisFile => negb (Bool.eqb (LibraryItem.isFile e) (ScanData.isFile s))
  end.

(** [existingLibraryItem[key] = this[key]] *)
Definition item_adopt (k : ItemKey) (s : ScanData.t) (e : LibraryItem.t) : LibraryItem.t :=
  match k with
  | Kino => LibraryItem.set_ino (ScanData.ino s) e
  | KlibraryFolderId => LibraryItem.set_libraryFolderId (ScanData.libraryFolderId s) e
  | Kpath => LibraryItem.set_path (ScanData.path s) e
  | KrelPath => LibraryItem.set_relPath (ScanData.relPath s) e
  | KisFile => LibraryItem.set_isFile (ScanData.isFile s) e
  end.

Definition is_path_key (k : ItemKey) : bool :=
  match k with Kpath | KrelPath => true | _ => false end.

(** The mutable state of one run: the existing record and the output
    fields of [this]. *)
Record State := mkState {
  existing : LibraryItem.t;
  hasChanges : bool;
  hasPathChange : bool
}.

Definition key_step (s : ScanData.t) (st : State) (k : ItemKey) : State :=
  if item_differs k (existing st) s
  then mkState (item_adopt k s (existing st)) true
               (if is_path_key k then true else hasPathChange st)
  else st.

Definition compare_keys (ignore : bool) (s : ScanData.t) (st : State) : State :=
  fold_left (key_step s) (keysToCompare ignore) st.

(** Lines 43-66: the three time stamps. *)
Definition compare_times (ignore : bool) (s : ScanData.t) (st : State) : State :=
  if negb ignore then
    let st1 :=
      if negb (option_eqb Z.eqb (LibraryItem.mtime (existing st)) (Some (ScanData.mtimeMs s)))
      then mkState (LibraryItem.set_mtime (Some (ScanData.mtimeMs s)) (existing st))
                   true (hasPathChange st)
      else st in
    let st2 :=
      if negb (option_eqb Z.eqb (LibraryItem.birthtime (existing st1))
                          (Some (ScanData.birthtimeMs s)))
      then mkState (LibraryItem.set_birthtime (Some (ScanData.birthtimeMs s)) (existing st1))
                   true (hasPathChange st1)
      else st1 in
    if negb (option_eqb Z.eqb (LibraryItem.ctime (existing st2)) (Some (ScanData.ctimeMs s)))
    then mkState (LibraryItem.set_ctime (Some (ScanData.ctimeMs s)) (existing st2))
                 true (hasPathChange st2)
    else st2
  else
    mkState
      (LibraryItem.set_ctime (Some (ScanData.ctimeMs s))
         (LibraryItem.set_birthtime (Some (ScanData.birthtimeMs s))
            (LibraryItem.set_mtime (Some (ScanData.mtimeMs s)) (existing st))))
      (hasChanges st) (hasPathChange st).

(** Lines 68-72. *)
Definition recover_missing (st : State) : State :=
  if LibraryItem.isMissing (existing st)
  then mkState (LibraryItem.set_isMissing false (existing st)) true (hasPathChange st)
  else st.

(** One round of [for (const key in existingLibraryFile.metadata)] in
    [compareUpdateLibraryFile]; the state is the metadata of the existing
    file and the local [hasChanges]. *)
Definition metadata_step (ignore : bool) (scanned : Metadata.t)
    (acc : Metadata.t * bool) (k : Metadata.key) : Metadata.t * bool :=
  let (m, changed) := acc in
  let timestamp := match k with Metadata.KmtimeMs | Metadata.KctimeMs => true | _ => false end in
  if ignore && timestamp then (Metadata.copy k scanned m, changed)
  else if Metadata.differs k m scanned then
    match k with
    | Metadata.Ksize | Metadata.Kpath | Metadata.KrelPath =>
        (Metadata.copy k scanned m, true)
    | _ =>
        if negb ignore then (Metadata.copy k scanned m, true)
        else (Metadata.copy k scanned m, changed)
    end
  else (m, changed).

(** [compareUpdateLibraryFile]: the updated existing file and the value
    returned.  [now] is the value of [Date.now()]. *)
Definition compareUpdateLibraryFile (ignore : bool) (now : Z)
    (existingLibraryFile scannedLibraryFile : LibraryFile.t) : LibraryFile.t * bool :=
  let ino_differs :=
    negb (strict_eq (LibraryFile.ino existingLibraryFile)
                     (LibraryFile.ino scannedLibraryFile)) in
  let '(f1, changed1) :=
    if negb ignore && ino_differs
    then (LibraryFile.set_ino (LibraryFile.ino scannedLibraryFile) existingLibraryFile, true)
    else if ignore
    then (LibraryFile.set_ino (LibraryFile.ino scannedLibraryFile) existingLibraryFile, false)
    else (existingLibraryFile, false) in
  let '(m, changed) :=
    fold_left (metadata_step ignore (LibraryFile.metadata scannedLibraryFile))
              Metadata.keys (LibraryFile.metadata f1, changed1) in
  let f2 := LibraryFile.set_metadata m f1 in
  if changed then (LibraryFile.set_updatedAt (Some now) f2, true) else (f2, false).

(** Lines 80-88: the candidate matching an existing file, with its position
    in [this.libraryFiles]. *)
Definition find_match (ignore : bool) (candidates : list LibraryFile.t)
    (existingLibraryFile : LibraryFile.t) : option (nat * LibraryFile.t) :=
  match js_find (fun lf => String.eqb (LibraryFile.path lf)
                                      (LibraryFile.path existingLibraryFile)) candidates with
  | Some m => Some m
  | None =>
      if negb ignore
      then js_find (fun lf => strict_eq (LibraryFile.ino lf)
                                         (LibraryFile.ino existingLibraryFile)) candidates
      else None
  end.

(** The state of the loop over the existing files.  [kept] is
    [existingLibraryItem.libraryFiles] restricted to the files visited so
    far: the loop runs over the array it started with, a file without a
    match is filtered out by identity, the others are updated in place.
    [added] is [libraryFilesAdded], each candidate with its position. *)
Record FileLoop := mkFileLoop {
  kept : list LibraryFile.t;
  removed : list LibraryFile.t;
  modified : list (LibraryFile.t * LibraryFile.t);
  added : list (nat * LibraryFile.t);
  fileChanges : bool
}.

Definition file_step (ignore : bool) (now : Z) (candidates : list LibraryFile.t)
    (st : FileLoop) (existingLibraryFile : LibraryFile.t) : FileLoop :=
  match find_match ignore candidates existingLibraryFile with
  | None =>
      mkFileLoop (kept st) (removed st ++ [existingLibraryFile]) (modified st)
                 (added st) true
  | Some (i, matchingLibraryFile) =>
      let added' := filter (fun c => negb (Nat.eqb (fst c) i)) (added st) in
      let existingLibraryFileBefore := existingLibraryFile in
      let (updated, changed) :=
        compareUpdateLibraryFile ignore now existingLibraryFile matchingLibraryFile in
      if changed
      then mkFileLoop (kept st ++ [updated]) (removed st)
                      (modified st ++ [(existingLibraryFileBefore, updated)]) added' true
      else mkFileLoop (kept st ++ [updated]) (removed st) (modified st) added'
                      (fileChanges st)
  end.

Definition file_loop (ignore : bool) (now : Z) (candidates existingFiles : list LibraryFile.t)
    (hasChanges0 : bool) : FileLoop :=
  fold_left (file_step ignore now candidates) existingFiles
            (mkFileLoop [] [] [] (indexed_from 0 candidates) hasChanges0).

(** Lines 106-115: a new e-book file becomes supplementary.  The copy made
    by [libraryFile.toJSON()] has the fields of the file. *)
Definition mark_added (libraryFile : LibraryFile.t) : LibraryFile.t :=
  if LibraryFile.isEBookFile libraryFile
  then LibraryFile.set_isSupplementary true libraryFile
  else libraryFile.

Definition total_size (files : list LibraryFile.t) : Z :=
  fold_left (fun acc lf => acc + Metadata.size (LibraryFile.metadata lf)) files 0.

(** What a run leaves behind: the output fields of [this], the existing
    record, the value returned, and whether [changed('libraryFiles', true)]
    was called.  An added file comes with its position in
    [this.libraryFiles], which tells two candidates with equal fields
    apart. *)
Record Report := mkReport {
  r_hasChanges : bool;
  r_hasPathChange : bool;
  libraryFilesRemoved : list LibraryFile.t;
  libraryFilesModified : list (LibraryFile.t * LibraryFile.t);
  libraryFilesAdded : list (nat * LibraryFile.t);
  existingLibraryItem : LibraryItem.t;
  libraryFilesChanged : bool;
  returned : bool
}.

(** Modelled from the spec: the getter [hasLibraryFileChanges] is not part
    of the sources; section 4.3, step 6: the file list changed if any file
    was added, removed or modified. *)
Definition hasLibraryFileChanges (fl : FileLoop) : bool :=
  negb (Nat.eqb (List.length (removed fl) + List.length (modified fl) + List.length (added fl)) 0).

(** [checkLibraryItemData], first definition of the file (lines 20-136).
    [version] is [packageJson.version]. *)
Definition checkLibraryItemData (ignore : bool) (now : Z) (version : string)
    (existingLibraryItem : LibraryItem.t) (this : ScanData.t) : Report :=
  let st0 := mkState existingLibraryItem false false in
  let st1 := compare_keys ignore this st0 in
  let st2 := compare_times ignore this st1 in
  let st3 := recover_missing st2 in
  let fl := file_loop ignore now (ScanData.libraryFiles this)
                      (LibraryItem.libraryFiles (existing st3)) (hasChanges st3) in
  let libraryFilesAdded := map (fun c => (fst c, mark_added (snd c))) (added fl) in
  let changes := if Nat.eqb (List.length (added fl)) 0 then fileChanges fl else true in
  let files := kept fl ++ map snd libraryFilesAdded in
  let e4 := LibraryItem.set_libraryFiles files (existing st3) in
  if changes then
    let e5 := LibraryItem.set_lastScanVersion (Some version)
                (LibraryItem.set_lastScan (Some now)
                   (LibraryItem.set_size (total_size files) e4)) in
    mkReport true (hasPathChange st3) (removed fl) (modified fl) libraryFilesAdded
             e5 (hasLibraryFileChanges fl) true
  else
    mkReport false (hasPathChange st3) (removed fl) (modified fl) libraryFilesAdded
             e4 false false.

End Reconciler.

(* ================================================================= *)
(** ** JavaScript values of the probing code *)

(** The result of [parseInt]. *)
Inductive JsNumber :=
| NaN
| Int (z : Z).

(** [a || b] on numbers: [NaN] and [0] are falsy. *)
Definition num_or (a b : JsNumber) : JsNumber :=
  match a with
  | Int z => if Z.eqb z 0 then b else a
  | NaN => b
  end.

(** [parseInt(x) || 0], which is never [NaN]. *)
Definition num_or_0 (a : JsNumber) : Z :=
  match a with
  | Int z => z
  | NaN => 0
  end.

(** White space that [parseInt] skips, as far as it is ASCII. *)
Definition is_space (c : ascii) : bool :=
  match nat_of_ascii c with
  | 9%nat | 10%nat | 11%nat | 12%nat | 13%nat | 32%nat => true
  | _ => false
  end.

Fixpoint skip_spaces (s : string) : string :=
  match s with
  | String c t => if is_space c then skip_spaces t else s
  | EmptyString => s
  end.

Definition digit_value (radix : Z) (c : ascii) : option Z :=
  let n := Z.of_nat (nat_of_ascii c) in
  let d :=
    if (48 <=? n) && (n <=? 57) then Some (n - 48)
    else if (97 <=? n) && (n <=? 122) then Some (n - 87)
    else if (65 <=? n) && (n <=? 90) then Some (n - 55)
    else None in
  match d with
  | Some v => if v <? radix then Some v else None
  | None => None
  end.

(** The longest prefix of digits, read in the given radix; [None] when the
    first character is not a digit. *)
Fixpoint parse_digits (radix : Z) (s : string) (acc : option Z) : option Z :=
  match s with
  | String c t =>
      match digit_value radix c with
      | Some d => parse_digits radix t (Some (radix * match acc with Some a => a | None => 0 end + d))
      | None => acc
      end
  | EmptyString => acc
  end.

(** [parseInt(s)] for a string, without a radix argument: leading white
    space, a sign, an optional [0x] prefix, then digits.  The result is the
    integer that the digits denote, which a JavaScript number holds exactly
    up to [2^53] and rounds beyond. *)
Definition parseInt_string (s : string) : JsNumber :=
  let s1 := skip_spaces s in
  let '(negative, s2) :=
    match s1 with
    | String "-" t => (true, t)
    | String "+" t => (false, t)
    | _ => (false, s1)
    end in
  let '(radix, s3) :=
    match s2 with
    | String "0" (String "x" t) => (16, t)
    | String "0" (String "X" t) => (16, t)
    | _ => (10, s2)
    end in
  match parse_digits radix s3 None with
  | Some n => Int (if negative then - n else n)
  | None => NaN
  end.

(** [parseInt(x)]: the argument is converted to a string first. *)
Definition parseInt (x : jsprim) : JsNumber :=
  match x with
  | JStr s => parseInt_string s
  | JNum n => Int n
  | JUndefined | JNull | JBool _ => NaN
  end.

(** [parseFloat(x) || 0].  Floating point values are not evaluated: the
    number is kept as the scalar it is read from. *)
Inductive JsFloat :=
| ParseFloatOr0 (x : jsprim).

(** Decimal digits of a natural number, for template strings. *)
Definition decimal (n : Z) : string := NilZero.string_of_int (Z.to_int n).

(** [s.toLowerCase()], on ASCII letters. *)
Definition lower_ascii (c : ascii) : ascii :=
  let n := nat_of_ascii c in
  if (Nat.leb 65 n && Nat.leb n 90)%bool then ascii_of_nat (n + 32) else c.

Fixpoint toLowerCase (s : string) : string :=
  match s with
  | String c t => String (lower_ascii c) (toLowerCase t)
  | EmptyString => EmptyString
  end.

(** [hay.includes(needle)] *)
Fixpoint includes (hay needle : string) : bool :=
  if String.prefix needle hay then true
  else match hay with
       | String _ t => includes t needle
       | EmptyString => false
       end.

(** A JSON object used as a map from keys to scalars, in key order. *)
Definition JsObject := list (string * jsprim).

Fixpoint get_prop (o : JsObject) (key : string) : jsprim :=
  match o with
  | [] => JUndefined
  | (k, v) :: o' => if String.eqb k key then v else get_prop o' key
  end.

(** [o[key] = v]: an existing key keeps its place. *)
Fixpoint set_prop (o : JsObject) (key : string) (v : jsprim) : JsObject :=
  match o with
  | [] => [(key, v)]
  | (k, w) :: o' => if String.eqb k key then (k, v) :: o' else (k, w) :: set_prop o' key v
  end.

(** [o?.key] for an object that may be missing. *)
Definition get_prop_opt (o : option JsObject) (key : string) : jsprim :=
  match o with
  | Some obj => get_prop obj key
  | None => JUndefined
  end.

(* ================================================================= *)
(** ** The output of ffprobe *)

(** The JSON that ffprobe prints, as far as [prober.js] reads it: the record
    fields are the properties read.  A property that is absent is
    [JUndefined] (scalars) or [None] (objects and arrays); [streams] and
    [chapters], when present, are arrays of objects. *)
Module Raw.
Record Format := mkFormat {
  format_name : jsprim;
  duration : jsprim;
  size : jsprim;
  bit_rate : jsprim;
  tags : option JsObject
}.

Record Stream := mkStream {
  codec_type : jsprim;
  codec_name : jsprim;
  sample_rate : jsprim;
  channels : jsprim;
  channel_layout : jsprim;
  s_bit_rate : jsprim;
  time_base : jsprim;
  s_tags : option JsObject
}.

Record Chapter := mkChapter {
  start_time : jsprim;
  end_time : jsprim;
  c_tags : option JsObject
}.

Record Data := mkData {
  format : option Format;
  streams : option (list Stream);
  chapters : option (list Chapter)
}.

(** What [JSON.parse] returns: [null]; a falsy scalar ([0], [""], [false]);
    or an object.  A truthy scalar or an array has none of the properties
    read and behaves as the object without properties. *)
Inductive Json :=
| JsonNull
| JsonFalsy
| JsonObject (data : Data).

(** [{}] *)
Definition empty_format : Format :=
  mkFormat JUndefined JUndefined JUndefined JUndefined None.

Definition empty_data : Data := mkData None None None.

(** [streams.find(s => s.codec_type === type)] *)
Definition find_stream (type : string) (streams : list Stream) : option Stream :=
  find (fun s => match codec_type s with
                 | JStr t => String.eqb t type
                 | _ => false
                 end) streams.
End Raw.

(** A chapter of the normalised result. *)
Record Chapter := mkChapter {
  id : Z;
  start : JsFloat;
  end_ : JsFloat;
  title : jsprim
}.

(** [chapters.map((ch, index) => ...)], shared by [transformChapters] and
    [parseChapters]. *)
Fixpoint map_chapters (index : Z) (chapters : list Raw.Chapter) : list Chapter :=
  match chapters with
  | [] => []
  | ch :: rest =>
      mkChapter index
        (ParseFloatOr0 (Raw.start_time ch))
        (ParseFloatOr0 (Raw.end_time ch))
        (js_or (get_prop_opt (Raw.c_tags ch) "title")
               (JStr ("Chapter " ++ decimal (index + 1))%string))
      :: map_chapters (index + 1) rest
  end.

(** [audio_stream] of the normalised result.  [transformMinimalData] leaves
    [channel_layout] and [language] out, which reads as [undefined];
    [parseProbeData] copies [channels] and [sample_rate] as they are. *)
Record AudioStream := mkAudioStream {
  codec : jsprim;
  a_sample_rate : jsprim;
  a_channels : jsprim;
  a_channel_layout : jsprim;
  a_bit_rate : Z;
  a_time_base : jsprim;
  language : jsprim
}.

Record VideoStream := mkVideoStream {
  v_codec : jsprim
}.

(** The object that [transformMinimalData], [transformFullData] and
    [parseProbeData] return.  [bit_rate] can be [NaN] in the first two. *)
Record ProbeData := mkProbeData {
  pd_format : jsprim;
  pd_duration : JsFloat;
  pd_size : Z;
  pd_bit_rate : JsNumber;
  audio_stream : option AudioStream;
  video_stream : option VideoStream;
  pd_chapters : list Chapter;
  pd_tags : JsObject
}.

(** The object that the first [Prober.probe] builds from it. *)
Record MediaProbeData := mkMediaProbeData {
  embeddedCoverArt : jsprim;
  m_format : jsprim;
  m_duration : JsFloat;
  m_size : Z;
  audioStream : option AudioStream;
  videoStream : option VideoStream;
  bitRate : JsNumber;
  m_codec : jsprim;
  timeBase : jsprim;
  m_language : jsprim;
  channelLayout : jsprim;
  m_channels : jsprim;
  sampleRate : jsprim;
  m_chapters : list Chapter;
  audioMetaTags : JsObject
}.

(** What [probe] hands to its caller and what the cache stores: the object
    of the first prober, the object of the second, or [{ error: message }]. *)
Inductive ProbeResult :=
| Media (data : MediaProbeData)
| Parsed (data : ProbeData)
| ErrorResult (error : string).

Definition is_error (r : ProbeResult) : bool :=
  match r with
  | ErrorResult _ => true
  | _ => false
  end.

(** [scanConfig]: the exported configuration values that the probing code
    reads.  [USE_PARTIAL_READ], [PARTIAL_READ_SIZE], [FFPROBE_ANALYZE_DURATION]
    and [FFPROBE_PROBE_SIZE] are read by the second prober and set by none of
    the [scanConfig] modules of the sources, so they are optional. *)
Module ScanConfig.
Record t := mk {
  SCAN_MODE : string;
  SKIP_METADATA_TAGS : bool;
  ENABLE_PROBE_CACHE : bool;
  PROBE_CACHE_TTL : Z;
  PROBE_CACHE_SIZE : Z;
  USE_MINIMAL_PROBE : bool;
  PROBE_TIMEOUT : Z;
  PROBE_RETRY_TIMES : Z;
  USE_PARTIAL_READ : option bool;
  PARTIAL_READ_SIZE : option Z;
  FFPROBE_ANALYZE_DURATION : option string;
  FFPROBE_PROBE_SIZE : option string
}.

Definition shouldSkipMetadata (config : t) : bool :=
  SKIP_METADATA_TAGS config || String.eqb (SCAN_MODE config) "fast".
Definition shouldUseCache (config : t) : bool := ENABLE_PROBE_CACHE config.
Definition shouldUseMinimalProbe (config : t) : bool :=
  USE_MINIMAL_PROBE config || String.eqb (SCAN_MODE config) "fast".
End ScanConfig.

(* ================================================================= *)
(** ** Effects *)

(** What a [throw] carries: an [Error] object with its [message], or a value
    without properties ([undefined], which is what [withRetry] throws when it
    made no attempt). *)
Inductive Thrown :=
| JsError (message : string)
| JsUndefined.

Inductive Outcome (A : Type) :=
| Returned (a : A)
| Threw (t : Thrown).
Arguments Returned {A} a.
Arguments Threw {A} t.

(** An event of a child process started with [spawn]. *)
Inductive ProcEvent :=
| StdoutData (chunk : string)
| StderrData (chunk : string)
| Exit (code : option Z)
| ProcError (message : string)
| Close.

(** The calls that leave the code of the repository, each with the type of
    its answer.  A call that can fail answers [inl message].  [JSON_parse] is
    a builtin: its answer comes with the run, so that a property holds
    whatever [JSON.parse] makes of a text.  [TimerFirst ms] asks which side
    of [Promise.race] settles first: [true] when the timer of [ms]
    milliseconds does. *)
Inductive Eff : Type -> Type :=
| Exec (cmd : string) (maxBuffer : Z) : Eff (string + string)
| ExecFile (file : string) (args : list string) (timeout maxBuffer : Z) : Eff (string + string)
| Spawn (cmd : string) (args : list string) : Eff (list ProcEvent)
| JSON_parse (text : string) : Eff (string + Raw.Json)
| SetTimeout (ms : Z) : Eff unit
| TimerFirst (ms : Z) : Eff bool
| Date_now : Eff Z
| Fs_stat (path : string) : Eff (string + Z)
| Fs_open (path : string) : Eff (string + Z)
| Fd_read (fd : Z) (length : Z) : Eff (string + string)
| Fd_close (fd : Z) : Eff (string + unit)
| Sha256_hex (data : string) : Eff string
| Fs_mkdir (path : string) : Eff (string + unit)
| Pipeline (source target : string) (first last : Z) : Eff (string + unit)
| Fs_unlink (path : string) : Eff (string + unit)
| Lru_get (key : string) : Eff (option ProbeResult)
| Lru_set (key : string) (value : ProbeResult) : Eff unit
| Lru_clear : Eff unit
| Lru_size : Eff Z.

(** A program: a finite tree of calls. *)
Inductive Prog (A : Type) : Type :=
| Ret (a : A)
| Vis (X : Type) (e : Eff X) (k : X -> Prog A).
Arguments Ret {A} a.
Arguments Vis {A X} e k.

Fixpoint bindP {A B : Type} (p : Prog A) (f : A -> Prog B) : Prog B :=
  match p with
  | Ret a => f a
  | Vis e k => Vis e (fun x => bindP (k x) f)
  end.

(** A call together with its answer. *)
Inductive Event :=
| Ev (X : Type) (e : Eff X) (x : X).
Arguments Ev {X} e x.

(** [runs p tr a]: the program [p] makes the calls of [tr], gets the answers
    of [tr] and ends with [a]. *)
Fixpoint runs {A : Type} (p : Prog A) (tr : list Event) (a : A) : Prop :=
  match p with
  | Ret a' => tr = [] /\ a = a'
  | Vis e k => exists x tr', tr = Ev e x :: tr' /\ runs (k x) tr' a
  end.

(** An environment answers every call, given the events so far. *)
Definition Oracle := list Event -> forall X : Type, Eff X -> X.

Fixpoint run {A : Type} (env : Oracle) (history : list Event) (p : Prog A)
  : list Event * A :=
  match p with
  | Ret a => ([], a)
  | Vis e k =>
      let x := env history _ e in
      let (tr, a) := run env (history ++ [Ev e x]) (k x) in
      (Ev e x :: tr, a)
  end.

(** The counters of [ProbeCache], the mutable state of the probing code. *)
Module Stats.
Record t := mk {
  hits : N;
  misses : N;
  errors : N
}.
Definition incr_hits (s : t) : t := mk (hits s + 1) (misses s) (errors s).
Definition incr_misses (s : t) : t := mk (hits s) (misses s + 1) (errors s).
Definition incr_errors (s : t) : t := mk (hits s) (misses s) (errors s + 1).
End Stats.

(** An [async] function: from the state to a program that ends with a
    returned value or a thrown one, and the state. *)
Definition M (A : Type) : Type := Stats.t -> Prog (Outcome A * Stats.t).

Definition ret {A : Type} (a : A) : M A := fun s => Ret (Returned a, s).

Definition throw {A : Type} (t : Thrown) : M A := fun s => Ret (Threw t, s).

Definition bind {A B : Type} (m : M A) (f : A -> M B) : M B :=
  fun s => bindP (m s) (fun r =>
    match fst r with
    | Returned a => f a (snd r)
    | Threw t => Ret (Threw t, snd r)
    end).

(** [try { m } catch (error) { handler }] *)
Definition try_catch {A : Type} (m : M A) (handler : Thrown -> M A) : M A :=
  fun s => bindP (m s) (fun r =>
    match fst r with
    | Returned a => Ret (Returned a, snd r)
    | Threw t => handler t (snd r)
    end).

(** [try { m } finally { cleanup }] *)
Definition try_finally {A : Type} (m : M A) (cleanup : M unit) : M A :=
  fun s => bindP (m s) (fun r =>
    bindP (cleanup (snd r)) (fun c =>
      match fst c with
      | Returned _ => Ret (fst r, snd c)
      | Threw t => Ret (Threw t, snd c)
      end)).

(** A call that cannot fail. *)
Definition call {X : Type} (e : Eff X) : M X :=
  fun s => Vis e (fun x => Ret (Returned x, s)).

(** [await] of a call that can reject with an [Error]. *)
Definition await {X : Type} (e : Eff (string + X)) : M X :=
  fun s => Vis e (fun r =>
    match r with
    | inr x => Ret (Returned x, s)
    | inl message => Ret (Threw (JsError message), s)
    end).

(** The counters of a cache that was not used yet. *)
Definition fresh_stats : Stats.t := Stats.mk 0 0 0.

Definition modify (f : Stats.t -> Stats.t) : M unit := fun s => Ret (Returned tt, f s).

(** [error.message], which throws a [TypeError] when [error] has no
    properties. *)
Definition message_of (error : Thrown) : M string :=
  match error with
  | JsError message => ret message
  | JsUndefined =>
      throw (JsError "Cannot read properties of undefined (reading 'message')")
  end.

Declare Scope js_scope.
Delimit Scope js_scope with js.
Notation "x <- m ;; k" := (bind m (fun x => k))
  (at level 61, m at next level, right associativity) : js_scope.
Notation "m ;;; k" := (bind m (fun _ => k))
  (at level 61, right associativity) : js_scope.
Local Open Scope js_scope.

(* ================================================================= *)
(** ** [ProbeCache] *)

(** A counter as a JavaScript number: a double, which holds every counter
    below [2^53] exactly. *)
Definition number_of_N (n : N) : float := PrimFloat.of_uint63 (Uint63.of_Z (Z.of_N n)).

(** [x.toFixed(1)] for a number below [10^21]: the integer [n] closest to
    [10 * x], the larger one of two, printed with a point before its last
    digit.  A finite double is [m * 2^e] exactly. *)
Definition toFixed1 (x : float) : string :=
  match Prim2SF x with
  | S754_nan => "NaN"
  | S754_infinity s => if s then "-Infinity" else "Infinity"
  | S754_zero _ => "0.0"
  | S754_finite s m e =>
      let n := match e with
               | Zneg k => (20 * Zpos m + 2 ^ Zpos k) / 2 ^ (Zpos k + 1)
               | _ => 10 * Zpos m * 2 ^ e
               end in
      ((if s then "-" else "") ++ decimal (n / 10) ++ "." ++ decimal (n mod 10))%string
  end.

(** The cache itself is an [LRU] of the [lru-cache] package, made with
    [max], [ttl], [updateAgeOnGet] and [updateAgeOnHas]; its methods are the
    calls [Lru_get], [Lru_set], [Lru_clear] and [Lru_size]. *)
Module ProbeCache.

Definition get_stats : M Stats.t := fun s => Ret (Returned s, s).

Definition getFileSize (filePath : string) : M Z :=
  try_catch (await (Fs_stat filePath)) (fun _ => ret 0).

(** The first 32 hexadecimal digits of the SHA-256 of the first MiB.
    [Fd_read] answers the buffer after the read. *)
Definition getFileHash (filePath : string) : M (option string) :=
  try_catch
    (fd <- await (Fs_open filePath) ;;
     try_finally
       (fileSize <- getFileSize filePath ;;
        buffer <- await (Fd_read fd (Z.min (1024 * 1024) fileSize)) ;;
        digest <- call (Sha256_hex buffer) ;;
        ret (Some (String.substring 0 32 digest)))
       (await (Fd_close fd)))
    (fun error =>
       _ <- message_of error ;;
       modify Stats.incr_errors ;;;
       ret None).

Definition getCacheKey (filePath : string) (fileSize : Z) : M (option string) :=
  hash <- getFileHash filePath ;;
  match hash with
  | None => ret None
  | Some h =>
      if String.eqb h "" then ret None
      else ret (Some (h ++ "_" ++ decimal fileSize)%string)
  end.

Definition get (config : ScanConfig.t) (filePath : string) : M (option ProbeResult) :=
  if negb (ScanConfig.shouldUseCache config) then ret None
  else
    try_catch
      (fileSize <- getFileSize filePath ;;
       cacheKey <- getCacheKey filePath fileSize ;;
       match cacheKey with
       | None => ret None
       | Some key =>
           cached <- call (Lru_get key) ;;
           match cached with
           | Some value => modify Stats.incr_hits ;;; ret (Some value)
           | None => modify Stats.incr_misses ;;; ret None
           end
       end)
      (fun error =>
         _ <- message_of error ;;
         modify Stats.incr_errors ;;;
         ret None).

Definition set (config : ScanConfig.t) (filePath : string) (probeData : ProbeResult) : M bool :=
  if negb (ScanConfig.shouldUseCache config) then ret false
  else
    try_catch
      (fileSize <- getFileSize filePath ;;
       cacheKey <- getCacheKey filePath fileSize ;;
       match cacheKey with
       | None => ret false
       | Some key =>
           call (Lru_set key probeData) ;;;
           ret true
       end)
      (fun error =>
         _ <- message_of error ;;
         modify Stats.incr_errors ;;;
         ret false).

Definition clear : M unit := call Lru_clear.

Definition getHitRate (stats : Stats.t) : string :=
  let total := (Stats.hits stats + Stats.misses stats)%N in
  if N.eqb total 0 then "0.0"
  else toFixed1 (PrimFloat.mul
                   (PrimFloat.div (number_of_N (Stats.hits stats)) (number_of_N total))
                   (number_of_N 100)).

(** The object that [getStats] returns. *)
Record StatsReport := mkStatsReport {
  hits : N;
  misses : N;
  errors : N;
  size : Z;
  maxSize : Z;
  hitRate : string
}.

(** [getStats], given the value of [this.cache.size]. *)
Definition stats_report (config : ScanConfig.t) (stats : Stats.t) (cacheSize : Z) : StatsReport :=
  mkStatsReport (Stats.hits stats) (Stats.misses stats) (Stats.errors stats)
    cacheSize (ScanConfig.PROBE_CACHE_SIZE config) (getHitRate stats ++ "%")%string.

Definition getStats (config : ScanConfig.t) : M StatsReport :=
  stats <- get_stats ;;
  cacheSize <- call Lru_size ;;
  ret (stats_report config stats cacheSize).

End ProbeCache.

(* ================================================================= *)
(** ** The first [Prober] of [prober.js]: cache, retry and time limit *)

Definition quote : string := String (ascii_of_nat 34) EmptyString.

(** A synchronous computation that may throw, inside an [async] one. *)
Definition lift {A : Type} (o : Outcome A) : M A := fun s => Ret (o, s).

Module Prober.

Definition ffprobePath : string := "ffprobe".

(** [withTimeout(promise, timeout)].  The promise has been started by the
    caller and is not cancelled when the timer wins the race, so its calls
    are made either way; which side settles first is asked of the
    environment. *)
Definition withTimeout {A : Type} (promise : M A) (timeout : Z) : M A :=
  fun s => bindP (promise s) (fun r =>
    Vis (TimerFirst timeout) (fun timer_first =>
      if timer_first then Ret (Threw (JsError "Probe timeout"), snd r) else Ret r)).

(** The [for] loop of [withRetry]: [rounds] passes are left, [i] is the loop
    variable.  The debug line of the [catch] block reads [error.message]. *)
Fixpoint retry_loop {A : Type} (fn : M A) (times : Z) (rounds : nat) (i : Z)
    (lastError : Thrown) : M A :=
  match rounds with
  | O => throw lastError
  | S rounds' =>
      try_catch fn (fun error =>
        (if i <? times - 1
         then (_ <- message_of error ;; call (SetTimeout (1000 * (i + 1))))
         else ret tt) ;;;
        retry_loop fn times rounds' (i + 1) error)
  end.

Definition withRetry {A : Type} (fn : M A) (times : Z) : M A :=
  retry_loop fn times (Z.to_nat times) 0 JsUndefined.

Definition transformChapters (chapters : list Raw.Chapter) : list Chapter :=
  map_chapters 0 chapters.

Definition tagMapping : list (string * string) :=
  [("title", "tagTitle"); ("album", "tagAlbum"); ("artist", "tagArtist");
   ("album_artist", "tagAlbumArtist"); ("composer", "tagComposer");
   ("genre", "tagGenre"); ("date", "tagDate"); ("comment", "tagComment");
   ("description", "tagDescription"); ("subtitle", "tagSubtitle");
   ("publisher", "tagPublisher"); ("track", "tagTrack"); ("disc", "tagDisc");
   ("series", "tagSeries"); ("series-part", "tagSeriesPart")].

Fixpoint mapping_of (table : list (string * string)) (key : string) : option string :=
  match table with
  | [] => None
  | (k, v) :: rest => if String.eqb k key then Some v else mapping_of rest key
  end.

(** [transformTags]; a key that names a property of [Object.prototype] is
    left aside. *)
Definition transformTags (tags : JsObject) : JsObject :=
  fold_left (fun normalized entry =>
               let normalizedKey :=
                 match mapping_of tagMapping (toLowerCase (fst entry)) with
                 | Some k => k
                 | None => fst entry
                 end in
               set_prop normalized normalizedKey (snd entry))
            tags [].

(** [data.format || {}] and [data.streams || []]; reading a property of
    [null] throws. *)
Definition object_of (data : Raw.Json) : Outcome Raw.Data :=
  match data with
  | Raw.JsonNull => Threw (JsError "Cannot read properties of null (reading 'format')")
  | Raw.JsonFalsy => Returned Raw.empty_data
  | Raw.JsonObject d => Returned d
  end.

Definition format_of (d : Raw.Data) : Raw.Format :=
  match Raw.format d with Some f => f | None => Raw.empty_format end.

Definition streams_of (d : Raw.Data) : list Raw.Stream :=
  match Raw.streams d with Some l => l | None => [] end.

Definition chapters_of (d : Raw.Data) : list Raw.Chapter :=
  match Raw.chapters d with Some l => l | None => [] end.

(** The [bit_rate] entry of both transformations:
    [parseInt(format.bit_rate) || (audioStream ? parseInt(audioStream.bit_rate) : 0)]. *)
Definition bit_rate_of (format : Raw.Format) (audioStream : option Raw.Stream) : JsNumber :=
  num_or (parseInt (Raw.bit_rate format))
         (match audioStream with
          | Some a => parseInt (Raw.s_bit_rate a)
          | None => Int 0
          end).

Definition video_of (videoStream : option Raw.Stream) : option VideoStream :=
  match videoStream with
  | Some v => Some (mkVideoStream (Raw.codec_name v))
  | None => None
  end.

Definition transformMinimalData (data : Raw.Json) : Outcome ProbeData :=
  match object_of data with
  | Threw t => Threw t
  | Returned d =>
      let format := format_of d in
      let streams := streams_of d in
      let audioStream := Raw.find_stream "audio" streams in
      let videoStream := Raw.find_stream "video" streams in
      Returned (mkProbeData
        (Raw.format_name format)
        (ParseFloatOr0 (Raw.duration format))
        (num_or_0 (parseInt (Raw.size format)))
        (bit_rate_of format audioStream)
        (match audioStream with
         | Some a => Some (mkAudioStream
                             (Raw.codec_name a)
                             (JNum (num_or_0 (parseInt (Raw.sample_rate a))))
                             (JNum (num_or_0 (parseInt (Raw.channels a))))
                             JUndefined
                             (num_or_0 (parseInt (Raw.s_bit_rate a)))
                             (Raw.time_base a)
                             JUndefined)
         | None => None
         end)
        (video_of videoStream)
        (transformChapters (chapters_of d))
        [])
  end.

Definition transformFullData (data : Raw.Json) : Outcome ProbeData :=
  match object_of data with
  | Threw t => Threw t
  | Returned d =>
      let format := format_of d in
      let streams := streams_of d in
      let audioStream := Raw.find_stream "audio" streams in
      let videoStream := Raw.find_stream "video" streams in
      Returned (mkProbeData
        (Raw.format_name format)
        (ParseFloatOr0 (Raw.duration format))
        (num_or_0 (parseInt (Raw.size format)))
        (bit_rate_of format audioStream)
        (match audioStream with
         | Some a => Some (mkAudioStream
                             (Raw.codec_name a)
                             (JNum (num_or_0 (parseInt (Raw.sample_rate a))))
                             (JNum (num_or_0 (parseInt (Raw.channels a))))
                             (Raw.channel_layout a)
                             (num_or_0 (parseInt (Raw.s_bit_rate a)))
                             (Raw.time_base a)
                             (get_prop_opt (Raw.s_tags a) "language"))
         | None => None
         end)
        (video_of videoStream)
        (transformChapters (chapters_of d))
        (transformTags (match Raw.tags format with Some t => t | None => [] end)))
  end.

Definition probeMinimal (filepath : string) : M ProbeData :=
  let cmd := String.concat " "
    [ffprobePath; "-v"; "quiet"; "-print_format"; "json";
     "-show_entries"; "format=duration,size,bit_rate";
     "-show_entries"; "stream=codec_name,codec_type,sample_rate,channels,bit_rate,time_base";
     "-show_chapters"; (quote ++ filepath ++ quote)%string] in
  try_catch
    (stdout <- await (Exec cmd (1024 * 1024)) ;;
     data <- await (JSON_parse stdout) ;;
     lift (transformMinimalData data))
    (fun error =>
       message <- message_of error ;;
       throw (JsError ("ffprobe minimal failed: " ++ message)%string)).

Definition probeFull (filepath : string) : M ProbeData :=
  let cmd := String.concat " "
    [ffprobePath; "-v"; "quiet"; "-print_format"; "json";
     "-show_format"; "-show_streams"; "-show_chapters";
     (quote ++ filepath ++ quote)%string] in
  try_catch
    (stdout <- await (Exec cmd (2 * 1024 * 1024)) ;;
     data <- await (JSON_parse stdout) ;;
     lift (transformFullData data))
    (fun error =>
       message <- message_of error ;;
       throw (JsError ("ffprobe full failed: " ++ message)%string)).

(** [a?.field] for the optional audio stream of a result. *)
Definition audio_field (f : AudioStream -> jsprim) (a : option AudioStream) : jsprim :=
  match a with Some s => f s | None => JUndefined end.

(** The object [probeData] that [probe] builds from the result. *)
Definition media_of (result : ProbeData) : MediaProbeData :=
  mkMediaProbeData
    (js_or (match video_stream result with Some v => v_codec v | None => JUndefined end) JNull)
    (pd_format result)
    (pd_duration result)
    (pd_size result)
    (audio_stream result)
    (video_stream result)
    (pd_bit_rate result)
    (audio_field codec (audio_stream result))
    (audio_field a_time_base (audio_stream result))
    (audio_field language (audio_stream result))
    (audio_field a_channel_layout (audio_stream result))
    (audio_field a_channels (audio_stream result))
    (audio_field a_sample_rate (audio_stream result))
    (pd_chapters result)
    (pd_tags result).

Definition probe (config : ScanConfig.t) (filepath : string) : M ProbeResult :=
  cached <- ProbeCache.get config filepath ;;
  match cached with
  | Some value => ret value
  | None =>
      let probeFunc :=
        if ScanConfig.shouldUseMinimalProbe config
        then probeMinimal filepath
        else probeFull filepath in
      let probeWithProtection :=
        withTimeout (withRetry probeFunc (ScanConfig.PROBE_RETRY_TIMES config))
                    (ScanConfig.PROBE_TIMEOUT config) in
      try_catch
        (result <- probeWithProtection ;;
         let probeData := Media (media_of result) in
         _ <- ProbeCache.set config filepath probeData ;;
         ret probeData)
        (fun error =>
           message <- message_of error ;;
           ret (ErrorResult message))
  end.

Definition rawProbe (filepath : string) : M ProbeData := probeFull filepath.

End Prober.

(* ================================================================= *)
(** ** The second [Prober] of [prober.js]: partial read *)

(** [Path.basename] and [Path.join], for a normalised directory and a plain
    file name. *)
Fixpoint basename_from (s last : string) : string :=
  match s with
  | String c t =>
      if Ascii.eqb c "/" then basename_from t t
      else basename_from t last
  | EmptyString => last
  end.

Definition Path_basename (p : string) : string := basename_from p p.

Definition Path_join (dir name : string) : string := (dir ++ "/" ++ name)%string.

(** [value || fallback] for an optional string. *)
Definition string_or (value : option string) (fallback : string) : string :=
  match value with
  | Some s => if String.eqb s "" then fallback else s
  | None => fallback
  end.

(** [value || fallback] for an optional number. *)
Definition Z_or (value : option Z) (fallback : Z) : Z :=
  match value with
  | Some n => if Z.eqb n 0 then fallback else n
  | None => fallback
  end.

(** The outcome of a block as a value, for a [catch] and a [finally] that
    read a variable assigned in the block. *)
Definition attempt {A : Type} (m : M A) : M (Outcome A) :=
  fun s => bindP (m s) (fun r => Ret (Returned (fst r), snd r)).

Module PartialProber.

(** The fields set by the constructor: [FFPROBE_PATH] of the environment or
    ['ffprobe'], and [abs-probe-cache] under [os.tmpdir()]. *)
Record t := mk {
  FFProbePath : string;
  TempProbeDir : string
}.

Definition ensureTempDir (this : t) : M unit :=
  try_catch (await (Fs_mkdir (TempProbeDir this))) (fun _ => ret tt).

Definition readPartialFile (this : t) (filePath : string) (maxBytes : Z) : M string :=
  now <- call Date_now ;;
  let tempFile :=
    Path_join (TempProbeDir this)
              (Path_basename filePath ++ "_" ++ decimal now ++ ".tmp")%string in
  try_catch
    (ensureTempDir this ;;;
     size <- await (Fs_stat filePath) ;;
     let bytesToRead := Z.min size maxBytes in
     await (Pipeline filePath tempFile 0 (bytesToRead - 1)) ;;;
     ret tempFile)
    (fun err =>
       _ <- message_of err ;;
       throw err).

(** [tempFile] is [None] for [null]. *)
Definition cleanupTempFile (this : t) (tempFile : option string) : M unit :=
  try_catch
    (match tempFile with
     | Some file =>
         if negb (String.eqb file "") && includes file (TempProbeDir this)
         then await (Fs_unlink file)
         else ret tt
     | None => ret tt
     end)
    (fun _ => ret tt).

Definition parseChapters (chapters : option (list Raw.Chapter)) : list Chapter :=
  match chapters with
  | Some l => map_chapters 0 l
  | None => []
  end.

Definition parseTags (config : ScanConfig.t) (tags : option JsObject) : JsObject :=
  match tags with
  | None => []
  | Some tags =>
      if ScanConfig.shouldSkipMetadata config then []
      else
        let normalized :=
          fold_left (fun acc entry => set_prop acc (toLowerCase (fst entry)) (snd entry))
                    tags [] in
        let get := get_prop normalized in
        [("tagTitle", get "title");
         ("tagAlbum", get "album");
         ("tagArtist", get "artist");
         ("tagAlbumArtist", js_or (get "album_artist") (get "album-artist"));
         ("tagGenre", get "genre");
         ("tagDate", js_or (get "date") (get "year"));
         ("tagComposer", get "composer");
         ("tagComment", get "comment");
         ("tagDescription", get "description");
         ("tagPublisher", get "publisher");
         ("tagSubtitle", get "subtitle");
         ("tagTrack", get "track");
         ("tagDisc", get "disc");
         ("tagLanguage", get "language");
         ("tagISBN", get "isbn");
         ("tagASIN", get "asin");
         ("tagSeries", get "series");
         ("tagSeriesPart", js_or (get "series-part") (get "series_part"))]
  end.

Definition parseProbeData (config : ScanConfig.t) (rawData : Raw.Json) : Outcome ProbeData :=
  match rawData with
  | Raw.JsonNull | Raw.JsonFalsy => Threw (JsError "Invalid ffprobe output")
  | Raw.JsonObject d =>
      match Raw.format d with
      | None => Threw (JsError "Invalid ffprobe output")
      | Some format =>
          let audioStream :=
            match Raw.streams d with
            | Some l => Raw.find_stream "audio" l
            | None => None
            end in
          let videoStream :=
            match Raw.streams d with
            | Some l => Raw.find_stream "video" l
            | None => None
            end in
          match audioStream with
          | None => Threw (JsError "No audio stream found")
          | Some a =>
              Returned (mkProbeData
                (Raw.format_name format)
                (ParseFloatOr0 (Raw.duration format))
                (num_or_0 (parseInt (Raw.size format)))
                (Int (num_or_0 (parseInt (Raw.bit_rate format))))
                (Some (mkAudioStream
                         (Raw.codec_name a)
                         (Raw.sample_rate a)
                         (Raw.channels a)
                         (Raw.channel_layout a)
                         (num_or_0 (parseInt (Raw.s_bit_rate a)))
                         (Raw.time_base a)
                         (get_prop_opt (Raw.s_tags a) "language")))
                (Prober.video_of videoStream)
                (parseChapters (Raw.chapters d))
                (if ScanConfig.shouldSkipMetadata config then []
                 else parseTags config (Raw.tags format)))
          end
      end
  end.

Definition runFFProbe (this : t) (config : ScanConfig.t) (filePath : string) : M ProbeData :=
  let args :=
    ["-v"; "quiet"; "-print_format"; "json"; "-show_format"; "-show_streams";
     "-show_chapters";
     "-analyzeduration"; string_or (ScanConfig.FFPROBE_ANALYZE_DURATION config) "5000000";
     "-probesize"; string_or (ScanConfig.FFPROBE_PROBE_SIZE config) "5000000";
     filePath] in
  let timeout := Z_or (Some (ScanConfig.PROBE_TIMEOUT config)) 30000 in
  try_catch
    (stdout <- await (ExecFile (FFProbePath this) args timeout (10 * 1024 * 1024)) ;;
     rawProbeData <- await (JSON_parse stdout) ;;
     lift (parseProbeData config rawProbeData))
    (fun err =>
       message <- message_of err ;;
       throw (JsError ("FFProbe failed: " ++ message)%string)).

(** The [catch] block of [probe]. *)
Definition probe_catch (err : Thrown) : M ProbeResult :=
  message <- message_of err ;;
  ret (ErrorResult message).

(** Step 2 of [probe]: the value of [tempFile] after the partial read. *)
Definition partial_read (this : t) (config : ScanConfig.t) (filePath : string)
  : M (option string) :=
  let usePartialRead :=
    match ScanConfig.USE_PARTIAL_READ config with
    | Some false => false
    | _ => true
    end in
  if usePartialRead then
    try_catch
      (let maxBytes := Z_or (ScanConfig.PARTIAL_READ_SIZE config) (5 * 1024 * 1024) in
       tempFile <- readPartialFile this filePath maxBytes ;;
       ret (Some tempFile))
      (fun err =>
         _ <- message_of err ;;
         ret None)
  else ret None.

(** Steps 3 and 4 of [probe]. *)
Definition probe_target (this : t) (config : ScanConfig.t) (filePath : string)
    (tempFile : option string) : M ProbeResult :=
  let targetFile := match tempFile with Some file => file | None => filePath end in
  result <- runFFProbe this config targetFile ;;
  (if ScanConfig.shouldUseCache config
   then (_ <- ProbeCache.set config filePath (Parsed result) ;; ret tt)
   else ret tt) ;;;
  ret (Parsed result).

(** The [try] and [catch] blocks of [probe], once [tempFile] is set. *)
Definition probe_try (this : t) (config : ScanConfig.t) (filePath : string)
    (tempFile : option string) : M ProbeResult :=
  try_catch (probe_target this config filePath tempFile) probe_catch.

Definition probe (this : t) (config : ScanConfig.t) (filePath : string) : M ProbeResult :=
  cached <- (if ScanConfig.shouldUseCache config
             then ProbeCache.get config filePath
             else ret None) ;;
  match cached with
  | Some value => ret value
  | None =>
      tempFile <- attempt (partial_read this config filePath) ;;
      match tempFile with
      | Threw err => probe_catch err
      | Returned tempFile =>
          try_finally
            (probe_try this config filePath tempFile)
            (match tempFile with
             | Some file =>
                 if String.eqb file "" then ret tt
                 else cleanupTempFile this (Some file)
             | None => ret tt
             end)
      end
  end.

Definition rawProbe (this : t) (config : ScanConfig.t) (filePath : string) : M ProbeData :=
  runFFProbe this config filePath.

End PartialProber.

(* ================================================================= *)
(** ** [doProbe] of node-ffprobe *)

Module NodeFfprobe.

(** The properties of an options object that [doProbe] reads. *)
Record OptionsObject := mkOptions {
  customArgs : option (list string);
  analyzeduration : option Z;
  probesize : option Z;
  skipChapters : bool
}.

(** The second argument: absent, [null] or not an object; an array; an
    object. *)
Inductive Options :=
| NoOptions
| ArgsArray (args : list string)
| Object (o : OptionsObject).

Definition build_args (file : string) (options : Options) : list string :=
  let args :=
    match options with
    | ArgsArray a => a
    | Object o =>
        match customArgs o with
        | Some a => a
        | None =>
            (match analyzeduration o with
             | Some n => ["-analyzeduration"; decimal n]
             | None => []
             end)
            ++ (match probesize o with
                | Some n => ["-probesize"; decimal n]
                | None => []
                end)
            ++ ["-hide_banner"; "-loglevel"; "fatal"; "-show_error"; "-show_format";
                "-show_streams"; "-show_programs"; "-show_private_data";
                "-print_format"; "json"]
            ++ (if skipChapters o then [] else ["-show_chapters"])
        end
    | NoOptions =>
        ["-hide_banner"; "-loglevel"; "fatal"; "-show_error"; "-show_format";
         "-show_streams"; "-show_programs"; "-show_chapters"; "-show_private_data";
         "-print_format"; "json"]
    end in
  args ++ [file].

(** The variables of the promise executor, and the promise: [None] while it
    is pending. *)
Record ProcState := mkProcState {
  probeData : list string;
  errData : list string;
  exitCode : option Z;
  promise : option (Outcome Raw.Json)
}.

(** [resolve] and [reject] do nothing to a settled promise. *)
Definition settle (o : Outcome Raw.Json) (st : ProcState) : ProcState :=
  match promise st with
  | Some _ => st
  | None => mkProcState (probeData st) (errData st) (exitCode st) (Some o)
  end.

Definition code_text (code : option Z) : string :=
  match code with
  | Some n => decimal n
  | None => "null"
  end.

(** The listeners of the child process. *)
Definition on_event (st : ProcState) (ev : ProcEvent) : Prog ProcState :=
  match ev with
  | StdoutData data =>
      Ret (mkProcState (probeData st ++ [data]) (errData st) (exitCode st) (promise st))
  | StderrData data =>
      Ret (mkProcState (probeData st) (errData st ++ [data]) (exitCode st) (promise st))
  | Exit code =>
      Ret (mkProcState (probeData st) (errData st) code (promise st))
  | ProcError message => Ret (settle (Threw (JsError message)) st)
  | Close =>
      let nonzero := match exitCode st with Some 0 => false | _ => true end in
      if nonzero && negb (Nat.eqb (List.length (errData st)) 0) then
        let errorMessage := String.concat "" (errData st) in
        Ret (settle (Threw (JsError ("ffprobe exited with code " ++ code_text (exitCode st)
                                     ++ ": " ++ errorMessage)%string)) st)
      else
        Vis (JSON_parse (String.concat "" (probeData st))) (fun r =>
          match r with
          | inr result => Ret (settle (Returned result) st)
          | inl message =>
              Ret (settle (Threw (JsError ("Failed to parse ffprobe output: "
                                           ++ message)%string)) st)
          end)
  end.

Fixpoint on_events (st : ProcState) (events : list ProcEvent) : Prog ProcState :=
  match events with
  | [] => Ret st
  | ev :: rest => bindP (on_event st ev) (fun st' => on_events st' rest)
  end.

(** The promise once the events of the child process are over: [None] when
    it is still pending. *)
Definition after_spawn (events : list ProcEvent) : Prog (option (Outcome Raw.Json)) :=
  bindP (on_events (mkProcState [] [] None None) events) (fun st => Ret (promise st)).

(** [doProbe(file, options)].  [FFPROBE_PATH] is the property of the module;
    the answer to [Spawn] is what the child process emits, in order. *)
Definition doProbe (FFPROBE_PATH : option string) (file : string) (options : Options)
  : Prog (option (Outcome Raw.Json)) :=
  Vis (Spawn (string_or FFPROBE_PATH "ffprobe") (build_args file options)) after_spawn.

End NodeFfprobe.

(* ================================================================= *)
(** ** What a run shows *)

(** The events of a run that [f] picks, in order. *)
Fixpoint observe {B : Type} (f : Event -> option B) (tr : list Event) : list B :=
  match tr with
  | [] => []
  | ev :: tr' =>
      match f ev with
      | Some b => b :: observe f tr'
      | None => observe f tr'
      end
  end.

(** The value of a [cache.set(key, value)]. *)
Definition lru_set_value (ev : Event) : option ProbeResult :=
  match ev with
  | Ev e _ => match e with
              | Lru_set _ value => Some value
              | _ => None
              end
  end.

(** The value that a [cache.get(key)] found. *)
Definition lru_hit_value (ev : Event) : option ProbeResult :=
  match ev with
  | Ev e x => match e in Eff X return X -> option ProbeResult with
              | Lru_get _ => fun answer => answer
              | _ => fun _ => None
              end x
  end.

(** The text given to [JSON.parse] and its answer. *)
Definition parse_answer (ev : Event) : option (string * (string + Raw.Json)) :=
  match ev with
  | Ev e x => match e in Eff X return X -> option (string * (string + Raw.Json)) with
              | JSON_parse text => fun answer => Some (text, answer)
              | _ => fun _ => None
              end x
  end.

(** What a child process started with [spawn] emitted. *)
Definition spawned (ev : Event) : option (list ProcEvent) :=
  match ev with
  | Ev e x => match e in Eff X return X -> option (list ProcEvent) with
              | Spawn _ _ => fun events => Some events
              | _ => fun _ => None
              end x
  end.

(** A start of the probing tool. *)
Definition tool_run (ev : Event) : option unit :=
  match ev with
  | Ev e _ => match e with
              | Exec _ _ | ExecFile _ _ _ _ | Spawn _ _ => Some tt
              | _ => None
              end
  end.

(** The path of an [fs.unlink(path)]. *)
Definition unlink_path (ev : Event) : option string :=
  match ev with
  | Ev e _ => match e with
              | Fs_unlink path => Some path
              | _ => None
              end
  end.

Definition lru_sets : list Event -> list ProbeResult := observe lru_set_value.
Definition lru_hits : list Event -> list ProbeResult := observe lru_hit_value.
Definition parse_answers : list Event -> list (string * (string + Raw.Json)) :=
  observe parse_answer.
Definition tool_runs (tr : list Event) : nat := List.length (observe tool_run tr).
Definition unlinks : list Event -> list string := observe unlink_path.

(** The [lru-cache] package is not code of the repository; what is assumed
    of it is that [get] finds only what [set] stored.  [coherent store tr]:
    along [tr], every value found by [cache.get] is in the store, which
    starts as [store] and takes each value given to [cache.set]. *)
Fixpoint coherent (store : list ProbeResult) (tr : list Event) : Prop :=
  match tr with
  | [] => True
  | ev :: tr' =>
      match lru_hit_value ev with
      | Some value => In value store
      | None => True
      end /\
      coherent (match lru_set_value ev with
                | Some value => value :: store
                | None => store
                end) tr'
  end.

(** An environment in which every call that can fail does fail, the cache is
    empty and the timer loses the race. *)
Definition refuse (X : Type) (e : Eff X) : X :=
  match e in Eff X return X with
  | Exec _ _ => inl "spawn ffprobe ENOENT"
  | ExecFile _ _ _ _ => inl "spawn ffprobe ENOENT"
  | Spawn _ _ => [ProcError "spawn ffprobe ENOENT"; Close]
  | JSON_parse _ => inl "Unexpected end of JSON input"
  | SetTimeout _ => tt
  | TimerFirst _ => false
  | Date_now => 1700000000000
  | Fs_stat _ => inl "ENOENT: no such file or directory"
  | Fs_open _ => inl "ENOENT: no such file or directory"
  | Fd_read _ _ => inl "EBADF: bad file descriptor"
  | Fd_close _ => inl "EBADF: bad file descriptor"
  | Sha256_hex _ => ""
  | Fs_mkdir _ => inl "EACCES: permission denied"
  | Pipeline _ _ _ _ => inl "ENOENT: no such file or directory"
  | Fs_unlink _ => inl "ENOENT: no such file or directory"
  | Lru_get _ => None
  | Lru_set _ _ => tt
  | Lru_clear => tt
  | Lru_size => 0
  end.

Definition offline : Oracle := fun _ => refuse.

(* ================================================================= *)
(** ** [scanConfig.js]: the matching helpers *)

Module ScanConfigHelpers.

(** [parseInt(process.env.PROBE_RETRY_TIMES) || 3], the value that
    [scanConfig] exports as [PROBE_RETRY_TIMES]. *)
Definition retry_times_setting (env : jsprim) : Z :=
  match num_or (parseInt env) (Int 3) with
  | Int z => z
  | NaN => 3
  end.

(** [file.metadata?.path] as a condition: a path is truthy when it is not
    empty. *)
Definition path_truthy (path : string) : bool := negb (String.eqb path "").

(** [isLibraryFileMatch(file1, file2)] *)
Definition isLibraryFileMatch (IGNORE_FILE_METADATA_CHANGES : bool)
    (file1 file2 : LibraryFile.t) : bool :=
  if path_truthy (LibraryFile.path file1) && path_truthy (LibraryFile.path file2)
  then String.eqb (LibraryFile.path file1) (LibraryFile.path file2)
  else if negb IGNORE_FILE_METADATA_CHANGES
          && truthy (LibraryFile.ino file1) && truthy (LibraryFile.ino file2)
  then strict_eq (LibraryFile.ino file1) (LibraryFile.ino file2)
  else false.

(** [hasLibraryFileChanged(existing, scanned)] *)
Definition hasLibraryFileChanged (IGNORE_FILE_METADATA_CHANGES : bool)
    (existing scanned : LibraryFile.t) : bool :=
  let meta1 := LibraryFile.metadata existing in
  let meta2 := LibraryFile.metadata scanned in
  if Metadata.differs Metadata.Kpath meta1 meta2 || Metadata.differs Metadata.Ksize meta1 meta2
  then true
  else if negb IGNORE_FILE_METADATA_CHANGES
  then negb (strict_eq (LibraryFile.ino existing) (LibraryFile.ino scanned))
       || Metadata.differs Metadata.KmtimeMs meta1 meta2
       || Metadata.differs Metadata.KctimeMs meta1 meta2
  else false.

(** The matching of the second definition of [checkLibraryItemData]
    (lines 345-356 of [LibraryItemScanData.js]): [isLibraryFileMatch], then
    the path. *)
Definition find_match_with_helper (ignore : bool) (candidates : list LibraryFile.t)
    (existingLibraryFile : LibraryFile.t) : option (nat * LibraryFile.t) :=
  match js_find (fun lf => isLibraryFileMatch ignore lf existingLibraryFile) candidates with
  | Some m => Some m
  | None =>
      js_find (fun lf => String.eqb (LibraryFile.path lf)
                                    (LibraryFile.path existingLibraryFile)) candidates
  end.

End ScanConfigHelpers.

(* ================================================================= *)
(** ** The first draft of [scanConfig] ([LibraryItemScanData.js], lines 199-282) *)

Module ScanConfigDraft.
Import ScanConfigHelpers.

(** [isLibraryFileMatch(file1, file2)], lines 215-233.  Unlike the later
    definitions it has a third case: under the Tolerant policy two files,
    one of them without a path, match when their paths and sizes are
    equal. *)
Definition isLibraryFileMatch (IGNORE_FILE_METADATA_CHANGES : bool)
    (file1 file2 : LibraryFile.t) : bool :=
  if path_truthy (LibraryFile.path file1) && path_truthy (LibraryFile.path file2)
  then String.eqb (LibraryFile.path file1) (LibraryFile.path file2)
  else if negb IGNORE_FILE_METADATA_CHANGES
          && truthy (LibraryFile.ino file1) && truthy (LibraryFile.ino file2)
  then strict_eq (LibraryFile.ino file1) (LibraryFile.ino file2)
  else if IGNORE_FILE_METADATA_CHANGES
  then String.eqb (LibraryFile.path file1) (LibraryFile.path file2)
       && Z.eqb (Metadata.size (LibraryFile.metadata file1))
                (Metadata.size (LibraryFile.metadata file2))
  else false.

(** [hasLibraryItemChanged(existing, scanned)], lines 241-256. *)
Definition hasLibraryItemChanged (IGNORE_FILE_METADATA_CHANGES : bool)
    (existing : LibraryItem.t) (scanned : ScanData.t) : bool :=
  if negb (String.eqb (LibraryItem.path existing) (ScanData.path scanned))
     || negb (String.eqb (LibraryItem.relPath existing) (ScanData.relPath scanned))
  then true
  else if negb IGNORE_FILE_METADATA_CHANGES then
    if negb (strict_eq (LibraryItem.ino existing) (ScanData.ino scanned)) then true
    else if negb (option_eqb Z.eqb (LibraryItem.mtime existing)
                             (Some (ScanData.mtimeMs scanned))) then true
    else if negb (option_eqb Z.eqb (LibraryItem.ctime existing)
                             (Some (ScanData.ctimeMs scanned))) then true
    else if negb (option_eqb Z.eqb (LibraryItem.birthtime existing)
                             (Some (ScanData.birthtimeMs scanned))) then true
    else false
  else false.

End ScanConfigDraft.

(* ================================================================= *)
(** ** The second definition of the reconciler ([LibraryItemScanData.js], lines 284-449) *)

(** The second [checkLibraryItemData] and [compareUpdateLibraryFile] go
    through the helpers of [scanConfig]; the stages before the loop over the
    files are those of the first definition. *)
Module Reconciler2.
Import Reconciler.

(** One round of the loop of lines 423-442. *)
Definition metadata_step (ignore : bool) (scanned : Metadata.t)
    (acc : Metadata.t * bool) (k : Metadata.key) : Metadata.t * bool :=
  let (m, changed) := acc in
  if Metadata.differs k m scanned then
    let timestamp := match k with Metadata.KmtimeMs | Metadata.KctimeMs => true | _ => false end in
    if ignore && timestamp then (Metadata.copy k scanned m, changed)
    else
      let changed' :=
        match k with
        | Metadata.Ksize | Metadata.Kpath | Metadata.KrelPath => true
        | _ => if negb ignore then true else changed
        end in
      (Metadata.copy k scanned m, changed')
  else (m, changed).

(** [compareUpdateLibraryFile], lines 404-449. *)
Definition compareUpdateLibraryFile (ignore : bool) (now : Z)
    (existingLibraryFile scannedLibraryFile : LibraryFile.t) : LibraryFile.t * bool :=
  let metadataChanged :=
    ScanConfigHelpers.hasLibraryFileChanged ignore existingLibraryFile scannedLibraryFile in
  let hasChanges0 := if metadataChanged then true else false in
  let f1 := LibraryFile.set_ino (LibraryFile.ino scannedLibraryFile) existingLibraryFile in
  let '(m, changed) :=
    fold_left (metadata_step ignore (LibraryFile.metadata scannedLibraryFile))
              Metadata.keys (LibraryFile.metadata f1, hasChanges0) in
  let f2 := LibraryFile.set_metadata m f1 in
  if changed then (LibraryFile.set_updatedAt (Some now) f2, true) else (f2, false).

Definition file_step (ignore : bool) (now : Z) (candidates : list LibraryFile.t)
    (st : FileLoop) (existingLibraryFile : LibraryFile.t) : FileLoop :=
  match ScanConfigHelpers.find_match_with_helper ignore candidates existingLibraryFile with
  | None =>
      mkFileLoop (kept st) (removed st ++ [existingLibraryFile]) (modified st)
                 (added st) true
  | Some (i, matchingLibraryFile) =>
      let added' := filter (fun c => negb (Nat.eqb (fst c) i)) (added st) in
      let existingLibraryFileBefore := existingLibraryFile in
      let (updated, changed) :=
        compareUpdateLibraryFile ignore now existingLibraryFile matchingLibraryFile in
      if changed
      then mkFileLoop (kept st ++ [updated]) (removed st)
                      (modified st ++ [(existingLibraryFileBefore, updated)]) added' true
      else mkFileLoop (kept st ++ [updated]) (removed st) (modified st) added'
                      (fileChanges st)
  end.

Definition file_loop (ignore : bool) (now : Z) (candidates existingFiles : list LibraryFile.t)
    (hasChanges0 : bool) : FileLoop :=
  fold_left (file_step ignore now candidates) existingFiles
            (mkFileLoop [] [] [] (indexed_from 0 candidates) hasChanges0).

(** [checkLibraryItemData], lines 289-401. *)
Definition checkLibraryItemData (ignore : bool) (now : Z) (version : string)
    (existingLibraryItem : LibraryItem.t) (this : ScanData.t) : Report :=
  let st0 := mkState existingLibraryItem false false in
  let st1 := compare_keys ignore this st0 in
  let st2 := compare_times ignore this st1 in
  let st3 := recover_missing st2 in
  let fl := file_loop ignore now (ScanData.libraryFiles this)
                      (LibraryItem.libraryFiles (existing st3)) (hasChanges st3) in
  let libraryFilesAdded := map (fun c => (fst c, mark_added (snd c))) (added fl) in
  let changes := if Nat.eqb (List.length (added fl)) 0 then fileChanges fl else true in
  let files := kept fl ++ map snd libraryFilesAdded in
  let e4 := LibraryItem.set_libraryFiles files (existing st3) in
  if changes then
    let e5 := LibraryItem.set_lastScanVersion (Some version)
                (LibraryItem.set_lastScan (Some now)
                   (LibraryItem.set_size (total_size files) e4)) in
    mkReport true (hasPathChange st3) (removed fl) (modified fl) libraryFilesAdded
             e5 (hasLibraryFileChanges fl) true
  else
    mkReport false (hasPathChange st3) (removed fl) (modified fl) libraryFilesAdded
             e4 false false.

End Reconciler2.

(* ================================================================= *)
(** ** [scanConfig] with a fast scan mode ([LibraryItemScanData.js], lines 507-638) *)

(** [process.env]: a variable that is not set is [None]. *)
Definition Env := string -> option string.

(** [process.env.NAME === 'true'] *)
Definition env_is_true (env : Env) (name : string) : bool :=
  match env name with
  | Some value => String.eqb value "true"
  | None => false
  end.

Module ScanConfigFastScan.

Record t := mk {
  IGNORE_FILE_METADATA_CHANGES : bool;
  FAST_SCAN_MODE : bool;
  SKIP_EMBEDDED_CHAPTERS : bool
}.

(** Lines 521-523. *)
Definition load (env : Env) : t :=
  mk (env_is_true env "IGNORE_FILE_METADATA")
     (env_is_true env "FAST_SCAN_MODE")
     (env_is_true env "SKIP_EMBEDDED_CHAPTERS").

(** [getProbeOptions()]: an options object for [doProbe]. *)
Definition getProbeOptions (config : t) : NodeFfprobe.OptionsObject :=
  if FAST_SCAN_MODE config
  then NodeFfprobe.mkOptions None (Some 5000000) (Some 5000000) (SKIP_EMBEDDED_CHAPTERS config)
  else NodeFfprobe.mkOptions None (Some 0) (Some 0) false.

(** [shouldSkipChapterScan(audioFile)]; the argument is
    [audioFile.metadata?.size], [None] when there is none. *)
Definition shouldSkipChapterScan (config : t) (size : option Z) : bool :=
  if FAST_SCAN_MODE config || SKIP_EMBEDDED_CHAPTERS config then true
  else match size with
       | Some n => if 500 * 1024 * 1024 <? n then true else false
       | None => false
       end.

Definition getScanBatchSize (config : t) : Z :=
  if FAST_SCAN_MODE config then 64 else 32.

End ScanConfigFastScan.

(* ================================================================= *)
(** ** [scanConfig] with scan modes and the probe cache ([LibraryItemScanData.js], lines 640-733) *)

(** [parseInt(value) || fallback] for a number [fallback]. *)
Definition int_or (n : JsNumber) (fallback : Z) : Z :=
  match num_or n (Int fallback) with
  | Int z => z
  | NaN => fallback
  end.

(** A variable of the environment as a JavaScript value. *)
Definition env_value (env : Env) (name : string) : jsprim :=
  match env name with
  | Some value => JStr value
  | None => JUndefined
  end.

Module ScanConfigModes.

Record t := mk {
  IGNORE_FILE_METADATA_CHANGES : bool;
  SCAN_MODE : string;
  SKIP_COVER_EXTRACTION : bool;
  SKIP_METADATA_TAGS : bool;
  SKIP_COVER_SEARCH : bool;
  SKIP_EBOOK_METADATA : bool;
  ENABLE_PROBE_CACHE : bool;
  PROBE_CACHE_TTL : Z;
  PROBE_CACHE_SIZE : Z;
  USE_MINIMAL_PROBE : bool;
  PROBE_BATCH_SIZE : Z;
  PROBE_TIMEOUT : Z;
  PROBE_RETRY_TIMES : Z
}.

(** The object [config] as it is read from the environment (lines
    653-678). *)
Definition read (env : Env) : t :=
  mk (env_is_true env "IGNORE_FILE_METADATA")
     (string_or (env "SCAN_MODE") "normal")
     (env_is_true env "SKIP_COVER")
     (env_is_true env "SKIP_METADATA_TAGS")
     (env_is_true env "SKIP_COVER_SEARCH")
     (env_is_true env "SKIP_EBOOK_METADATA")
     (env_is_true env "ENABLE_PROBE_CACHE")
     (int_or (parseInt (env_value env "PROBE_CACHE_TTL")) (7 * 24 * 60 * 60))
     (int_or (parseInt (env_value env "PROBE_CACHE_SIZE")) 10000)
     (env_is_true env "USE_MINIMAL_PROBE")
     (int_or (parseInt (env_value env "PROBE_BATCH_SIZE")) 8)
     (int_or (parseInt (env_value env "PROBE_TIMEOUT")) 30000)
     (ScanConfigHelpers.retry_times_setting (env_value env "PROBE_RETRY_TIMES")).

(** The settings that follow from the scan mode (lines 681-691). *)
Definition apply_mode (config : t) : t :=
  if String.eqb (SCAN_MODE config) "fast" then
    mk (IGNORE_FILE_METADATA_CHANGES config) (SCAN_MODE config)
       true true true (SKIP_EBOOK_METADATA config)
       true (PROBE_CACHE_TTL config) (PROBE_CACHE_SIZE config)
       true (PROBE_BATCH_SIZE config) (PROBE_TIMEOUT config) (PROBE_RETRY_TIMES config)
  else if String.eqb (SCAN_MODE config) "normal" then
    mk (IGNORE_FILE_METADATA_CHANGES config) (SCAN_MODE config)
       (SKIP_COVER_EXTRACTION config) (SKIP_METADATA_TAGS config) true
       (SKIP_EBOOK_METADATA config)
       (ENABLE_PROBE_CACHE config) (PROBE_CACHE_TTL config) (PROBE_CACHE_SIZE config)
       (USE_MINIMAL_PROBE config) (PROBE_BATCH_SIZE config) (PROBE_TIMEOUT config)
       (PROBE_RETRY_TIMES config)
  else config.

(** The configuration once the module is loaded. *)
Definition load (env : Env) : t := apply_mode (read env).

Definition isFastMode (config : t) : bool := String.eqb (SCAN_MODE config) "fast".
Definition shouldSkipCover (config : t) : bool :=
  SKIP_COVER_EXTRACTION config || String.eqb (SCAN_MODE config) "fast".
Definition shouldSkipMetadata (config : t) : bool :=
  SKIP_METADATA_TAGS config || String.eqb (SCAN_MODE config) "fast".
Definition shouldSkipCoverSearch (config : t) : bool :=
  SKIP_COVER_SEARCH config || negb (String.eqb (SCAN_MODE config) "full").
Definition shouldUseCache (config : t) : bool := ENABLE_PROBE_CACHE config.
Definition shouldUseMinimalProbe (config : t) : bool :=
  USE_MINIMAL_PROBE config || String.eqb (SCAN_MODE config) "fast".

(** What the probers and the cache read of the exported object; none of the
    [scanConfig] modules sets the four optional values. *)
Definition exported (config : t) : ScanConfig.t :=
  ScanConfig.mk (SCAN_MODE config) (SKIP_METADATA_TAGS config) (ENABLE_PROBE_CACHE config)
    (PROBE_CACHE_TTL config) (PROBE_CACHE_SIZE config) (USE_MINIMAL_PROBE config)
    (PROBE_TIMEOUT config) (PROBE_RETRY_TIMES config) None None None None.

End ScanConfigModes.

(* ================================================================= *)
(** ** [doProbe]: the array of arguments belongs to the caller *)

Module NodeFfprobeArgs.
Import NodeFfprobe.

(** The second argument as the caller finds it after [doProbe(file,
    options)]: [args] is the very array passed as [options], or as
    [options.customArgs], and [args.push(file)] appends to it; in the other
    cases [args] is an array of [doProbe]'s own. *)
Definition options_after (file : string) (options : Options) : Options :=
  match options with
  | ArgsArray a => ArgsArray (a ++ [file])
  | Object o =>
      match customArgs o with
      | Some a => Object (mkOptions (Some (a ++ [file])) (analyzeduration o) (probesize o)
                                    (skipChapters o))
      | None => options
      end
  | NoOptions => options
  end.

(** Calls of [doProbe], one file after the other, with the same second
    argument: the argument lists given to [spawn], and the second argument
    in the end. *)
Fixpoint probe_each (files : list string) (options : Options)
  : list (list string) * Options :=
  match files with
  | [] => ([], options)
  | file :: rest =>
      let (spawned, options') := probe_each rest (options_after file options) in
      (build_args file options :: spawned, options')
  end.

End NodeFfprobeArgs.

(* ================================================================= *)
(** * Properties *)

Lemma option_eqb_spec {A : Type} (eqb : A -> A -> bool) :
  (forall a b, eqb a b = true <-> a = b) ->
  forall x y, option_eqb eqb x y = true <-> x = y.
Proof.
  intros H [a|] [b|]; simpl; try rewrite H; split; congruence.
Qed.

Lemma strict_eq_spec a b : strict_eq a b = true <-> a = b.
Proof.
  destruct a, b; simpl; try (split; congruence).
  - rewrite Bool.eqb_true_iff. split; congruence.
  - rewrite Z.eqb_eq. split; congruence.
  - rewrite String.eqb_eq. split; congruence.
Qed.

Lemma strict_eq_refl a : strict_eq a a = true.
Proof. now apply strict_eq_spec. Qed.

Lemma strict_eq_sym a b : strict_eq a b = strict_eq b a.
Proof.
  destruct (strict_eq b a) eqn:E.
  - apply strict_eq_spec in E. subst. apply strict_eq_refl.
  - destruct (strict_eq a b) eqn:E'; [|reflexivity].
    apply strict_eq_spec in E'. subst. now rewrite strict_eq_refl in E.
Qed.

(* ================================================================= *)
(** ** Properties of the reconciler *)

Section FindFacts.
Context {A : Type} (p : A -> bool).

Lemma find_from_some (l : list A) : forall i j x,
  find_from p i l = Some (j, x) ->
  (i <= j)%nat /\ nth_error l (j - i) = Some x /\ p x = true /\
  (forall k y, (k < j - i)%nat -> nth_error l k = Some y -> p y = false).
Proof.
  induction l as [|a l IH]; intros i j x H; simpl in H; [discriminate|].
  destruct (p a) eqn:Hp.
  - inversion H; subst. rewrite Nat.sub_diag. repeat split; auto. intros k y Hk. lia.
  - apply IH in H. destruct H as (Hle & Hn & Hx & Hbefore).
    repeat split; try lia; auto.
    + replace (j - i)%nat with (S (j - S i)) by lia. exact Hn.
    + intros k y Hk Hy. destruct k as [|k]; simpl in Hy.
      * inversion Hy; subst; exact Hp.
      * apply (Hbefore k); [lia|exact Hy].
Qed.

Lemma find_from_none (l : list A) : forall i,
  find_from p i l = None <-> (forall x, In x l -> p x = false).
Proof.
  induction l as [|a l IH]; intros i; simpl.
  - split; [intros _ x []|reflexivity].
  - destruct (p a) eqn:Hp.
    + split; [discriminate|]. intros H. rewrite (H a) in Hp; [discriminate|now left].
    + rewrite IH. split.
      * intros H x [->|Hx]; auto.
      * intros H x Hx. apply H. now right.
Qed.

Lemma js_find_some (l : list A) i x :
  js_find p l = Some (i, x) ->
  nth_error l i = Some x /\ p x = true /\
  (forall k y, (k < i)%nat -> nth_error l k = Some y -> p y = false).
Proof.
  intros H. apply find_from_some in H. rewrite Nat.sub_0_r in H. tauto.
Qed.

Lemma js_find_exists (l : list A) x :
  In x l -> p x = true -> exists i y, js_find p l = Some (i, y).
Proof.
  intros Hin Hp. destruct (js_find p l) as [[i y]|] eqn:E; [eauto|].
  apply find_from_none with (x := x) in E; [congruence|exact Hin].
Qed.

End FindFacts.

Lemma indexed_from_fst {A : Type} (l : list A) : forall i,
  map fst (indexed_from i l) = seq i (List.length l).
Proof.
  induction l as [|a l IH]; intros i; simpl; [reflexivity|]. now rewrite IH.
Qed.

Lemma indexed_from_in {A : Type} (l : list A) : forall i j x,
  In (j, x) (indexed_from i l) -> (i <= j)%nat /\ nth_error l (j - i) = Some x.
Proof.
  induction l as [|a l IH]; intros i j x H; simpl in H; [contradiction|].
  destruct H as [H|H].
  - inversion H; subst. rewrite Nat.sub_diag. split; [lia|reflexivity].
  - apply IH in H. destruct H as [Hle Hn]. split; [lia|].
    replace (j - i)%nat with (S (j - S i)) by lia. exact Hn.
Qed.

(** Elements of a list whose images under [f] are pairwise distinct are
    determined by their image. *)
Lemma nodup_map_nth_inj {A B : Type} (f : A -> B) (l : list A) i j a b :
  NoDup (map f l) -> nth_error l i = Some a -> nth_error l j = Some b ->
  f a = f b -> i = j.
Proof.
  intros Hnd Hi Hj Hf.
  rewrite NoDup_nth_error in Hnd. apply Hnd.
  - rewrite length_map. apply nth_error_Some. congruence.
  - rewrite !nth_error_map, Hi, Hj. simpl. now rewrite Hf.
Qed.

Module ReconcilerProps.
Import Reconciler.

(** Which differences [compareUpdateLibraryFile] reports as a change. *)
Definition file_changed (ignore : bool) (e s : LibraryFile.t) : bool :=
  let me := LibraryFile.metadata e in
  let ms := LibraryFile.metadata s in
  (negb ignore && negb (strict_eq (LibraryFile.ino e) (LibraryFile.ino s)))
  || Metadata.differs Metadata.Kpath me ms
  || Metadata.differs Metadata.KrelPath me ms
  || Metadata.differs Metadata.Ksize me ms
  || (negb ignore && (Metadata.differs Metadata.KmtimeMs me ms
                      || Metadata.differs Metadata.KctimeMs me ms)).

Ltac eqb_cases :=
  repeat (cbv -[String.eqb Z.eqb];
          match goal with
          | |- context [String.eqb ?a ?b] => destruct (String.eqb_spec a b); subst
          | |- context [Z.eqb ?a ?b] => destruct (Z.eqb_spec a b); subst
          end);
  cbv -[String.eqb Z.eqb].

(** After [compareUpdateLibraryFile] the existing file carries the inode
    number and the whole metadata of the scanned file, under both policies;
    only the reported change depends on the policy. *)
Lemma compareUpdateLibraryFile_spec ignore now e s :
  compareUpdateLibraryFile ignore now e s =
  (LibraryFile.mk (LibraryFile.ino s) (LibraryFile.metadata s)
     (LibraryFile.isSupplementary e) (LibraryFile.isEBookFile e)
     (if file_changed ignore e s then Some now else LibraryFile.updatedAt e),
   file_changed ignore e s).
Proof.
  destruct e as [ie [pe re se me ce] sup eb up], s as [is_ [ps rs ss ms cs] sup' eb' up'].
  unfold compareUpdateLibraryFile, file_changed. simpl LibraryFile.ino. simpl LibraryFile.metadata.
  destruct (strict_eq ie is_) eqn:Hino.
  - apply strict_eq_spec in Hino. subst is_.
    destruct ignore; eqb_cases; try rewrite !Z.eqb_refl; try rewrite !String.eqb_refl;
      reflexivity.
  - destruct ignore; eqb_cases; try rewrite !Z.eqb_refl; try rewrite !String.eqb_refl;
      reflexivity.
Qed.

Definition matched_update (ignore : bool) (now : Z) (candidates : list LibraryFile.t)
    (ef : LibraryFile.t) : option (nat * LibraryFile.t * bool) :=
  match find_match ignore candidates ef with
  | None => None
  | Some (i, m) =>
      Some (i, fst (compareUpdateLibraryFile ignore now ef m),
            snd (compareUpdateLibraryFile ignore now ef m))
  end.

Lemma filter_negb_or {A : Type} (p q : A -> bool) (l : list A) :
  filter (fun c => negb (q c)) (filter (fun c => negb (p c)) l)
  = filter (fun c => negb (p c || q c)) l.
Proof.
  induction l as [|a l IH]; simpl; [reflexivity|].
  destruct (p a); simpl; [exact IH|]. destruct (q a); simpl; now rewrite IH.
Qed.

(** The loop over the existing files, as a function of the files alone. *)
Lemma file_loop_fold ignore now cands : forall efs st,
  let st' := fold_left (file_step ignore now cands) efs st in
  removed st' = removed st ++
    filter (fun ef => match find_match ignore cands ef with None => true | _ => false end) efs /\
  kept st' = kept st ++
    flat_map (fun ef => match matched_update ignore now cands ef with
                        | Some (_, u, _) => [u] | None => [] end) efs /\
  modified st' = modified st ++
    flat_map (fun ef => match matched_update ignore now cands ef with
                        | Some (_, u, true) => [(ef, u)] | _ => [] end) efs /\
  added st' =
    filter (fun c => negb (existsb (fun ef => match find_match ignore cands ef with
                                              | Some (i, _) => Nat.eqb (fst c) i
                                              | None => false end) efs)) (added st) /\
  fileChanges st' = fileChanges st ||
    existsb (fun ef => match matched_update ignore now cands ef with
                       | Some (_, _, c) => c | None => true end) efs.
Proof.
  induction efs as [|ef efs IH]; intros st; cbn zeta.
  - simpl. rewrite !app_nil_r, orb_false_r. repeat split; auto.
    induction (added st) as [|c l IHl]; simpl; [reflexivity|]. now rewrite <- IHl.
  - simpl fold_left. specialize (IH (file_step ignore now cands st ef)). cbn zeta in IH.
    destruct IH as (Hr & Hk & Hm & Ha & Hc).
    rewrite Hr, Hk, Hm, Ha, Hc. clear Hr Hk Hm Ha Hc.
    unfold file_step, matched_update. simpl filter. simpl flat_map. simpl existsb.
    destruct (find_match ignore cands ef) as [[i m]|] eqn:Hfm.
    + destruct (compareUpdateLibraryFile ignore now ef m) as [u c] eqn:Hcu.
      assert (Hadd : forall l : list (nat * LibraryFile.t),
        filter (fun c0 => negb (existsb (fun ef0 =>
            match find_match ignore cands ef0 with
            | Some (i0, _) => Nat.eqb (fst c0) i0 | None => false end) efs))
          (filter (fun c0 => negb (Nat.eqb (fst c0) i)) l)
        = filter (fun c0 => negb (Nat.eqb (fst c0) i || existsb (fun ef0 =>
            match find_match ignore cands ef0 with
            | Some (i0, _) => Nat.eqb (fst c0) i0 | None => false end) efs)) l).
      { intros l. apply (filter_negb_or (fun c0 => Nat.eqb (fst c0) i)). }
      destruct c; simpl; rewrite <- ?app_assoc; simpl; rewrite Hadd;
        repeat split; auto; now rewrite orb_true_r.
    + simpl. rewrite <- ?app_assoc. simpl. repeat split; auto. now rewrite orb_true_r.
Qed.

(** The first three stages leave the file list of the existing record
    alone. *)
Lemma key_step_files s st k :
  LibraryItem.libraryFiles (existing (key_step s st k)) = LibraryItem.libraryFiles (existing st).
Proof.
  unfold key_step. destruct (item_differs k (existing st) s); [|reflexivity].
  destruct k; reflexivity.
Qed.

Lemma compare_keys_files ignore s st :
  LibraryItem.libraryFiles (existing (compare_keys ignore s st))
  = LibraryItem.libraryFiles (existing st).
Proof.
  unfold compare_keys. generalize (keysToCompare ignore) as ks. intros ks. revert st.
  induction ks as [|k ks IH]; intros st; simpl; [reflexivity|].
  now rewrite IH, key_step_files.
Qed.

Lemma compare_times_files ignore s st :
  LibraryItem.libraryFiles (existing (compare_times ignore s st))
  = LibraryItem.libraryFiles (existing st).
Proof.
  unfold compare_times. destruct ignore; simpl; [reflexivity|].
  repeat match goal with |- context [if ?c then _ else _] => destruct c; simpl end; reflexivity.
Qed.

Lemma recover_missing_files st :
  LibraryItem.libraryFiles (existing (recover_missing st))
  = LibraryItem.libraryFiles (existing st).
Proof. unfold recover_missing. destruct (LibraryItem.isMissing _); reflexivity. Qed.

Lemma stages_files ignore s e :
  LibraryItem.libraryFiles
    (existing (recover_missing (compare_times ignore s
       (compare_keys ignore s (mkState e false false)))))
  = LibraryItem.libraryFiles e.
Proof. now rewrite recover_missing_files, compare_times_files, compare_keys_files. Qed.

(** The report of a run in terms of the loop over the files. *)
Lemma check_report ignore now version e s :
  let st3 := recover_missing (compare_times ignore s
               (compare_keys ignore s (mkState e false false))) in
  let fl := file_loop ignore now (ScanData.libraryFiles s) (LibraryItem.libraryFiles e)
              (hasChanges st3) in
  let r := checkLibraryItemData ignore now version e s in
  r_hasChanges r = (if Nat.eqb (List.length (added fl)) 0 then fileChanges fl else true) /\
  returned r = r_hasChanges r /\
  libraryFilesRemoved r = removed fl /\
  libraryFilesModified r = modified fl /\
  libraryFilesAdded r = map (fun c => (fst c, mark_added (snd c))) (added fl) /\
  LibraryItem.libraryFiles (existingLibraryItem r)
    = kept fl ++ map (fun c => mark_added (snd c)) (added fl) /\
  LibraryItem.ino (existingLibraryItem r) = LibraryItem.ino (existing st3) /\
  LibraryItem.mtime (existingLibraryItem r) = LibraryItem.mtime (existing st3) /\
  LibraryItem.ctime (existingLibraryItem r) = LibraryItem.ctime (existing st3) /\
  LibraryItem.birthtime (existingLibraryItem r) = LibraryItem.birthtime (existing st3).
Proof.
  cbn zeta. unfold checkLibraryItemData. cbn zeta. rewrite stages_files.
  rewrite map_map. simpl.
  destruct (if Nat.eqb _ 0 then _ else true); simpl; repeat split; reflexivity.
Qed.

Lemma filter_nil {A : Type} (p : A -> bool) (l : list A) :
  (forall x, In x l -> p x = false) -> filter p l = [].
Proof.
  induction l as [|a l IH]; intros H; simpl; [reflexivity|].
  rewrite (H a) by now left. apply IH. intros x Hx. apply H. now right.
Qed.

Lemma flat_map_nil {A B : Type} (f : A -> list B) (l : list A) :
  (forall x, In x l -> f x = []) -> flat_map f l = [].
Proof.
  induction l as [|a l IH]; intros H; simpl; [reflexivity|].
  rewrite (H a) by now left. simpl. apply IH. intros x Hx. apply H. now right.
Qed.

Lemma existsb_false {A : Type} (p : A -> bool) (l : list A) :
  (forall x, In x l -> p x = false) -> existsb p l = false.
Proof.
  induction l as [|a l IH]; intros H; simpl; [reflexivity|].
  rewrite (H a) by now left. apply IH. intros x Hx. apply H. now right.
Qed.

(** *** Tolerant policy *)

(** Under the Tolerant policy matching is by path alone. *)
Lemma find_match_tolerant cands ef :
  find_match true cands ef =
  js_find (fun lf => String.eqb (LibraryFile.path lf) (LibraryFile.path ef)) cands.
Proof. unfold find_match. now destruct (js_find _ cands). Qed.

(** The first loop under Tolerant never touches the inode number of the
    item: ['ino'] is not among the keys. *)
Lemma key_step_ino s st k :
  k <> Kino ->
  LibraryItem.ino (existing (key_step s st k)) = LibraryItem.ino (existing st).
Proof.
  intros Hk. unfold key_step. destruct (item_differs k (existing st) s); [|reflexivity].
  destruct k; try reflexivity. contradiction.
Qed.

Lemma compare_keys_tolerant_ino s st :
  LibraryItem.ino (existing (compare_keys true s st)) = LibraryItem.ino (existing st).
Proof.
  unfold compare_keys. simpl keysToCompare. simpl fold_left.
  rewrite !key_step_ino by discriminate. reflexivity.
Qed.

(** The item-level fields other than the inode number and the time stamps
    agree. *)
Definition same_item_fields (e : LibraryItem.t) (s : ScanData.t) : Prop :=
  LibraryItem.libraryFolderId e = ScanData.libraryFolderId s /\
  LibraryItem.path e = ScanData.path s /\
  LibraryItem.relPath e = ScanData.relPath s /\
  LibraryItem.isFile e = ScanData.isFile s.

(** The file-level fields other than [ino], [mtimeMs] and [ctimeMs] agree. *)
Definition same_file_fields (f g : LibraryFile.t) : Prop :=
  Metadata.path (LibraryFile.metadata f) = Metadata.path (LibraryFile.metadata g) /\
  Metadata.relPath (LibraryFile.metadata f) = Metadata.relPath (LibraryFile.metadata g) /\
  Metadata.size (LibraryFile.metadata f) = Metadata.size (LibraryFile.metadata g).

(** The existing record and the candidate differ at most in the inode
    numbers and time stamps of the item and of its files: the item is not
    flagged missing, the other item fields agree, and the two file lists hold
    the same paths (in any order, each candidate path once) with the same
    [relPath] and [size]. *)
Definition differ_only_in_inode_and_times (e : LibraryItem.t) (s : ScanData.t) : Prop :=
  same_item_fields e s /\
  LibraryItem.isMissing e = false /\
  (forall ef, In ef (LibraryItem.libraryFiles e) ->
     exists c, In c (ScanData.libraryFiles s) /\ same_file_fields ef c) /\
  (forall c, In c (ScanData.libraryFiles s) ->
     exists ef, In ef (LibraryItem.libraryFiles e) /\ LibraryFile.path ef = LibraryFile.path c) /\
  NoDup (map LibraryFile.path (ScanData.libraryFiles s)).

Lemma compare_keys_same ignore e s b1 b2 :
  same_item_fields e s ->
  (ignore = false -> LibraryItem.ino e = ScanData.ino s) ->
  compare_keys ignore s (mkState e b1 b2) = mkState e b1 b2.
Proof.
  intros (H1 & H2 & H3 & H4) Hino. unfold compare_keys.
  assert (Hk : forall k, In k (keysToCompare ignore) -> item_differs k e s = false).
  { intros k Hk. destruct k; simpl.
    - destruct ignore; simpl in Hk.
      + repeat destruct Hk as [Hk|Hk]; try discriminate; contradiction.
      + rewrite Hino by reflexivity. now rewrite strict_eq_refl.
    - now rewrite H1, String.eqb_refl.
    - now rewrite H2, String.eqb_refl.
    - now rewrite H3, String.eqb_refl.
    - rewrite H4. now destruct (ScanData.isFile s). }
  induction (keysToCompare ignore) as [|k ks IH]; simpl; [reflexivity|].
  unfold key_step at 2. simpl existing. rewrite Hk by now left.
  apply IH. intros k' Hk'. apply Hk. now right.
Qed.

Lemma same_file_fields_unchanged ef c :
  same_file_fields ef c -> file_changed true ef c = false.
Proof.
  intros (H1 & H2 & H3). unfold file_changed, Metadata.differs. simpl.
  now rewrite H1, H2, H3, !String.eqb_refl, Z.eqb_refl.
Qed.

(** With pairwise distinct candidate paths, the candidate found by path is
    the one that carries the path. *)
Lemma js_find_path_nodup cands c p :
  NoDup (map LibraryFile.path cands) -> In c cands -> LibraryFile.path c = p ->
  exists i, js_find (fun lf => String.eqb (LibraryFile.path lf) p) cands = Some (i, c)
            /\ nth_error cands i = Some c.
Proof.
  intros Hnd Hin Hp.
  destruct (js_find_exists (fun lf => String.eqb (LibraryFile.path lf) p) cands c Hin)
    as (i & y & Hf); [now rewrite Hp, String.eqb_refl|].
  destruct (js_find_some _ _ _ _ Hf) as (Hn & Hy & _).
  apply String.eqb_eq in Hy.
  destruct (In_nth_error _ _ Hin) as [j Hj].
  assert (i = j) by (eapply (nodup_map_nth_inj LibraryFile.path); eauto; congruence).
  subst j. assert (y = c) by congruence. subst y. eauto.
Qed.

Lemma tolerant_stages s st :
  let e3 := existing (recover_missing (compare_times true s st)) in
  LibraryItem.ino e3 = LibraryItem.ino (existing st) /\
  LibraryItem.mtime e3 = Some (ScanData.mtimeMs s) /\
  LibraryItem.ctime e3 = Some (ScanData.ctimeMs s) /\
  LibraryItem.birthtime e3 = Some (ScanData.birthtimeMs s) /\
  hasChanges (recover_missing (compare_times true s st))
    = hasChanges st || LibraryItem.isMissing (existing st).
Proof.
  destruct st as [e hc hp]. unfold recover_missing, compare_times. cbn.
  destruct (LibraryItem.isMissing e); cbn; rewrite ?orb_true_r, ?orb_false_r; auto.
Qed.

Lemma tolerant_times now version e s :
  let e' := existingLibraryItem (checkLibraryItemData true now version e s) in
  LibraryItem.mtime e' = Some (ScanData.mtimeMs s) /\
  LibraryItem.ctime e' = Some (ScanData.ctimeMs s) /\
  LibraryItem.birthtime e' = Some (ScanData.birthtimeMs s).
Proof.
  cbn zeta.
  destruct (check_report true now version e s) as (_ & _ & _ & _ & _ & _ & _ & Hm & Hc & Hb).
  rewrite Hm, Hc, Hb.
  destruct (tolerant_stages s (compare_keys true s (mkState e false false)))
    as (_ & Hm' & Hc' & Hb' & _).
  auto.
Qed.

Lemma tolerant_item_ino now version e s :
  LibraryItem.ino (existingLibraryItem (checkLibraryItemData true now version e s))
  = LibraryItem.ino e.
Proof.
  destruct (check_report true now version e s) as (_ & _ & _ & _ & _ & _ & Hi & _).
  rewrite Hi.
  destruct (tolerant_stages s (compare_keys true s (mkState e false false))) as (Hi' & _).
  cbn zeta in Hi'. rewrite Hi'. apply compare_keys_tolerant_ino.
Qed.

(** Every existing file with a candidate at its path stays in the record and
    takes the candidate's inode number and metadata. *)
Lemma matched_file_synced ignore now version e s ef i c :
  In ef (LibraryItem.libraryFiles e) ->
  find_match ignore (ScanData.libraryFiles s) ef = Some (i, c) ->
  In (LibraryFile.mk (LibraryFile.ino c) (LibraryFile.metadata c)
        (LibraryFile.isSupplementary ef) (LibraryFile.isEBookFile ef)
        (if file_changed ignore ef c then Some now else LibraryFile.updatedAt ef))
     (LibraryItem.libraryFiles
        (existingLibraryItem (checkLibraryItemData ignore now version e s))).
Proof.
  intros Hin Hfm.
  destruct (check_report ignore now version e s) as (_ & _ & _ & _ & _ & Hf & _).
  rewrite Hf. apply in_or_app. left. unfold file_loop.
  destruct (file_loop_fold ignore now (ScanData.libraryFiles s) (LibraryItem.libraryFiles e)
              (mkFileLoop [] [] [] (indexed_from 0 (ScanData.libraryFiles s))
                 (hasChanges (recover_missing (compare_times ignore s
                    (compare_keys ignore s (mkState e false false)))))))
    as (_ & Hk & _).
  rewrite Hk. simpl. apply in_flat_map. exists ef. split; [exact Hin|].
  unfold matched_update. rewrite Hfm, compareUpdateLibraryFile_spec. simpl. now left.
Qed.

Lemma tolerant_no_change now version e s :
  differ_only_in_inode_and_times e s ->
  let r := checkLibraryItemData true now version e s in
  r_hasChanges r = false /\ returned r = false /\
  libraryFilesRemoved r = [] /\ libraryFilesModified r = [] /\ libraryFilesAdded r = [].
Proof.
  intros (Hitem & Hmiss & Hex & Hcand & Hnd). cbn zeta.
  destruct (check_report true now version e s) as (Hch & Hret & Hrem & Hmod & Hadd & _).
  rewrite Hret, Hch, Hrem, Hmod, Hadd. clear Hch Hret Hrem Hmod Hadd.
  rewrite compare_keys_same by (auto; discriminate).
  assert (Hst : hasChanges (recover_missing (compare_times true s (mkState e false false)))
                = false).
  { destruct (tolerant_stages s (mkState e false false)) as (_ & _ & _ & _ & H).
    rewrite H. simpl. exact Hmiss. }
  rewrite Hst. unfold file_loop.
  destruct (file_loop_fold true now (ScanData.libraryFiles s) (LibraryItem.libraryFiles e)
              (mkFileLoop [] [] [] (indexed_from 0 (ScanData.libraryFiles s)) false))
    as (Hr & _ & Hm & Ha & Hc).
  cbn zeta in *. simpl in Hr, Hm, Ha, Hc.
  assert (Hmatch : forall ef, In ef (LibraryItem.libraryFiles e) ->
            exists i c, find_match true (ScanData.libraryFiles s) ef = Some (i, c)
                        /\ nth_error (ScanData.libraryFiles s) i = Some c
                        /\ same_file_fields ef c).
  { intros ef Hef. destruct (Hex ef Hef) as (c & Hc' & Hsame).
    destruct (js_find_path_nodup (ScanData.libraryFiles s) c (LibraryFile.path ef) Hnd Hc')
      as (i & Hf & Hn); [symmetry; apply Hsame|].
    exists i, c. rewrite find_match_tolerant. auto. }
  assert (Hr0 : removed (fold_left (file_step true now (ScanData.libraryFiles s))
                   (LibraryItem.libraryFiles e)
                   (mkFileLoop [] [] [] (indexed_from 0 (ScanData.libraryFiles s)) false)) = []).
  { rewrite Hr. apply filter_nil. intros ef Hef.
    destruct (Hmatch ef Hef) as (i & c & -> & _). reflexivity. }
  assert (Hm0 : modified (fold_left (file_step true now (ScanData.libraryFiles s))
                   (LibraryItem.libraryFiles e)
                   (mkFileLoop [] [] [] (indexed_from 0 (ScanData.libraryFiles s)) false)) = []).
  { rewrite Hm. apply flat_map_nil. intros ef Hef.
    destruct (Hmatch ef Hef) as (i & c & Hf & _ & Hsame). unfold matched_update.
    rewrite Hf, compareUpdateLibraryFile_spec. simpl.
    now rewrite same_file_fields_unchanged. }
  assert (Hc0 : fileChanges (fold_left (file_step true now (ScanData.libraryFiles s))
                   (LibraryItem.libraryFiles e)
                   (mkFileLoop [] [] [] (indexed_from 0 (ScanData.libraryFiles s)) false))
                = false).
  { rewrite Hc. apply existsb_false. intros ef Hef.
    destruct (Hmatch ef Hef) as (i & c & Hf & _ & Hsame). unfold matched_update.
    rewrite Hf, compareUpdateLibraryFile_spec. simpl.
    now apply same_file_fields_unchanged. }
  assert (Ha0 : added (fold_left (file_step true now (ScanData.libraryFiles s))
                   (LibraryItem.libraryFiles e)
                   (mkFileLoop [] [] [] (indexed_from 0 (ScanData.libraryFiles s)) false)) = []).
  { rewrite Ha. apply filter_nil. intros [j c] Hjc. simpl fst.
    apply indexed_from_in in Hjc. destruct Hjc as [_ Hn]. rewrite Nat.sub_0_r in Hn.
    apply negb_false_iff. apply existsb_exists.
    destruct (Hcand c (nth_error_In _ _ Hn)) as (ef & Hef & Hp).
    exists ef. split; [exact Hef|].
    destruct (Hmatch ef Hef) as (i & c' & Hf & Hn' & Hsame). rewrite Hf.
    apply Nat.eqb_eq.
    eapply (nodup_map_nth_inj LibraryFile.path); eauto.
    unfold LibraryFile.path in *. destruct Hsame as [Hs _]. congruence. }
  rewrite Hr0, Hm0, Hc0, Ha0. simpl. auto.
Qed.

(** The record, the candidate and their files without the inode numbers and
    the time stamps. *)
Definition erase_file (f : LibraryFile.t) : LibraryFile.t :=
  LibraryFile.mk JUndefined
    (Metadata.mk (Metadata.path (LibraryFile.metadata f))
                 (Metadata.relPath (LibraryFile.metadata f))
                 (Metadata.size (LibraryFile.metadata f)) 0 0)
    (LibraryFile.isSupplementary f) (LibraryFile.isEBookFile f) (LibraryFile.updatedAt f).

Definition erase_item (e : LibraryItem.t) : LibraryItem.t :=
  LibraryItem.mk JUndefined (LibraryItem.libraryFolderId e) (LibraryItem.path e)
    (LibraryItem.relPath e) (LibraryItem.isFile e) None None None
    (LibraryItem.isMissing e) (map erase_file (LibraryItem.libraryFiles e))
    (LibraryItem.size e) (LibraryItem.lastScan e) (LibraryItem.lastScanVersion e).

Definition erase_scan (s : ScanData.t) : ScanData.t :=
  ScanData.mk JUndefined (ScanData.libraryFolderId s) (ScanData.path s) (ScanData.relPath s)
    (ScanData.isFile s) 0 0 0 (map erase_file (ScanData.libraryFiles s)).

Lemma find_from_map {A B : Type} (g : A -> B) (p : B -> bool) (l : list A) : forall i,
  find_from p i (map g l)
  = option_map (fun c => (fst c, g (snd c))) (find_from (fun x => p (g x)) i l).
Proof.
  induction l as [|a l IH]; intros i; simpl; [reflexivity|].
  destruct (p (g a)); [reflexivity|apply IH].
Qed.

Lemma find_match_erase cands ef :
  find_match true (map erase_file cands) (erase_file ef)
  = option_map (fun c => (fst c, erase_file (snd c))) (find_match true cands ef).
Proof.
  rewrite !find_match_tolerant. unfold js_find. now rewrite find_from_map.
Qed.

Lemma file_changed_erase ef c :
  file_changed true (erase_file ef) (erase_file c) = file_changed true ef c.
Proof. reflexivity. Qed.

Lemma existsb_map_eq {A B : Type} (g : A -> B) (p : B -> bool) (l : list A) :
  existsb p (map g l) = existsb (fun x => p (g x)) l.
Proof. induction l as [|a l IH]; simpl; [reflexivity|]. now rewrite IH. Qed.

Lemma existsb_ext_eq {A : Type} (p q : A -> bool) (l : list A) :
  (forall x, p x = q x) -> existsb p l = existsb q l.
Proof. intros H. induction l as [|a l IH]; simpl; [reflexivity|]. now rewrite H, IH. Qed.

Lemma filter_indexed_length {A : Type} (h : nat -> bool) (l : list A) : forall i,
  List.length (filter (fun c => h (fst c)) (indexed_from i l))
  = List.length (filter h (seq i (List.length l))).
Proof.
  induction l as [|a l IH]; intros i; simpl; [reflexivity|].
  destruct (h i); simpl; now rewrite IH.
Qed.

Lemma key_step_spec s e hc hp k :
  key_step s (mkState e hc hp) k =
  mkState (if item_differs k e s then item_adopt k s e else e)
          (hc || item_differs k e s)
          (if item_differs k e s then (if is_path_key k then true else hp) else hp).
Proof.
  unfold key_step. simpl. destruct (item_differs k e s);
    rewrite ?orb_true_r, ?orb_false_r; reflexivity.
Qed.

Lemma differs_after_adopt (b : bool) k k' s e :
  k <> k' ->
  item_differs k' (if b then item_adopt k s e else e) s = item_differs k' e s.
Proof.
  intros H. destruct b; [|reflexivity]. destruct k, k'; try contradiction; reflexivity.
Qed.

Lemma isMissing_after_adopt (b : bool) k s e :
  LibraryItem.isMissing (if b then item_adopt k s e else e) = LibraryItem.isMissing e.
Proof. destruct b; [|reflexivity]. destruct k; reflexivity. Qed.

(** Under the Tolerant policy the item-level stages report a change exactly
    when one of the four keys compared differs or the item was missing. *)
Lemma tolerant_item_changes e s :
  hasChanges (recover_missing (compare_times true s
                (compare_keys true s (mkState e false false))))
  = item_differs KlibraryFolderId e s || item_differs Kpath e s
    || item_differs KrelPath e s || item_differs KisFile e s
    || LibraryItem.isMissing e.
Proof.
  destruct (tolerant_stages s (compare_keys true s (mkState e false false)))
    as (_ & _ & _ & _ & Hst).
  rewrite Hst. clear Hst. unfold compare_keys.
  cbn [keysToCompare negb fold_left]. rewrite !key_step_spec.
  cbn [hasChanges existing]. rewrite !isMissing_after_adopt.
  rewrite !differs_after_adopt by discriminate. reflexivity.
Qed.

(** The inode numbers and the time stamps of the record, of the candidate
    and of their files have no part in [hasChanges] under the Tolerant
    policy. *)
Lemma tolerant_hasChanges_erase now version e s :
  r_hasChanges (checkLibraryItemData true now version e s)
  = r_hasChanges (checkLibraryItemData true now version (erase_item e) (erase_scan s)).
Proof.
  destruct (check_report true now version e s) as (-> & _).
  destruct (check_report true now version (erase_item e) (erase_scan s)) as (-> & _).
  rewrite !tolerant_item_changes. unfold file_loop.
  match goal with |- context [fold_left (file_step true now (ScanData.libraryFiles s)) _ ?st0] =>
    destruct (file_loop_fold true now (ScanData.libraryFiles s)
                (LibraryItem.libraryFiles e) st0) as (_ & _ & _ & Ha & Hc)
  end.
  match goal with
  | |- context [fold_left (file_step true now (ScanData.libraryFiles (erase_scan s))) _ ?st0] =>
    destruct (file_loop_fold true now (ScanData.libraryFiles (erase_scan s))
                (LibraryItem.libraryFiles (erase_item e)) st0) as (_ & _ & _ & Ha' & Hc')
  end.
  cbn zeta in Ha, Hc, Ha', Hc'. rewrite Ha, Hc, Ha', Hc'. clear Ha Hc Ha' Hc'.
  cbn [added fileChanges ScanData.libraryFiles LibraryItem.libraryFiles erase_scan erase_item].
  assert (Hlen : forall (cands efs : list LibraryFile.t),
    List.length (filter (fun c : nat * LibraryFile.t =>
        negb (existsb (fun ef => match find_match true (map erase_file cands) ef with
                                 | Some (i, _) => Nat.eqb (fst c) i
                                 | None => false end) (map erase_file efs)))
      (indexed_from 0 (map erase_file cands)))
    = List.length (filter (fun c : nat * LibraryFile.t =>
        negb (existsb (fun ef => match find_match true cands ef with
                                 | Some (i, _) => Nat.eqb (fst c) i
                                 | None => false end) efs))
      (indexed_from 0 cands))).
  { intros cands efs.
    rewrite (filter_indexed_length
               (fun j => negb (existsb (fun ef =>
                  match find_match true (map erase_file cands) ef with
                  | Some (i, _) => Nat.eqb j i | None => false end) (map erase_file efs)))).
    rewrite (filter_indexed_length
               (fun j => negb (existsb (fun ef =>
                  match find_match true cands ef with
                  | Some (i, _) => Nat.eqb j i | None => false end) efs))).
    rewrite length_map. f_equal. apply filter_ext. intros j. f_equal.
    rewrite existsb_map_eq. apply existsb_ext_eq. intros ef.
    rewrite find_match_erase. now destruct (find_match true cands ef) as [[i c]|]. }
  rewrite Hlen. clear Hlen.
  assert (Hch : forall (cands efs : list LibraryFile.t),
    existsb (fun ef => match matched_update true now (map erase_file cands) ef with
                       | Some (_, _, c) => c | None => true end) (map erase_file efs)
    = existsb (fun ef => match matched_update true now cands ef with
                         | Some (_, _, c) => c | None => true end) efs).
  { intros cands efs. rewrite existsb_map_eq. apply existsb_ext_eq. intros ef.
    unfold matched_update. rewrite find_match_erase.
    destruct (find_match true cands ef) as [[i c]|]; [|reflexivity].
    simpl. now rewrite !compareUpdateLibraryFile_spec. }
  rewrite Hch. reflexivity.
Qed.

(** The scenario of section 8 of the specification: one file at
    [/lib/book.m4b], inode 7, of 1000000 bytes; the candidate reports the
    same path and size, later time stamps and no inode numbers. *)
Definition book_file (ino : jsprim) (t : Z) : LibraryFile.t :=
  LibraryFile.mk ino (Metadata.mk "/lib/book.m4b" "book.m4b" 1000000 t t) false false None.

Definition book_existing : LibraryItem.t :=
  LibraryItem.mk (JNum 7) "folder-1" "/lib/book.m4b" "book.m4b" true
    (Some 1700000000000) (Some 1700000000000) (Some 1700000000000) false
    [book_file (JNum 7) 1700000000000] 1000000 None None.

Definition book_scanned : ScanData.t :=
  ScanData.mk JUndefined "folder-1" "/lib/book.m4b" "book.m4b" true
    1700000500000 1700000500000 1700000500000 [book_file JUndefined 1700000500000].

(** C1 as stated fails for the inode number of the item: under the Tolerant
    policy the existing record keeps its own [ino], here 7, although the
    candidate has none. *)
Lemma tolerant_item_ino_not_overwritten :
  LibraryItem.ino (existingLibraryItem
     (checkLibraryItemData true 1700000600000 "2.0.0" book_existing book_scanned))
  <> ScanData.ino book_scanned.
Proof. vm_compute. discriminate. Qed.

(** C1 (amended).  For every run of [checkLibraryItemData] under the Tolerant
    policy ([IGNORE_FILE_METADATA_CHANGES]): the item-level [mtime], [ctime]
    and [birthtime] of the existing record are overwritten with the
    candidate's values; the item-level [ino] is left as it was; every
    existing file that has a candidate at its path stays in the record with
    the [ino], [mtimeMs] and [ctimeMs] of that candidate.  [hasChanges] does
    not depend on any of these fields: it is the same for the record and the
    candidate with all of them erased; and when the record and the candidate
    differ in nothing but these fields, [hasChanges] is false, nothing is
    reported added, removed or modified, and the call returns false. *)
Theorem tolerant_sync_without_change now version e s :
  let r := checkLibraryItemData true now version e s in
  let e' := existingLibraryItem r in
  (LibraryItem.mtime e' = Some (ScanData.mtimeMs s) /\
   LibraryItem.ctime e' = Some (ScanData.ctimeMs s) /\
   LibraryItem.birthtime e' = Some (ScanData.birthtimeMs s)) /\
  LibraryItem.ino e' = LibraryItem.ino e /\
  (forall ef i c,
     In ef (LibraryItem.libraryFiles e) ->
     js_find (fun lf => String.eqb (LibraryFile.path lf) (LibraryFile.path ef))
             (ScanData.libraryFiles s) = Some (i, c) ->
     exists ef',
       In ef' (LibraryItem.libraryFiles e') /\
       LibraryFile.ino ef' = LibraryFile.ino c /\
       Metadata.mtimeMs (LibraryFile.metadata ef') = Metadata.mtimeMs (LibraryFile.metadata c) /\
       Metadata.ctimeMs (LibraryFile.metadata ef') = Metadata.ctimeMs (LibraryFile.metadata c) /\
       LibraryFile.path ef' = LibraryFile.path ef /\
       LibraryFile.isSupplementary ef' = LibraryFile.isSupplementary ef /\
       LibraryFile.isEBookFile ef' = LibraryFile.isEBookFile ef) /\
  r_hasChanges r
    = r_hasChanges (checkLibraryItemData true now version (erase_item e) (erase_scan s)) /\
  (differ_only_in_inode_and_times e s ->
     r_hasChanges r = false /\ returned r = false /\
     libraryFilesRemoved r = [] /\ libraryFilesModified r = [] /\ libraryFilesAdded r = []).
Proof.
  cbn zeta. split; [apply tolerant_times|]. split; [apply tolerant_item_ino|].
  split; [|split; [apply tolerant_hasChanges_erase|apply tolerant_no_change]].
  intros ef i c Hef Hfind.
  pose proof (matched_file_synced true now version e s ef i c Hef) as Hin.
  rewrite find_match_tolerant in Hin. specialize (Hin Hfind).
  eexists. split; [exact Hin|]. simpl. repeat split; try reflexivity.
  destruct (js_find_some _ _ _ _ Hfind) as (_ & Hp & _).
  apply String.eqb_eq in Hp. exact Hp.
Qed.

Lemma tolerant_sync_without_change_witness :
  differ_only_in_inode_and_times book_existing book_scanned /\
  r_hasChanges (checkLibraryItemData true 1700000600000 "2.0.0" book_existing book_scanned)
  = false.
Proof.
  assert (H : differ_only_in_inode_and_times book_existing book_scanned).
  { split; [repeat split|]. split; [reflexivity|]. split; [|split].
    - intros ef [<-|[]]. exists (book_file JUndefined 1700000500000).
      split; [now left|repeat split].
    - intros c [<-|[]]. exists (book_file (JNum 7) 1700000000000).
      split; [now left|reflexivity].
    - simpl. constructor; [intros []|constructor]. }
  split; [exact H|].
  exact (proj1 (proj2 (proj2 (proj2 (proj2
    (tolerant_sync_without_change 1700000600000 "2.0.0" book_existing book_scanned)))) H)).
Defined.

(** *** Strict policy *)

Lemma find_match_path_first ignore cands ef i c :
  js_find (fun lf => String.eqb (LibraryFile.path lf) (LibraryFile.path ef)) cands
    = Some (i, c) ->
  find_match ignore cands ef = Some (i, c).
Proof. intros H. unfold find_match. now rewrite H. Qed.

Lemma find_match_no_path ignore cands ef :
  (forall c, In c cands -> LibraryFile.path c <> LibraryFile.path ef) ->
  find_match ignore cands ef =
  if negb ignore
  then js_find (fun lf => strict_eq (LibraryFile.ino lf) (LibraryFile.ino ef)) cands
  else None.
Proof.
  intros H. unfold find_match.
  destruct (js_find _ cands) as [[i c]|] eqn:E; [|reflexivity].
  destruct (js_find_some _ _ _ _ E) as (Hn & Hp & _).
  apply String.eqb_eq in Hp. apply nth_error_In in Hn. now apply H in Hn.
Qed.

Lemma path_change_is_change ignore ef c :
  LibraryFile.path c <> LibraryFile.path ef -> file_changed ignore ef c = true.
Proof.
  intros H. unfold file_changed, Metadata.differs.
  unfold LibraryFile.path in H.
  assert (E : String.eqb (Metadata.path (LibraryFile.metadata ef))
                         (Metadata.path (LibraryFile.metadata c)) = false)
    by (apply String.eqb_neq; congruence).
  rewrite E. simpl. now rewrite orb_true_r.
Qed.

(** What the run reports about an existing file that has a match and whose
    path changes. *)
Lemma matched_with_path_change ignore now version e s ef i c :
  In ef (LibraryItem.libraryFiles e) ->
  find_match ignore (ScanData.libraryFiles s) ef = Some (i, c) ->
  LibraryFile.path c <> LibraryFile.path ef ->
  let r := checkLibraryItemData ignore now version e s in
  let ef' := LibraryFile.mk (LibraryFile.ino c) (LibraryFile.metadata c)
               (LibraryFile.isSupplementary ef) (LibraryFile.isEBookFile ef) (Some now) in
  ~ In ef (libraryFilesRemoved r) /\
  In (ef, ef') (libraryFilesModified r) /\
  In ef' (LibraryItem.libraryFiles (existingLibraryItem r)) /\
  ~ In i (map fst (libraryFilesAdded r)) /\
  r_hasChanges r = true.
Proof.
  intros Hef Hfm Hpath. cbn zeta.
  pose proof (matched_file_synced ignore now version e s ef i c Hef Hfm) as Hsync.
  rewrite (path_change_is_change ignore ef c Hpath) in Hsync.
  destruct (check_report ignore now version e s) as (Hch & _ & Hrem & Hmod & Hadd & _).
  rewrite Hch, Hrem, Hmod, Hadd. clear Hch Hrem Hmod Hadd. unfold file_loop.
  match goal with |- context [fold_left _ _ ?st0] =>
    destruct (file_loop_fold ignore now (ScanData.libraryFiles s)
                (LibraryItem.libraryFiles e) st0) as (Hr & _ & Hm & Ha & Hc)
  end.
  cbn zeta in Hr, Hm, Ha, Hc. rewrite Hr, Hm, Ha, Hc. clear Hr Hm Ha Hc.
  assert (Hmu : matched_update ignore now (ScanData.libraryFiles s) ef =
                Some (i, LibraryFile.mk (LibraryFile.ino c) (LibraryFile.metadata c)
                           (LibraryFile.isSupplementary ef) (LibraryFile.isEBookFile ef)
                           (Some now), true)).
  { unfold matched_update. rewrite Hfm, compareUpdateLibraryFile_spec. simpl.
    now rewrite (path_change_is_change ignore ef c Hpath). }
  split; [|split; [|split; [|split]]].
  - simpl. intros Hin. apply filter_In in Hin. destruct Hin as [_ Hin].
    rewrite Hfm in Hin. discriminate.
  - simpl. apply in_flat_map. exists ef. split; [exact Hef|]. rewrite Hmu. now left.
  - exact Hsync.
  - rewrite map_map. simpl. intros Hin. apply in_map_iff in Hin.
    destruct Hin as ([j x] & Hj & Hin). simpl in Hj. subst j.
    apply filter_In in Hin. destruct Hin as [_ Hin].
    apply negb_true_iff in Hin.
    assert (Hex : existsb (fun ef0 => match find_match ignore (ScanData.libraryFiles s) ef0 with
                                      | Some (i0, _) => Nat.eqb (fst (i, x)) i0
                                      | None => false end)
                          (LibraryItem.libraryFiles e) = true).
    { apply existsb_exists. exists ef. split; [exact Hef|]. rewrite Hfm. apply Nat.eqb_refl. }
    congruence.
  - assert (Hex : existsb (fun ef0 => match matched_update ignore now (ScanData.libraryFiles s) ef0 with
                                      | Some (_, _, ch) => ch | None => true end)
                          (LibraryItem.libraryFiles e) = true).
    { apply existsb_exists. exists ef. split; [exact Hef|]. now rewrite Hmu. }
    rewrite Hex, orb_true_r. now destruct (Nat.eqb _ 0).
Qed.

(** The matching of the first definition of [checkLibraryItemData]
    (lines 20-136), for every existing file [ef] of the persisted record: a
    candidate at exactly the path of [ef] is the match, whatever the inodes
    (the first such candidate).  Under the Strict policy, when no candidate
    has the path of [ef] but one has its inode (the same value under [===]),
    [ef] is matched to the first candidate [c] with that inode: [ef] is not
    reported removed, the pair of [ef] and its updated version, which
    carries the path of [c], is reported modified, the updated file is in
    the record, [c] is not reported added, and [hasChanges] is true.  Under
    the Tolerant policy there is no such fall-back. *)
Theorem strict_path_then_inode now version e s ef :
  let candidates := ScanData.libraryFiles s in
  let r := checkLibraryItemData false now version e s in
  In ef (LibraryItem.libraryFiles e) ->
  (forall policy i c,
     js_find (fun lf => String.eqb (LibraryFile.path lf) (LibraryFile.path ef)) candidates
       = Some (i, c) ->
     find_match policy candidates ef = Some (i, c)) /\
  ((forall c, In c candidates -> LibraryFile.path c <> LibraryFile.path ef) ->
   find_match true candidates ef = None /\
   forall c0, In c0 candidates -> LibraryFile.ino c0 = LibraryFile.ino ef ->
   exists i c ef',
     find_match false candidates ef = Some (i, c) /\
     js_find (fun lf => strict_eq (LibraryFile.ino lf) (LibraryFile.ino ef)) candidates
       = Some (i, c) /\
     LibraryFile.ino c = LibraryFile.ino ef /\
     LibraryFile.path c <> LibraryFile.path ef /\
     ~ In ef (libraryFilesRemoved r) /\
     In (ef, ef') (libraryFilesModified r) /\
     LibraryFile.path ef' = LibraryFile.path c /\
     LibraryFile.ino ef' = LibraryFile.ino c /\
     In ef' (LibraryItem.libraryFiles (existingLibraryItem r)) /\
     ~ In i (map fst (libraryFilesAdded r)) /\
     r_hasChanges r = true).
Proof.
  cbn zeta. intros Hef. split.
  - intros policy i c. apply find_match_path_first.
  - intros Hnopath. split; [now rewrite find_match_no_path|].
    intros c0 Hc0 Hino.
    destruct (js_find_exists
                (fun lf => strict_eq (LibraryFile.ino lf) (LibraryFile.ino ef))
                (ScanData.libraryFiles s) c0 Hc0) as (i & c & Hfind).
    { rewrite Hino. apply strict_eq_refl. }
    destruct (js_find_some _ _ _ _ Hfind) as (Hn & Hc & _).
    apply strict_eq_spec in Hc.
    assert (Hp : LibraryFile.path c <> LibraryFile.path ef)
      by (apply Hnopath; eapply nth_error_In; eauto).
    assert (Hfm : find_match false (ScanData.libraryFiles s) ef = Some (i, c))
      by (now rewrite find_match_no_path).
    destruct (matched_with_path_change false now version e s ef i c Hef Hfm Hp)
      as (H1 & H2 & H3 & H4 & H5).
    exists i, c. eexists.
    split; [exact Hfm|]. split; [exact Hfind|]. split; [exact Hc|]. split; [exact Hp|].
    split; [exact H1|]. split; [exact H2|]. split; [reflexivity|]. split; [reflexivity|].
    split; [exact H3|]. split; [exact H4|exact H5].
Qed.

(** The rename of section 8: path A with inode 42 is gone, path B carries
    inode 42. *)
Definition renamed_file_A : LibraryFile.t :=
  LibraryFile.mk (JNum 42) (Metadata.mk "/lib/book/A.mp3" "A.mp3" 5000 100 100)
    false false None.

Definition renamed_file_B : LibraryFile.t :=
  LibraryFile.mk (JNum 42) (Metadata.mk "/lib/book/B.mp3" "B.mp3" 5000 100 100)
    false false None.

Definition renamed_existing : LibraryItem.t :=
  LibraryItem.mk (JNum 7) "folder-1" "/lib/book" "book" false
    (Some 100) (Some 100) (Some 100) false [renamed_file_A] 5000 None None.

Definition renamed_scanned : ScanData.t :=
  ScanData.mk (JNum 7) "folder-1" "/lib/book" "book" false 100 100 100 [renamed_file_B].

Lemma strict_path_then_inode_witness :
  exists ef',
    libraryFilesRemoved (checkLibraryItemData false 200 "2.0.0" renamed_existing renamed_scanned)
      = [] /\
    libraryFilesAdded (checkLibraryItemData false 200 "2.0.0" renamed_existing renamed_scanned)
      = [] /\
    In ef' (LibraryItem.libraryFiles (existingLibraryItem
              (checkLibraryItemData false 200 "2.0.0" renamed_existing renamed_scanned))) /\
    LibraryFile.path ef' = "/lib/book/B.mp3".
Proof.
  destruct (strict_path_then_inode 200 "2.0.0" renamed_existing renamed_scanned
              renamed_file_A) as [_ H]; [now left|].
  destruct H as [_ H].
  - intros c [<-|[]]. discriminate.
  - destruct (H renamed_file_B) as (i & c & ef' & Hfm & _ & _ & _ & _ & _ & Hp & _ & Hin & _);
      [now left|reflexivity|].
    exists ef'. split; [vm_compute; reflexivity|]. split; [vm_compute; reflexivity|].
    split; [exact Hin|].
    rewrite Hp. vm_compute in Hfm. now inversion Hfm.
Defined.

(** The helper [isLibraryFileMatch] compares two files that both have a path
    by the path alone, under both policies: the matching built on it, in the
    second definition of [checkLibraryItemData], has no fall-back to the
    inode number for such files. *)
Lemma isLibraryFileMatch_with_paths ignore file1 file2 :
  LibraryFile.path file1 <> "" -> LibraryFile.path file2 <> "" ->
  ScanConfigHelpers.isLibraryFileMatch ignore file1 file2
  = String.eqb (LibraryFile.path file1) (LibraryFile.path file2).
Proof.
  intros H1 H2. unfold ScanConfigHelpers.isLibraryFileMatch, ScanConfigHelpers.path_truthy.
  apply String.eqb_neq in H1, H2. now rewrite H1, H2.
Qed.

Lemma helper_matching_misses_rename :
  ScanConfigHelpers.find_match_with_helper false (ScanData.libraryFiles renamed_scanned)
    renamed_file_A = None.
Proof. reflexivity. Qed.

(** C2.  The helper [isLibraryFileMatch] of [scanConfig.js] has no fall-back
    to the inode for files that have a path: it compares two such files by
    their paths alone, under either policy.  On the rename of section 8
    under the Strict policy, where the existing file at path A and the
    candidate at path B carry the same inode, it answers [false].  The
    second definition of [checkLibraryItemData] (lines 289-401), whose
    matching (lines 345-356) asks the helper and then compares the paths,
    finds no match for A: it reports A removed and B added, and no file
    modified.  The first definition (lines 20-136) matches the two files by
    the inode: it reports one file modified, A with the path of B, and
    neither a removal nor an addition. *)
Theorem rename_is_removal_plus_addition_with_isLibraryFileMatch :
  let first := checkLibraryItemData false 200 "2.0.0" renamed_existing renamed_scanned in
  let second :=
    Reconciler2.checkLibraryItemData false 200 "2.0.0" renamed_existing renamed_scanned in
  (LibraryItem.libraryFiles renamed_existing = [renamed_file_A] /\
   ScanData.libraryFiles renamed_scanned = [renamed_file_B] /\
   LibraryFile.ino renamed_file_B = LibraryFile.ino renamed_file_A /\
   LibraryFile.path renamed_file_B <> LibraryFile.path renamed_file_A) /\
  (ScanConfigHelpers.isLibraryFileMatch false renamed_file_B renamed_file_A = false /\
   forall ignore file1 file2,
     LibraryFile.path file1 <> "" -> LibraryFile.path file2 <> "" ->
     ScanConfigHelpers.isLibraryFileMatch ignore file1 file2
     = String.eqb (LibraryFile.path file1) (LibraryFile.path file2)) /\
  (ScanConfigHelpers.find_match_with_helper false [renamed_file_B] renamed_file_A = None /\
   libraryFilesRemoved second = [renamed_file_A] /\
   libraryFilesModified second = [] /\
   libraryFilesAdded second = [(0%nat, renamed_file_B)]) /\
  (find_match false [renamed_file_B] renamed_file_A = Some (0%nat, renamed_file_B) /\
   libraryFilesRemoved first = [] /\
   libraryFilesModified first =
     [(renamed_file_A, LibraryFile.set_updatedAt (Some 200) renamed_file_B)] /\
   libraryFilesAdded first = []).
Proof.
  cbn zeta. split; [|split; [|split]].
  - repeat split; discriminate.
  - split; [reflexivity|]. intros ignore file1 file2.
    apply isLibraryFileMatch_with_paths.
  - repeat split.
  - repeat split.
Qed.

End ReconcilerProps.

(* ================================================================= *)
(** ** Runs of programs *)

Lemma runs_bindP {A B : Type} (p : Prog A) (f : A -> Prog B) : forall tr b,
  runs (bindP p f) tr b <->
  exists tr1 a tr2, runs p tr1 a /\ runs (f a) tr2 b /\ tr = tr1 ++ tr2.
Proof.
  induction p as [a|X e k IH]; intros tr b; simpl.
  - split.
    + intros H. exists [], a, tr. auto.
    + intros (tr1 & a' & tr2 & [-> ->] & H & ->). exact H.
  - split.
    + intros (x & tr' & -> & H). apply IH in H.
      destruct H as (tr1 & a & tr2 & H1 & H2 & ->).
      exists (Ev e x :: tr1), a, tr2. split; [|split]; auto.
      exists x, tr1. auto.
    + intros (tr1 & a & tr2 & (x & tr1' & -> & H1) & H2 & ->).
      exists x, (tr1' ++ tr2). split; [reflexivity|].
      apply IH. exists tr1', a, tr2. auto.
Qed.

(** Every environment gives a run: programs are total. *)
Lemma run_runs {A : Type} (env : Oracle) (p : Prog A) : forall history,
  runs p (fst (run env history p)) (snd (run env history p)).
Proof.
  induction p as [a|X e k IH]; intros history; simpl; [auto|].
  specialize (IH (env history X e) (history ++ [Ev e (env history X e)])).
  destruct (run env (history ++ [Ev e (env history X e)]) (k (env history X e))) as [tr a].
  simpl in *. eauto.
Qed.

Lemma runs_ret {A : Type} (a : A) s tr r :
  runs (ret a s) tr r <-> tr = [] /\ r = (Returned a, s).
Proof. reflexivity. Qed.

Lemma runs_throw {A : Type} (t : Thrown) s tr (r : Outcome A * Stats.t) :
  runs (throw t s) tr r <-> tr = [] /\ r = (Threw t, s).
Proof. reflexivity. Qed.

Lemma runs_bind {A B : Type} (m : M A) (f : A -> M B) s tr r :
  runs (bind m f s) tr r <->
  (exists tr1 a s1 tr2, runs (m s) tr1 (Returned a, s1) /\ runs (f a s1) tr2 r
                        /\ tr = tr1 ++ tr2) \/
  (exists t s1, runs (m s) tr (Threw t, s1) /\ r = (Threw t, s1)).
Proof.
  unfold bind. rewrite runs_bindP. split.
  - intros (tr1 & [[a|t] s1] & tr2 & H1 & H2 & ->); simpl in H2.
    + left. exists tr1, a, s1, tr2. auto.
    + right. destruct H2 as [-> ->]. rewrite app_nil_r. eauto.
  - intros [(tr1 & a & s1 & tr2 & H1 & H2 & ->)|(t & s1 & H1 & ->)].
    + exists tr1, (Returned a, s1), tr2. auto.
    + exists tr, (Threw t, s1), []. rewrite app_nil_r. simpl. auto.
Qed.

Lemma runs_try_catch {A : Type} (m : M A) (h : Thrown -> M A) s tr r :
  runs (try_catch m h s) tr r <->
  (exists a s1, runs (m s) tr (Returned a, s1) /\ r = (Returned a, s1)) \/
  (exists tr1 t s1 tr2, runs (m s) tr1 (Threw t, s1) /\ runs (h t s1) tr2 r
                        /\ tr = tr1 ++ tr2).
Proof.
  unfold try_catch. rewrite runs_bindP. split.
  - intros (tr1 & [[a|t] s1] & tr2 & H1 & H2 & ->); simpl in H2.
    + left. destruct H2 as [-> ->]. rewrite app_nil_r. eauto.
    + right. exists tr1, t, s1, tr2. auto.
  - intros [(a & s1 & H1 & ->)|(tr1 & t & s1 & tr2 & H1 & H2 & ->)].
    + exists tr, (Returned a, s1), []. rewrite app_nil_r. simpl. auto.
    + exists tr1, (Threw t, s1), tr2. auto.
Qed.

Lemma runs_try_finally {A : Type} (m : M A) (c : M unit) s tr r :
  runs (try_finally m c s) tr r <->
  exists tr1 o s1 tr2 oc s2,
    runs (m s) tr1 (o, s1) /\ runs (c s1) tr2 (oc, s2) /\ tr = tr1 ++ tr2 /\
    r = (match oc with Returned _ => o | Threw t => Threw t end, s2).
Proof.
  unfold try_finally. rewrite runs_bindP. split.
  - intros (tr1 & [o s1] & tr2 & H1 & H2 & ->). apply runs_bindP in H2.
    destruct H2 as (tr3 & [oc s2] & tr4 & H2 & H3 & ->).
    exists tr1, o, s1, tr3, oc, s2. simpl in *.
    destruct oc; destruct H3 as [-> ->]; rewrite app_nil_r; auto.
  - intros (tr1 & o & s1 & tr2 & oc & s2 & H1 & H2 & -> & ->).
    exists tr1, (o, s1), tr2. split; [exact H1|]. split; [|reflexivity].
    apply runs_bindP. exists tr2, (oc, s2), []. rewrite app_nil_r. simpl.
    destruct oc; simpl; auto.
Qed.

Lemma runs_call {X : Type} (e : Eff X) s tr r :
  runs (call e s) tr r <-> exists x, tr = [Ev e x] /\ r = (Returned x, s).
Proof.
  simpl. split.
  - intros (x & tr' & -> & -> & ->). eauto.
  - intros (x & -> & ->). exists x, []. auto.
Qed.

Lemma runs_await {X : Type} (e : Eff (string + X)) s tr r :
  runs (await e s) tr r <->
  exists x, tr = [Ev e x] /\
            r = (match x with inr v => Returned v | inl m => Threw (JsError m) end, s).
Proof.
  simpl. split.
  - intros (x & tr' & -> & H). destruct x; destruct H as [-> ->]; eauto.
  - intros (x & -> & ->). exists x, []. destruct x; simpl; auto.
Qed.

Lemma runs_modify f s tr r :
  runs (modify f s) tr r <-> tr = [] /\ r = (Returned tt, f s).
Proof. reflexivity. Qed.

Lemma runs_lift {A : Type} (o : Outcome A) s tr r :
  runs (lift o s) tr r <-> tr = [] /\ r = (o, s).
Proof. reflexivity. Qed.

Lemma runs_message_of error s tr r :
  runs (message_of error s) tr r <->
  tr = [] /\
  r = (match error with
       | JsError m => Returned m
       | JsUndefined =>
           Threw (JsError "Cannot read properties of undefined (reading 'message')")
       end, s).
Proof. destruct error; reflexivity. Qed.

Lemma runs_attempt {A : Type} (m : M A) s tr r :
  runs (attempt m s) tr r <-> exists o s1, runs (m s) tr (o, s1) /\ r = (Returned o, s1).
Proof.
  unfold attempt. rewrite runs_bindP. split.
  - intros (tr1 & [o s1] & tr2 & H1 & [-> ->] & ->). rewrite app_nil_r. eauto.
  - intros (o & s1 & H1 & ->). exists tr, (o, s1), []. rewrite app_nil_r. simpl. auto.
Qed.

(* ================================================================= *)
(** ** Properties of the retry wrapper *)

Module RetryProps.
Import Prober.

(** [fails fn s failures s']: from the state [s], consecutive calls of [fn]
    all reject with an [Error]; each entry of [failures] is the events of one
    call and the message of its error; [s'] is the state they leave. *)
Inductive fails {A : Type} (fn : M A)
  : Stats.t -> list (list Event * string) -> Stats.t -> Prop :=
| fails_nil s : fails fn s [] s
| fails_cons s tr message s1 failures s' :
    runs (fn s) tr (Threw (JsError message), s1) ->
    fails fn s1 failures s' ->
    fails fn s ((tr, message) :: failures) s'.

(** The events of the failed attempts from the loop index [i] on, with the
    delay of [1000 * (i + 1)] milliseconds that follows a failed attempt
    unless it was the last one allowed. *)
Fixpoint retry_trace (times i : Z) (failures : list (list Event * string)) : list Event :=
  match failures with
  | [] => []
  | (tr, _) :: rest =>
      tr ++ (if i <? times - 1 then [Ev (SetTimeout (1000 * (i + 1))) tt] else [])
         ++ retry_trace times (i + 1) rest
  end.

(** The value of [lastError] after the failed attempts. *)
Fixpoint last_error (lastError : Thrown) (failures : list (list Event * string)) : Thrown :=
  match failures with
  | [] => lastError
  | (_, message) :: rest => last_error (JsError message) rest
  end.

Lemma retry_loop_fails {A : Type} (fn : M A) (times : Z) (rounds : nat) :
  forall failures s s1, fails fn s failures s1 ->
  forall i lastError tr r,
  runs (retry_loop fn times rounds (i + Z.of_nat (List.length failures))
          (last_error lastError failures) s1) tr r ->
  runs (retry_loop fn times (List.length failures + rounds) i lastError s)
       (retry_trace times i failures ++ tr) r.
Proof.
  induction 1 as [s|s tr0 message s1 failures s' Hfn Hrest IH]; intros i lastError tr r Hk.
  - simpl in *. now rewrite Z.add_0_r in Hk.
  - simpl List.length. simpl Nat.add. simpl retry_loop. apply runs_try_catch. right.
    exists tr0, (JsError message), s1.
    exists ((if i <? times - 1 then [Ev (SetTimeout (1000 * (i + 1))) tt] else [])
            ++ retry_trace times (i + 1) failures ++ tr).
    split; [exact Hfn|]. split.
    + apply runs_bind. left.
      exists (if i <? times - 1 then [Ev (SetTimeout (1000 * (i + 1))) tt] else []), tt, s1,
             (retry_trace times (i + 1) failures ++ tr).
      split; [|split; [|reflexivity]].
      * destruct (i <? times - 1).
        -- apply runs_bind. left. exists [], message, s1, [Ev (SetTimeout (1000 * (i + 1))) tt].
           split; [now apply runs_message_of|]. split; [|reflexivity].
           apply runs_call. now exists tt.
        -- now apply runs_ret.
      * apply IH. simpl last_error in Hk.
        replace (i + 1 + Z.of_nat (List.length failures))
          with (i + Z.of_nat (S (List.length failures))) by lia.
        exact Hk.
    + simpl retry_trace. now rewrite <- !app_assoc.
Qed.

(** C6.  For every probe function [fn] whose first N-1 calls reject, each
    with an [Error], and whose N-th call returns [result]: [withRetry(fn, N)]
    returns [result], after the N attempts with a delay of [1000 * k]
    milliseconds after the k-th failure; and [withRetry(fn, N - 1)] rejects
    with the error of attempt N-1 after N-1 attempts.  For N = 1 no attempt
    is made with N - 1 = 0 and the value thrown is [undefined]. *)
Theorem withRetry_first_success_at_N {A : Type} (fn : M A) (s s1 s2 : Stats.t)
    (failures : list (list Event * string)) (trN : list Event) (result : A) :
  let N := Z.of_nat (S (List.length failures)) in
  fails fn s failures s1 ->
  runs (fn s1) trN (Returned result, s2) ->
  runs (withRetry fn N s) (retry_trace N 0 failures ++ trN) (Returned result, s2) /\
  runs (withRetry fn (N - 1) s) (retry_trace (N - 1) 0 failures)
       (Threw (last_error JsUndefined failures), s1).
Proof.
  intros N Hfails Hok. split.
  - unfold withRetry, N. rewrite Nat2Z.id.
    replace (S (List.length failures)) with (List.length failures + 1)%nat at 2 by lia.
    apply retry_loop_fails with (s1 := s1); [exact Hfails|].
    simpl retry_loop. apply runs_try_catch. left. eauto.
  - unfold withRetry. replace (N - 1) with (Z.of_nat (List.length failures)) by (unfold N; lia).
    rewrite Nat2Z.id.
    replace (List.length failures) with (List.length failures + 0)%nat at 2 by lia.
    rewrite <- (app_nil_r (retry_trace _ 0 failures)).
    apply retry_loop_fails with (s1 := s1); [exact Hfails|].
    simpl. auto.
Qed.

(** A probe function for the examples: one call of the tool. *)
Definition probe_once : M string := await (Exec "ffprobe" 0).

Lemma withRetry_first_success_at_N_witness :
  runs (withRetry probe_once 2 fresh_stats)
       [Ev (Exec "ffprobe" 0) (inl "busy"); Ev (SetTimeout 1000) tt;
        Ev (Exec "ffprobe" 0) (inr "{}")]
       (Returned "{}", fresh_stats) /\
  runs (withRetry probe_once 1 fresh_stats)
       [Ev (Exec "ffprobe" 0) (inl "busy")]
       (Threw (JsError "busy"), fresh_stats).
Proof.
  apply (withRetry_first_success_at_N probe_once fresh_stats fresh_stats fresh_stats
           [([Ev (Exec "ffprobe" 0) (inl "busy")], "busy")]
           [Ev (Exec "ffprobe" 0) (inr "{}")] "{}").
  - eapply fails_cons; [|apply fails_nil].
    apply runs_await. now exists (inl "busy").
  - apply runs_await. now exists (inr "{}").
Defined.

End RetryProps.

(* ================================================================= *)
(** ** Properties of the cache statistics *)

Module ProbeCacheProps.
Import ProbeCache.

Definition default_config : ScanConfig.t :=
  ScanConfig.mk "normal" false true 604800 10000 false 30000 3 None None None None.

(** C8 as stated fails: the hit rate reported is not the ratio
    [hits / (hits + misses)] but a text, the percentage with one decimal and
    a percent sign.  After one hit and one miss it is ["50.0%"], not [0.5];
    before any lookup it is ["0.0%"]. *)
Lemma hitRate_is_percentage_text :
  hitRate (stats_report default_config (Stats.mk 1 1 0) 2) = "50.0%" /\
  hitRate (stats_report default_config (Stats.mk 1 1 0) 2) <> "0.5".
Proof. split; [vm_compute; reflexivity|vm_compute; discriminate]. Qed.

(** C8 (amended).  [getStats] makes one call, for the size of the cache, and
    returns the counters [hits], [misses] and [errors], that size as [size],
    [PROBE_CACHE_SIZE] as [maxSize], and as [hitRate] a text that ends with a
    percent sign: ["0.0%"] when no lookup was counted yet, and otherwise
    [(hits / (hits + misses)) * 100], computed on doubles, printed by
    [toFixed(1)].  The counters are not changed. *)
Theorem getStats_reports_percentage config stats tr r :
  runs (getStats config stats) tr r ->
  exists cacheSize report,
    tr = [Ev Lru_size cacheSize] /\
    r = (Returned report, stats) /\
    hits report = Stats.hits stats /\
    misses report = Stats.misses stats /\
    errors report = Stats.errors stats /\
    size report = cacheSize /\
    maxSize report = ScanConfig.PROBE_CACHE_SIZE config /\
    ((Stats.hits stats + Stats.misses stats = 0)%N -> hitRate report = "0.0%") /\
    ((Stats.hits stats + Stats.misses stats <> 0)%N ->
     hitRate report =
     (toFixed1 (PrimFloat.mul
                  (PrimFloat.div (number_of_N (Stats.hits stats))
                                 (number_of_N (Stats.hits stats + Stats.misses stats)))
                  (number_of_N 100)) ++ "%")%string).
Proof.
  intros H. unfold getStats in H.
  apply runs_bind in H. destruct H as [(tr1 & a & s1 & tr2 & H1 & H2 & ->)|(t & s1 & H1 & _)];
    [|destruct H1 as [_ H1]; discriminate].
  destruct H1 as [-> H1]. inversion H1; subst a s1. clear H1.
  apply runs_bind in H2. destruct H2 as [(tr1 & a & s1 & tr3 & H1 & H2 & ->)|(t & s1 & H1 & _)].
  - apply runs_call in H1. destruct H1 as (x & -> & H1). inversion H1; subst a s1. clear H1.
    apply runs_ret in H2. destruct H2 as [-> ->].
    exists x, (stats_report config stats x). simpl.
    repeat (split; [reflexivity|]). unfold getHitRate. split.
    + intros ->. reflexivity.
    + intros Hne. apply N.eqb_neq in Hne. now rewrite Hne.
  - apply runs_call in H1. destruct H1 as (x & _ & H1). discriminate.
Qed.

Lemma getStats_reports_percentage_witness :
  exists report,
    runs (getStats default_config fresh_stats) [Ev Lru_size 0]
         (Returned report, fresh_stats) /\
    hitRate report = "0.0%".
Proof.
  assert (H : runs (getStats default_config fresh_stats) [Ev Lru_size 0]
                   (Returned (stats_report default_config fresh_stats 0), fresh_stats)).
  { simpl. exists 0, []. auto. }
  destruct (getStats_reports_percentage default_config fresh_stats _ _ H)
    as (cacheSize & report & _ & Hr & _ & _ & _ & _ & _ & Hzero & _).
  exists report. split.
  - inversion Hr. exact H.
  - apply Hzero. reflexivity.
Defined.

End ProbeCacheProps.

(* ================================================================= *)
(** ** Properties of [doProbe] *)

Module NodeFfprobeProps.
Import NodeFfprobe.

(** An event of the child process that is neither ['error'] nor ['close']. *)
Definition quiet (ev : ProcEvent) : bool :=
  match ev with
  | StdoutData _ | StderrData _ | Exit _ => true
  | ProcError _ | Close => false
  end.

Definition stdout_chunks (events : list ProcEvent) : list string :=
  flat_map (fun ev => match ev with StdoutData d => [d] | _ => [] end) events.

Definition stderr_chunks (events : list ProcEvent) : list string :=
  flat_map (fun ev => match ev with StderrData d => [d] | _ => [] end) events.

(** The code of the last ['exit'] event, [code0] without one. *)
Definition last_exit (code0 : option Z) (events : list ProcEvent) : option Z :=
  fold_left (fun code ev => match ev with Exit c => c | _ => code end) events code0.

Lemma on_events_quiet pre : forall st rest,
  forallb quiet pre = true ->
  on_events st (pre ++ rest) =
  on_events (mkProcState (probeData st ++ stdout_chunks pre)
                         (errData st ++ stderr_chunks pre)
                         (last_exit (exitCode st) pre)
                         (promise st)) rest.
Proof.
  induction pre as [|ev pre IH]; intros st rest Hq; simpl.
  - rewrite !app_nil_r. now destruct st.
  - simpl in Hq. apply andb_true_iff in Hq. destruct Hq as [Hev Hq].
    destruct ev; try discriminate; simpl; rewrite IH by exact Hq; simpl;
      rewrite <- ?app_assoc; reflexivity.
Qed.

(** A settled promise stays as it is. *)
Lemma settled_stays events : forall st tr st' o,
  promise st = Some o -> runs (on_events st events) tr st' -> promise st' = Some o.
Proof.
  induction events as [|ev events IH]; intros st tr st' o Hp H; simpl in H.
  - destruct H as [_ ->]. exact Hp.
  - apply runs_bindP in H. destruct H as (tr1 & st1 & tr2 & H1 & H2 & _).
    apply (IH st1 tr2); [|exact H2]. clear IH H2.
    assert (Hs : forall x, promise (settle x st) = Some o)
      by (intros x; unfold settle; now rewrite Hp).
    destruct ev; simpl in H1.
    + destruct H1 as [_ ->]. exact Hp.
    + destruct H1 as [_ ->]. exact Hp.
    + destruct H1 as [_ ->]. exact Hp.
    + destruct H1 as [_ ->]. apply Hs.
    + destruct (_ && _).
      * destruct H1 as [_ ->]. apply Hs.
      * destruct H1 as (x & tr' & _ & H1). destruct x; destruct H1 as [_ ->]; apply Hs.
Qed.

(** C5 as stated fails: a run of the tool that exits with code 1, prints
    nothing on stderr and prints parseable JSON on stdout resolves. *)
Lemma nonzero_exit_without_stderr_resolves :
  runs (doProbe None "book.mp3" NoOptions)
       [Ev (Spawn "ffprobe" (build_args "book.mp3" NoOptions))
           [StdoutData "{}"; Exit (Some 1); Close];
        Ev (JSON_parse "{}") (inr (Raw.JsonObject Raw.empty_data))]
       (Some (Returned (Raw.JsonObject Raw.empty_data))).
Proof.
  simpl. do 2 eexists. split; [reflexivity|]. do 2 eexists. split; [reflexivity|].
  simpl. auto.
Qed.

(** C5 (amended).  For every run of [doProbe] in which the child process
    emits ['close'] and no ['error'] before it: when the last exit code is
    not 0 and something was printed on stderr, the promise rejects with the
    exit code and the stderr text, and stdout is not parsed; otherwise (exit
    code 0, or nothing on stderr) the text printed on stdout is given to
    [JSON.parse], and the promise resolves with the parsed result when it is
    parseable and rejects when it is not. *)
Theorem doProbe_settles path file options tr res pre post :
  runs (doProbe path file options) tr res ->
  observe spawned tr = [pre ++ Close :: post] ->
  forallb quiet pre = true ->
  let code := last_exit None pre in
  let failed := match code with Some 0 => false | _ => true end
                && negb (Nat.eqb (List.length (stderr_chunks pre)) 0) in
  (failed = true ->
     res = Some (Threw (JsError ("ffprobe exited with code " ++ code_text code ++ ": "
                                 ++ String.concat "" (stderr_chunks pre))%string)) /\
     (post = [] -> parse_answers tr = [])) /\
  (failed = false ->
     exists answer,
       hd_error (parse_answers tr) = Some (String.concat "" (stdout_chunks pre), answer) /\
       res = Some (match answer with
                   | inr result => Returned result
                   | inl message =>
                       Threw (JsError ("Failed to parse ffprobe output: " ++ message)%string)
                   end)).
Proof.
  intros H Hsp Hq. simpl in H. destruct H as (events & tr' & -> & H).
  simpl in Hsp. inversion Hsp as [[Hev Hobs]]. subst events. clear Hsp.
  unfold after_spawn in H. apply runs_bindP in H.
  destruct H as (tr1 & st & tr2 & H1 & [-> ->] & ->). rewrite app_nil_r.
  rewrite on_events_quiet in H1 by exact Hq. simpl in H1.
  apply runs_bindP in H1. destruct H1 as (tr3 & st1 & tr4 & H1 & H2 & ->).
  cbn zeta. simpl in H1.
  destruct (match last_exit None pre with Some 0 => false | _ => true end
            && negb (Nat.eqb (List.length (stderr_chunks pre)) 0)) eqn:Hfailed.
  - split; [|discriminate]. intros _. destruct H1 as [-> ->]. split.
    + eapply settled_stays; [|exact H2]. reflexivity.
    + intros ->. simpl in H2. destruct H2 as [-> _]. reflexivity.
  - split; [discriminate|]. intros _.
    destruct H1 as (answer & tr5 & -> & H1). exists answer. split; [reflexivity|].
    eapply settled_stays; [|exact H2].
    destruct answer; destruct H1 as [_ ->]; reflexivity.
Qed.

(** A run of the tool that prints [{}] and exits with code 0. *)
Definition clean_exit_run : list Event :=
  [Ev (Spawn "ffprobe" (build_args "book.mp3" NoOptions))
      [StdoutData "{}"; Exit (Some 0); Close];
   Ev (JSON_parse "{}") (inr (Raw.JsonObject Raw.empty_data))].

Lemma doProbe_settles_witness :
  exists answer,
    hd_error (parse_answers clean_exit_run) = Some ("{}", answer) /\
    Some (Returned (Raw.JsonObject Raw.empty_data))
    = Some (match answer with
            | inr result => Returned result
            | inl message =>
                Threw (JsError ("Failed to parse ffprobe output: " ++ message)%string)
            end).
Proof.
  refine (proj2 (doProbe_settles None "book.mp3" NoOptions clean_exit_run
                   (Some (Returned (Raw.JsonObject Raw.empty_data)))
                   [StdoutData "{}"; Exit (Some 0)] [] _ _ _) _).
  - simpl. do 2 eexists. split; [reflexivity|]. do 2 eexists. split; [reflexivity|].
    simpl. auto.
  - reflexivity.
  - reflexivity.
  - reflexivity.
Defined.

End NodeFfprobeProps.

(* ================================================================= *)
(** ** What the runs of the cache and of the probers show *)

Lemma observe_app {B : Type} (f : Event -> option B) (tr1 tr2 : list Event) :
  observe f (tr1 ++ tr2) = observe f tr1 ++ observe f tr2.
Proof.
  induction tr1 as [|ev tr1 IH]; simpl; [reflexivity|].
  destruct (f ev); simpl; now rewrite IH.
Qed.

(** A run without any of the observed events. *)
Definition silent (tr : list Event) : Prop :=
  lru_sets tr = [] /\ lru_hits tr = [] /\ parse_answers tr = [] /\
  tool_runs tr = 0%nat /\ unlinks tr = [].

Lemma silent_nil : silent [].
Proof. repeat split. Qed.

Lemma silent_app tr1 tr2 : silent tr1 -> silent tr2 -> silent (tr1 ++ tr2).
Proof.
  unfold silent, lru_sets, lru_hits, parse_answers, tool_runs, unlinks.
  intros (A1 & A2 & A3 & A4 & A5) (B1 & B2 & B3 & B4 & B5).
  rewrite !observe_app, length_app, A1, A2, A3, A4, A5, B1, B2, B3, B4, B5.
  repeat split.
Qed.

Ltac destruct_scrutinee x :=
  lazymatch x with
  | match ?y with _ => _ end => destruct_scrutinee y
  | _ => destruct x eqn:?
  end.

(** Inversion of a run along the structure of the program. *)
Ltac inv_runs :=
  repeat (cbv beta in *;
    match goal with
    | H : runs (bind _ _ _) _ _ |- _ =>
        apply runs_bind in H;
        let tr1 := fresh "tr" in let a := fresh "a" in let s1 := fresh "s" in
        let tr2 := fresh "tr" in let H2 := fresh "H" in let E := fresh "E" in
        let t := fresh "t" in
        destruct H as [(tr1 & a & s1 & tr2 & H & H2 & E)|(t & s1 & H & E)]
    | H : runs (try_catch _ _ _) _ _ |- _ =>
        apply runs_try_catch in H;
        let tr1 := fresh "tr" in let a := fresh "a" in let s1 := fresh "s" in
        let tr2 := fresh "tr" in let H2 := fresh "H" in let E := fresh "E" in
        let t := fresh "t" in
        destruct H as [(a & s1 & H & E)|(tr1 & t & s1 & tr2 & H & H2 & E)]
    | H : runs (try_finally _ _ _) _ _ |- _ =>
        apply runs_try_finally in H;
        let tr1 := fresh "tr" in let o := fresh "o" in let s1 := fresh "s" in
        let tr2 := fresh "tr" in let oc := fresh "oc" in let s2 := fresh "s" in
        let H2 := fresh "H" in let E := fresh "E" in let E2 := fresh "E" in
        destruct H as (tr1 & o & s1 & tr2 & oc & s2 & H & H2 & E & E2)
    | H : runs (attempt _ _) _ _ |- _ =>
        apply runs_attempt in H;
        let o := fresh "o" in let s1 := fresh "s" in let E := fresh "E" in
        destruct H as (o & s1 & H & E)
    | H : runs (ret _ _) _ _ |- _ =>
        apply runs_ret in H; let E := fresh "E" in destruct H as [? E]
    | H : runs (throw _ _) _ _ |- _ =>
        apply runs_throw in H; let E := fresh "E" in destruct H as [? E]
    | H : runs (lift _ _) _ _ |- _ =>
        apply runs_lift in H; let E := fresh "E" in destruct H as [? E]
    | H : runs (modify _ _) _ _ |- _ =>
        apply runs_modify in H; let E := fresh "E" in destruct H as [? E]
    | H : runs (message_of _ _) _ _ |- _ =>
        apply runs_message_of in H; let E := fresh "E" in destruct H as [? E]
    | H : runs (call _ _) _ _ |- _ =>
        apply runs_call in H;
        let x := fresh "x" in let E := fresh "E" in destruct H as (x & ? & E)
    | H : runs (await _ _) _ _ |- _ =>
        apply runs_await in H;
        let x := fresh "x" in let E := fresh "E" in destruct H as (x & ? & E)
    | H : (_, _) = (_, _) |- _ => inversion H; clear H
    | H : Returned _ = Returned _ |- _ => inversion H; clear H
    | H : Threw _ = Threw _ |- _ => inversion H; clear H
    | H : Returned _ = Threw _ |- _ => discriminate H
    | H : Threw _ = Returned _ |- _ => discriminate H
    | H : Returned _ = match ?x with _ => _ end |- _ => destruct_scrutinee x
    | H : Threw _ = match ?x with _ => _ end |- _ => destruct_scrutinee x
    | H : match ?x with _ => _ end = Returned _ |- _ => destruct_scrutinee x
    | H : match ?x with _ => _ end = Threw _ |- _ => destruct_scrutinee x
    | H : runs (match ?x with _ => _ end _) _ _ |- _ => destruct_scrutinee x
    end; subst).

Ltac solve_silent :=
  repeat first [ assumption
               | apply silent_nil
               | apply silent_app
               | (repeat split; reflexivity) ].

Module CacheRuns.
Import ProbeCache.

Lemma getFileSize_spec filePath s tr r :
  runs (getFileSize filePath s) tr r ->
  exists n, r = (Returned n, s) /\ silent tr.
Proof.
  unfold getFileSize. intros H. inv_runs; eexists; split; try reflexivity; solve_silent.
Qed.

Lemma getFileHash_spec filePath s tr r :
  runs (getFileHash filePath s) tr r ->
  exists h s', r = (Returned h, s') /\ silent tr.
Proof.
  unfold getFileHash. intros H. inv_runs;
    repeat match goal with
           | H : runs (getFileSize _ _) _ _ |- _ =>
               apply getFileSize_spec in H; destruct H as (? & ? & ?)
           end; inv_runs;
    do 2 eexists; (split; [reflexivity|]); solve_silent.
Qed.

Lemma getCacheKey_spec filePath fileSize s tr r :
  runs (getCacheKey filePath fileSize s) tr r ->
  exists key s', r = (Returned key, s') /\ silent tr.
Proof.
  unfold getCacheKey. intros H. inv_runs;
    repeat match goal with
           | H : runs (getFileHash _ _) _ _ |- _ =>
               apply getFileHash_spec in H; destruct H as (? & ? & ? & ?)
           end; inv_runs;
    do 2 eexists; (split; [reflexivity|]); solve_silent.
Qed.

Ltac cache_specs :=
  repeat match goal with
         | H : runs (getFileSize _ _) _ _ |- _ =>
             apply getFileSize_spec in H; destruct H as (? & ? & ?)
         | H : runs (getCacheKey _ _ _) _ _ |- _ =>
             apply getCacheKey_spec in H; destruct H as (? & ? & ? & ?)
         end.

(** [get] never throws, starts no tool, parses and unlinks nothing, puts
    nothing in the cache, and what it returns is what [cache.get] found. *)
Lemma get_spec config filePath s tr r :
  runs (get config filePath s) tr r ->
  exists value s',
    r = (Returned value, s') /\
    lru_sets tr = [] /\ parse_answers tr = [] /\ tool_runs tr = 0%nat /\ unlinks tr = [] /\
    lru_hits tr = match value with Some v => [v] | None => [] end.
Proof.
  unfold get. intros H. inv_runs; cache_specs; inv_runs;
    do 2 eexists; (split; [reflexivity|]);
    repeat match goal with H : silent _ |- _ => destruct H as (? & ? & ? & ? & ?) end;
    unfold lru_sets, lru_hits, parse_answers, tool_runs, unlinks in *;
    rewrite ?observe_app, ?length_app; simpl;
    repeat match goal with H : observe _ _ = [] |- _ => rewrite H end;
    repeat match goal with H : List.length (observe _ _) = 0%nat |- _ => rewrite H end;
    simpl; repeat split; reflexivity.
Qed.

(** [set] never throws and puts at most the given value in the cache. *)
Lemma set_spec config filePath probeData s tr r :
  runs (set config filePath probeData s) tr r ->
  exists done s',
    r = (Returned done, s') /\
    lru_hits tr = [] /\ parse_answers tr = [] /\ tool_runs tr = 0%nat /\ unlinks tr = [] /\
    lru_sets tr = (if done then [probeData] else []).
Proof.
  unfold set. intros H. inv_runs; cache_specs; inv_runs;
    do 2 eexists; (split; [reflexivity|]);
    repeat match goal with H : silent _ |- _ => destruct H as (? & ? & ? & ? & ?) end;
    unfold lru_sets, lru_hits, parse_answers, tool_runs, unlinks in *;
    rewrite ?observe_app, ?length_app; simpl;
    repeat match goal with H : observe _ _ = [] |- _ => rewrite H end;
    repeat match goal with H : List.length (observe _ _) = 0%nat |- _ => rewrite H end;
    simpl; repeat split; reflexivity.
Qed.

End CacheRuns.

Ltac observe_simpl :=
  repeat match goal with H : silent _ |- _ => destruct H as (? & ? & ? & ? & ?) end;
  unfold lru_sets, lru_hits, parse_answers, tool_runs, unlinks in *;
  rewrite ?observe_app, ?length_app; simpl;
  repeat match goal with H : observe _ _ = _ |- _ => rewrite H end;
  repeat match goal with H : List.length (observe _ _) = _ |- _ => rewrite H end;
  simpl.

(** An outcome that is not a thrown [undefined]. *)
Definition proper {A : Type} (o : Outcome A) : Prop :=
  match o with
  | Threw JsUndefined => False
  | _ => True
  end.

Module ProberRuns.
Import Prober.

Lemma transformMinimalData_proper data : proper (transformMinimalData data).
Proof. destruct data; simpl; exact I. Qed.

Lemma transformFullData_proper data : proper (transformFullData data).
Proof. destruct data; simpl; exact I. Qed.

(** One attempt: the tool is started once, the state and the cache are left
    alone, and a failure is an [Error]. *)
Definition one_attempt {A : Type} (s : Stats.t) (tr : list Event) (r : Outcome A * Stats.t)
  : Prop :=
  snd r = s /\ proper (fst r) /\
  lru_sets tr = [] /\ lru_hits tr = [] /\ unlinks tr = [] /\ tool_runs tr = 1%nat.

Lemma probeMinimal_spec filepath s tr r :
  runs (probeMinimal filepath s) tr r -> one_attempt s tr r.
Proof.
  unfold probeMinimal, one_attempt. intros H. inv_runs;
    try match goal with
        | H : _ = transformMinimalData ?d |- _ =>
            pose proof (transformMinimalData_proper d) as Hp; rewrite <- H in Hp;
            try contradiction
        end;
    simpl; observe_simpl; repeat split; auto.
Qed.

Lemma probeFull_spec filepath s tr r :
  runs (probeFull filepath s) tr r -> one_attempt s tr r.
Proof.
  unfold probeFull, one_attempt. intros H. inv_runs;
    try match goal with
        | H : _ = transformFullData ?d |- _ =>
            pose proof (transformFullData_proper d) as Hp; rewrite <- H in Hp;
            try contradiction
        end;
    simpl; observe_simpl; repeat split; auto.
Qed.

(** What the retry wrapper keeps of its attempts.  [sure] says that an
    attempt is made or [lastError] is an [Error]. *)
Definition retried {A : Type} (sure : Prop) (s : Stats.t) (tr : list Event)
    (r : Outcome A * Stats.t) : Prop :=
  snd r = s /\ (sure -> proper (fst r)) /\
  lru_sets tr = [] /\ lru_hits tr = [] /\ unlinks tr = [].

Lemma retry_loop_spec {A : Type} (fn : M A) (times : Z) :
  (forall s tr r, runs (fn s) tr r -> one_attempt s tr r) ->
  forall rounds i lastError s tr r,
  runs (retry_loop fn times rounds i lastError s) tr r ->
  retried (rounds = 0%nat -> lastError <> JsUndefined) s tr r /\
  (tool_runs tr <= rounds)%nat.
Proof.
  intros Hfn. induction rounds as [|rounds IH]; intros i lastError s tr r H.
  - cbn [retry_loop] in H. inv_runs. unfold retried. simpl.
    repeat split; auto. intros Hlast.
    destruct lastError; [exact I|now specialize (Hlast eq_refl)].
  - cbn [retry_loop] in H. inv_runs;
      repeat match goal with
             | H : runs (fn _) _ _ |- _ =>
                 apply Hfn in H; destruct H as (? & ? & ? & ? & ? & ?)
             end; simpl in *; subst;
      repeat match goal with
             | H : match ?t with JsError _ => True | JsUndefined => False end |- _ =>
                 destruct t; [clear H|contradiction]
             end;
      try match goal with
          | H : runs (retry_loop _ _ _ _ ?e _) _ _ |- _ =>
              apply IH in H; destruct H as ((? & Hsure & ? & ? & ?) & ?)
          end;
      try contradiction;
      unfold retried; simpl; observe_simpl; repeat split; auto; try lia;
      try (intros _; apply Hsure; intros _; discriminate).
Qed.

Lemma withRetry_spec {A : Type} (fn : M A) (times : Z) s tr r :
  (forall s tr r, runs (fn s) tr r -> one_attempt s tr r) ->
  runs (withRetry fn times s) tr r -> retried (1 <= times) s tr r.
Proof.
  intros Hfn H. unfold withRetry in H.
  apply (retry_loop_spec fn times Hfn) in H. destruct H as [(? & Hsure & ?) _].
  split; [assumption|]. split; [|assumption].
  intros Ht. apply Hsure. lia.
Qed.

Lemma withTimeout_spec {A : Type} (sure : Prop) (promise : M A) (timeout : Z) s tr r :
  (forall tr r, runs (promise s) tr r -> retried sure s tr r) ->
  runs (withTimeout promise timeout s) tr r -> retried sure s tr r.
Proof.
  intros Hp H. unfold withTimeout in H. apply runs_bindP in H.
  destruct H as (tr1 & r1 & tr2 & H1 & H2 & ->).
  apply Hp in H1. destruct H1 as (? & ? & ? & ? & ?).
  simpl in H2. destruct H2 as (fired & tr' & -> & H2).
  destruct fired; destruct H2 as [-> ->]; unfold retried; simpl;
    observe_simpl; repeat split; auto.
Qed.

Lemma protected_spec config filepath s tr r :
  runs (withTimeout
          (withRetry (if ScanConfig.shouldUseMinimalProbe config
                      then probeMinimal filepath else probeFull filepath)
                     (ScanConfig.PROBE_RETRY_TIMES config))
          (ScanConfig.PROBE_TIMEOUT config) s) tr r ->
  retried (1 <= ScanConfig.PROBE_RETRY_TIMES config) s tr r.
Proof.
  apply withTimeout_spec. intros tr' r'. apply withRetry_spec.
  destruct (ScanConfig.shouldUseMinimalProbe config);
    [apply probeMinimal_spec|apply probeFull_spec].
Qed.

(** The three ways a call of [probe] ends: with the value found in the
    cache; with an error object and nothing put in the cache; with the data
    of the probe, the only value that may have been put in the cache. *)
Definition probe_ends (tr : list Event) (result : ProbeResult) : Prop :=
  (lru_hits tr = [result] /\ lru_sets tr = [] /\ tool_runs tr = 0%nat) \/
  (lru_hits tr = [] /\ is_error result = true /\ lru_sets tr = []) \/
  (lru_hits tr = [] /\ is_error result = false /\
   (lru_sets tr = [] \/ lru_sets tr = [result])).

(** A call of the first [probe] ends in one of these ways, or, when
    [PROBE_RETRY_TIMES] is below 1, throws with nothing put in the cache. *)
Lemma probe_spec config filepath s tr r :
  runs (probe config filepath s) tr r ->
  exists o s', r = (o, s') /\ unlinks tr = [] /\
    match o with
    | Returned result => probe_ends tr result
    | Threw _ => lru_sets tr = [] /\ ~ 1 <= ScanConfig.PROBE_RETRY_TIMES config
    end.
Proof.
  intros H. unfold probe in H. cbv zeta in H. inv_runs;
    repeat match goal with
           | H : runs (ProbeCache.get _ _ _) _ _ |- _ =>
               apply CacheRuns.get_spec in H;
               destruct H as (? & ? & ? & ? & ? & ? & ? & ?)
           | H : runs (ProbeCache.set _ _ _ _) _ _ |- _ =>
               apply CacheRuns.set_spec in H;
               destruct H as (? & ? & ? & ? & ? & ? & ? & ?)
           | H : runs (withTimeout _ _ _) _ _ |- _ =>
               apply (protected_spec config filepath) in H;
               destruct H as (? & ? & ? & ? & ?)
           end; simpl in *; inv_runs; try discriminate;
    do 2 eexists; (split; [reflexivity|]); unfold probe_ends;
    observe_simpl; (split; [reflexivity|]);
    first [ left; repeat split; reflexivity
          | right; left; repeat split; reflexivity
          | right; right; repeat split; try reflexivity;
            match goal with |- context [if ?b then _ else _] => destruct b end; auto
          | split; [reflexivity|]; tauto ].
Qed.

End ProberRuns.

Module PartialProberRuns.
Import PartialProber.

Lemma ensureTempDir_spec this s tr r :
  runs (ensureTempDir this s) tr r -> r = (Returned tt, s) /\ silent tr.
Proof.
  unfold ensureTempDir. intros H. inv_runs;
    repeat match goal with u : unit |- _ => destruct u end;
    (split; [reflexivity|]); solve_silent.
Qed.

Lemma readPartialFile_spec this filePath maxBytes s tr r :
  runs (readPartialFile this filePath maxBytes s) tr r ->
  exists o, r = (o, s) /\ proper o /\ silent tr.
Proof.
  unfold readPartialFile. intros H. inv_runs;
    repeat match goal with
           | H : runs (ensureTempDir _ _) _ _ |- _ =>
               apply ensureTempDir_spec in H; destruct H as (? & ?)
           end; inv_runs;
    eexists; (split; [reflexivity|]); (split; [exact I|]); solve_silent.
Qed.

Lemma partial_read_spec this config filePath s tr r :
  runs (partial_read this config filePath s) tr r ->
  exists tempFile, r = (Returned tempFile, s) /\ silent tr.
Proof.
  unfold partial_read. intros H. inv_runs;
    repeat match goal with
           | H : runs (readPartialFile _ _ _ _) _ _ |- _ =>
               apply readPartialFile_spec in H; destruct H as (? & ? & ? & ?)
           end; inv_runs; simpl in *; try contradiction;
    eexists; (split; [reflexivity|]); solve_silent.
Qed.

(** Every run of [cleanupTempFile] returns, leaves the state alone, and
    makes no call, or the one call that unlinks the path given, which is then
    not empty and contains [TempProbeDir]. *)
Lemma cleanupTempFile_spec this tempFile s tr r :
  runs (cleanupTempFile this tempFile s) tr r ->
  r = (Returned tt, s) /\
  (tr = [] \/
   exists file answer,
     tempFile = Some file /\ file <> "" /\ includes file (TempProbeDir this) = true /\
     tr = [Ev (Fs_unlink file) answer]).
Proof.
  unfold cleanupTempFile. intros H. inv_runs;
    repeat match goal with u : unit |- _ => destruct u end;
    (split; [reflexivity|]); simpl; auto;
    right; do 2 eexists;
    match goal with
    | H : _ && _ = true |- _ =>
        apply andb_true_iff in H; destruct H as [Hne Hinc];
        apply negb_true_iff in Hne; apply String.eqb_neq in Hne
    end; repeat split; eauto.
Qed.

(** The outcome of [runFFProbe] from the answer of [JSON.parse]. *)
Definition parsed_outcome (config : ScanConfig.t) (answer : string + Raw.Json)
  : Outcome ProbeData :=
  match answer with
  | inl message => Threw (JsError ("FFProbe failed: " ++ message)%string)
  | inr rawProbeData =>
      match parseProbeData config rawProbeData with
      | Returned data => Returned data
      | Threw (JsError message) => Threw (JsError ("FFProbe failed: " ++ message)%string)
      | Threw JsUndefined =>
          Threw (JsError "Cannot read properties of undefined (reading 'message')")
      end
  end.

(** [runFFProbe] starts the tool once; when the tool fails nothing is
    parsed, and otherwise its output is parsed once and decides the
    outcome. *)
Lemma runFFProbe_spec this config filePath s tr r :
  runs (runFFProbe this config filePath s) tr r ->
  exists o, r = (o, s) /\ proper o /\
    lru_sets tr = [] /\ lru_hits tr = [] /\ unlinks tr = [] /\ tool_runs tr = 1%nat /\
    ((parse_answers tr = [] /\ exists message, o = Threw (JsError message)) \/
     (exists text answer, parse_answers tr = [(text, answer)]
                          /\ o = parsed_outcome config answer)).
Proof.
  unfold runFFProbe. cbv zeta. intros H. inv_runs;
    eexists; (split; [reflexivity|]); simpl; observe_simpl;
    (split; [exact I|]); repeat (split; [reflexivity|]);
    first [ left; split; [reflexivity|]; eexists; reflexivity
          | right; do 2 eexists; split; [reflexivity|]; unfold parsed_outcome;
            repeat match goal with
                   | H : _ = parseProbeData _ _ |- _ => rewrite <- H
                   end; reflexivity ].
Qed.

(** What [probe] makes of the outcome of [runFFProbe]. *)
Definition result_of (o : Outcome ProbeData) : ProbeResult :=
  match o with
  | Returned data => Parsed data
  | Threw (JsError message) => ErrorResult message
  | Threw JsUndefined =>
      ErrorResult "Cannot read properties of undefined (reading 'message')"
  end.

(** How the tool and the parser decide the result of a call that did not
    end with a value of the cache. *)
Definition probed (config : ScanConfig.t) (tr : list Event) (result : ProbeResult) : Prop :=
  tool_runs tr = 1%nat /\
  ((parse_answers tr = [] /\ is_error result = true) \/
   (exists text answer, parse_answers tr = [(text, answer)]
                        /\ result = result_of (parsed_outcome config answer))).

Lemma probe_try_spec this config filePath tempFile s tr r :
  runs (probe_try this config filePath tempFile s) tr r ->
  exists result s',
    r = (Returned result, s') /\ unlinks tr = [] /\ lru_hits tr = [] /\
    probed config tr result /\
    (lru_sets tr = [] \/ (is_error result = false /\ lru_sets tr = [result])).
Proof.
  unfold probe_try, probe_target, probe_catch. cbv zeta. intros H. inv_runs;
    repeat match goal with
           | H : runs (runFFProbe _ _ _ _) _ _ |- _ =>
               apply runFFProbe_spec in H;
               destruct H as (? & ? & ? & ? & ? & ? & ? & [(? & ? & ?)|(? & ? & ? & ?)])
           | H : runs (ProbeCache.set _ _ _ _) _ _ |- _ =>
               apply CacheRuns.set_spec in H;
               destruct H as (? & ? & ? & ? & ? & ? & ? & ?)
           end; simpl in *; inv_runs; try contradiction; try discriminate;
    repeat match goal with
           | H : Returned _ = parsed_outcome _ _ |- _ => symmetry in H
           | H : Threw _ = parsed_outcome _ _ |- _ => symmetry in H
           end;
    try match goal with
        | H : parsed_outcome _ _ = _, H0 : proper (parsed_outcome _ _) |- _ =>
            rewrite H in H0; simpl in H0
        end; try contradiction;
    do 2 eexists; (split; [reflexivity|]); unfold probed; observe_simpl;
    repeat (split; [reflexivity|]);
    (split;
     [ split; [reflexivity|];
       first [ left; split; reflexivity
             | right; do 2 eexists; split; [reflexivity|];
               match goal with H : parsed_outcome _ _ = _ |- _ => rewrite H end;
               reflexivity ]
     | try match goal with
           | |- context [if ?b then _ else _] => destruct b
           end; simpl;
       first [ left; reflexivity | right; split; reflexivity ] ]).
Qed.

(** Every call of the second [probe] returns a result: the value found in
    the cache, without starting the tool; or the result of one run of the
    tool, which is put in the cache only when it is not an error object.
    Every path unlinked contains [TempProbeDir]. *)
Lemma partial_probe_spec this config filePath s tr r :
  runs (probe this config filePath s) tr r ->
  exists result s',
    r = (Returned result, s') /\
    Forall (fun file => includes file (TempProbeDir this) = true) (unlinks tr) /\
    ((lru_hits tr = [result] /\ lru_sets tr = [] /\ tool_runs tr = 0%nat /\
      parse_answers tr = []) \/
     (lru_hits tr = [] /\ probed config tr result /\
      (lru_sets tr = [] \/ (is_error result = false /\ lru_sets tr = [result])))).
Proof.
  unfold probe. intros H. inv_runs;
    repeat match goal with
           | H : runs (ProbeCache.get _ _ _) _ _ |- _ =>
               apply CacheRuns.get_spec in H;
               destruct H as (? & ? & ? & ? & ? & ? & ? & ?)
           | H : runs (partial_read _ _ _ _) _ _ |- _ =>
               apply partial_read_spec in H; destruct H as (? & ? & ?)
           | H : runs (probe_try _ _ _ _ _) _ _ |- _ =>
               apply probe_try_spec in H;
               destruct H as (? & ? & ? & ? & ? & (? & ?) & ?)
           | H : runs (cleanupTempFile _ _ _) _ _ |- _ =>
               apply cleanupTempFile_spec in H;
               destruct H as (? & [?|(? & ? & ? & ? & ? & ?)])
           end; simpl in *; inv_runs; try contradiction; try discriminate;
    do 2 eexists; (split; [reflexivity|]); unfold probed in *; observe_simpl;
    (split; [repeat constructor; assumption|]);
    first [ left; repeat split; reflexivity
          | right; (split; [reflexivity|]); (split; [split; [reflexivity|]|]);
            rewrite ?app_nil_r; assumption ].
Qed.

End PartialProberRuns.

(* ================================================================= *)
(** ** Properties of the probers *)

Module ProbeProps.

Definition default_config : ScanConfig.t :=
  ScanConfig.mk "normal" false true 604800 10000 false 30000 3 None None None None.

Definition default_prober : PartialProber.t :=
  PartialProber.mk "ffprobe" "/tmp/abs-probe-cache".

(** *** Temporary files *)

(** [path] lies in the directory [dir]. *)
Definition inside_directory (dir path : string) : bool :=
  String.prefix (dir ++ "/") path.

(** C10 as stated fails: the test is on the text of the path, so a file
    that lies outside [TempProbeDir] is unlinked when its path contains the
    text of [TempProbeDir]. *)
Lemma cleanupTempFile_unlinks_outside_directory :
  inside_directory (PartialProber.TempProbeDir default_prober)
                   "/backup/tmp/abs-probe-cache/book.m4b" = false /\
  runs (PartialProber.cleanupTempFile default_prober
          (Some "/backup/tmp/abs-probe-cache/book.m4b") fresh_stats)
       [Ev (Fs_unlink "/backup/tmp/abs-probe-cache/book.m4b") (inr tt)]
       (Returned tt, fresh_stats).
Proof.
  split; [reflexivity|].
  unfold PartialProber.cleanupTempFile. apply runs_try_catch. left.
  exists tt, fresh_stats. split; [|reflexivity].
  cbv. exists (inr tt), []. split; [reflexivity|]. split; reflexivity.
Qed.

(** C10 (amended).  [cleanupTempFile] unlinks only the path it is given, and
    only when that path is not empty and contains the text of
    [TempProbeDir]: for every path that does not contain it, it makes no
    call at all.  Every run returns normally with the state unchanged,
    whatever [fs.unlink] answers; and for a path that contains
    [TempProbeDir] there is such a run for every answer, a failure
    included. *)
Theorem cleanupTempFile_unlinks_only_probe_paths this tempFile s :
  (forall tr r,
     runs (PartialProber.cleanupTempFile this tempFile s) tr r ->
     r = (Returned tt, s) /\
     (tr = [] \/
      exists file answer,
        tempFile = Some file /\ file <> "" /\
        includes file (PartialProber.TempProbeDir this) = true /\
        tr = [Ev (Fs_unlink file) answer]) /\
     (forall file, tempFile = Some file ->
        includes file (PartialProber.TempProbeDir this) = false -> tr = [])) /\
  (forall file answer,
     tempFile = Some file -> file <> "" ->
     includes file (PartialProber.TempProbeDir this) = true ->
     runs (PartialProber.cleanupTempFile this tempFile s)
          [Ev (Fs_unlink file) answer] (Returned tt, s)).
Proof.
  split.
  - intros tr r H. apply PartialProberRuns.cleanupTempFile_spec in H.
    destruct H as [-> H]. split; [reflexivity|]. split; [exact H|].
    intros file -> Hout. destruct H as [->|(f & answer & Hf & _ & Hin & _)]; [reflexivity|].
    inversion Hf; subst f. congruence.
  - intros file answer -> Hne Hin. unfold PartialProber.cleanupTempFile.
    apply String.eqb_neq in Hne. rewrite Hne, Hin. simpl negb. simpl andb.
    apply runs_try_catch. destruct answer as [message|[]].
    + right. exists [Ev (Fs_unlink file) (inl message)], (JsError message), s, [].
      split; [|split; [|reflexivity]].
      * apply runs_await. now exists (inl message).
      * now apply runs_ret.
    + left. exists tt, s. split; [|reflexivity].
      apply runs_await. now exists (inr tt).
Qed.

Lemma cleanupTempFile_unlinks_only_probe_paths_witness :
  runs (PartialProber.cleanupTempFile default_prober
          (Some "/tmp/abs-probe-cache/book.m4b_1700000000000.tmp") fresh_stats)
       [Ev (Fs_unlink "/tmp/abs-probe-cache/book.m4b_1700000000000.tmp")
           (inl "ENOENT: no such file or directory")]
       (Returned tt, fresh_stats).
Proof.
  apply (proj2 (cleanupTempFile_unlinks_only_probe_paths default_prober
                  (Some "/tmp/abs-probe-cache/book.m4b_1700000000000.tmp") fresh_stats)).
  - reflexivity.
  - discriminate.
  - reflexivity.
Defined.

(** *** Stream validation *)

Definition is_type (type : string) (stream : Raw.Stream) : bool :=
  match Raw.codec_type stream with
  | JStr t => String.eqb t type
  | _ => false
  end.

Definition streams_in (raw : Raw.Json) : list Raw.Stream :=
  match raw with
  | Raw.JsonObject d => match Raw.streams d with Some l => l | None => [] end
  | _ => []
  end.

(** The output contains at least one stream of the given type. *)
Definition has_stream (type : string) (raw : Raw.Json) : bool :=
  existsb (is_type type) (streams_in raw).

(** The output is an object with a [format]. *)
Definition has_format (raw : Raw.Json) : bool :=
  match raw with
  | Raw.JsonObject d => match Raw.format d with Some _ => true | None => false end
  | _ => false
  end.

Lemma find_stream_none type streams :
  Raw.find_stream type streams = None <-> existsb (is_type type) streams = false.
Proof.
  unfold Raw.find_stream. induction streams as [|x l IH]; simpl; [tauto|].
  fold (is_type type x). destruct (is_type type x); simpl; [split; discriminate|exact IH].
Qed.

(** A film without sound. *)
Definition video_only : Raw.Json :=
  Raw.JsonObject
    (Raw.mkData
       (Some (Raw.mkFormat (JStr "mov,mp4,m4a") (JStr "12.5") (JStr "1000") (JStr "64000") None))
       (Some [Raw.mkStream (JStr "video") (JStr "h264") JUndefined JUndefined JUndefined
                           JUndefined (JStr "1/25") None])
       None).

(** An output without any stream. *)
Definition no_stream : Raw.Json :=
  Raw.JsonObject
    (Raw.mkData
       (Some (Raw.mkFormat (JStr "mp3") (JStr "12.5") (JStr "1000") (JStr "64000") None))
       (Some []) None).

(** C3 as stated fails: an output with a video stream and no audio stream
    does not pass. *)
Lemma video_only_output_is_rejected :
  has_stream "audio" video_only || has_stream "video" video_only = true /\
  PartialProber.parseProbeData default_config video_only
  = Threw (JsError "No audio stream found").
Proof. split; reflexivity. Qed.

Lemma parseProbeData_cases config raw :
  (has_format raw = false ->
   PartialProber.parseProbeData config raw = Threw (JsError "Invalid ffprobe output")) /\
  (has_format raw = true -> has_stream "audio" raw = false ->
   PartialProber.parseProbeData config raw = Threw (JsError "No audio stream found")) /\
  (has_format raw = true -> has_stream "audio" raw = true ->
   exists data, PartialProber.parseProbeData config raw = Returned data).
Proof.
  unfold has_stream, has_format, streams_in, PartialProber.parseProbeData.
  destruct raw as [| |d]; try (repeat split; intros; try discriminate; reflexivity).
  destruct (Raw.format d) as [f|]; [|repeat split; intros; try discriminate; reflexivity].
  destruct (Raw.streams d) as [l|]; simpl.
  - destruct (Raw.find_stream "audio" l) eqn:E.
    + repeat split; intros; try discriminate; eauto.
      apply find_stream_none in H0. congruence.
    + apply find_stream_none in E. repeat split; intros; try discriminate; congruence.
  - repeat split; intros; try discriminate; reflexivity.
Qed.

(** C3 (amended).  Parsing the output of the tool succeeds exactly when the
    output is an object with a [format] and at least one audio stream: an
    output without audio stream, with or without a video stream, is rejected
    with ['No audio stream found'], an output without [format] with
    ['Invalid ffprobe output'].  In every call of [probe] the tool is
    started at most once: when the output parsed in the call has no audio
    stream, the call ends with an error object after that one run, and
    nothing is put in the cache. *)
Theorem parsing_needs_an_audio_stream config raw :
  ((exists data, PartialProber.parseProbeData config raw = Returned data) <->
   has_format raw = true /\ has_stream "audio" raw = true) /\
  (has_format raw = true -> has_stream "audio" raw = false ->
   PartialProber.parseProbeData config raw = Threw (JsError "No audio stream found")) /\
  (has_format raw = false ->
   PartialProber.parseProbeData config raw = Threw (JsError "Invalid ffprobe output")) /\
  (forall this filePath s tr r,
     runs (PartialProber.probe this config filePath s) tr r ->
     (tool_runs tr <= 1)%nat /\
     (forall text, parse_answers tr = [(text, inr raw)] ->
        has_stream "audio" raw = false ->
        exists message s',
          r = (Returned (ErrorResult ("FFProbe failed: " ++ message)%string), s') /\
          PartialProber.parseProbeData config raw = Threw (JsError message) /\
          tool_runs tr = 1%nat /\ lru_sets tr = [])).
Proof.
  destruct (parseProbeData_cases config raw) as (Hinv & Hnone & Hok).
  split; [|split; [exact Hnone|split; [exact Hinv|]]].
  - split.
    + intros [data Hd]. destruct (has_format raw) eqn:Hf.
      * destruct (has_stream "audio" raw) eqn:Ha; [auto|].
        rewrite Hnone in Hd by reflexivity. discriminate.
      * rewrite Hinv in Hd by reflexivity. discriminate.
    + intros [Hf Ha]. auto.
  - intros this filePath s tr r H.
    apply PartialProberRuns.partial_probe_spec in H.
    destruct H as (result & s' & -> & _ & [(Hh & Hs & Ht & Hp)|(Hh & (Ht & Hp) & Hs)]).
    + split; [lia|]. intros text Hpa. rewrite Hp in Hpa. discriminate.
    + split; [lia|]. intros text Hpa Ha.
      assert (Hthrow : exists message,
                PartialProber.parseProbeData config raw = Threw (JsError message)).
      { destruct (has_format raw) eqn:Hf; eauto. }
      destruct Hthrow as [message Hm]. exists message, s'.
      destruct Hp as [(Hp & _)|(text' & answer & Hp & Hres)]; [congruence|].
      rewrite Hpa in Hp. inversion Hp; subst text' answer.
      unfold PartialProberRuns.parsed_outcome in Hres. rewrite Hm in Hres.
      simpl in Hres. subst result. split; [reflexivity|]. split; [exact Hm|].
      split; [exact Ht|]. destruct Hs as [Hs|[He _]]; [exact Hs|discriminate].
Qed.

Lemma parsing_needs_an_audio_stream_witness :
  PartialProber.parseProbeData default_config no_stream
  = Threw (JsError "No audio stream found").
Proof.
  apply (proj1 (proj2 (parsing_needs_an_audio_stream default_config no_stream)));
    reflexivity.
Defined.

(** *** Bit rate *)

Definition bit_rate_of_outcome (o : Outcome ProbeData) : option JsNumber :=
  match o with
  | Returned data => Some (pd_bit_rate data)
  | Threw _ => None
  end.

(** The bit rate that C7 describes: the [bit_rate] of the format when
    [parseInt] makes a number other than 0 of it, otherwise the [bit_rate]
    of the first audio stream, read by [parseInt], and 0 without an audio
    stream. *)
Definition spec_bit_rate (d : Raw.Data) : JsNumber :=
  match parseInt (Raw.bit_rate (Prober.format_of d)) with
  | Int z => if Z.eqb z 0 then
               match Raw.find_stream "audio" (Prober.streams_of d) with
               | Some a => parseInt (Raw.s_bit_rate a)
               | None => Int 0
               end
             else Int z
  | NaN =>
      match Raw.find_stream "audio" (Prober.streams_of d) with
      | Some a => parseInt (Raw.s_bit_rate a)
      | None => Int 0
      end
  end.

(** The two transformations of the first prober compute the bit rate of
    C7. *)
Lemma transform_bit_rate d :
  bit_rate_of_outcome (Prober.transformMinimalData (Raw.JsonObject d))
    = Some (spec_bit_rate d) /\
  bit_rate_of_outcome (Prober.transformFullData (Raw.JsonObject d))
    = Some (spec_bit_rate d).
Proof.
  unfold spec_bit_rate. simpl. unfold Prober.bit_rate_of, num_or.
  destruct (parseInt (Raw.bit_rate (Prober.format_of d))) as [|z]; [auto|].
  destruct (Z.eqb z 0); auto.
Qed.

(** An audio file whose container gives no bit rate. *)
Definition audio_without_format_bit_rate : Raw.Data :=
  Raw.mkData
    (Some (Raw.mkFormat (JStr "mp3") (JStr "12.5") (JStr "200000") JUndefined None))
    (Some [Raw.mkStream (JStr "audio") (JStr "mp3") (JStr "44100") (JNum 2) (JStr "stereo")
                        (JStr "128000") (JStr "1/14112000") None])
    None.

(** C7 fails in [parseProbeData]: without a bit rate of the container the
    result has bit rate 0, although the audio stream has 128000, which is
    what C7 describes and what the two transformations of the first prober
    compute. *)
Theorem parseProbeData_has_no_bit_rate_fallback :
  spec_bit_rate audio_without_format_bit_rate = Int 128000 /\
  bit_rate_of_outcome
    (Prober.transformMinimalData (Raw.JsonObject audio_without_format_bit_rate))
    = Some (Int 128000) /\
  bit_rate_of_outcome
    (Prober.transformFullData (Raw.JsonObject audio_without_format_bit_rate))
    = Some (Int 128000) /\
  bit_rate_of_outcome
    (PartialProber.parseProbeData default_config (Raw.JsonObject audio_without_format_bit_rate))
    = Some (Int 0).
Proof. repeat split; vm_compute; reflexivity. Qed.

(** *** The probe boundary *)

(** [scanConfig] exports at least 1 as [PROBE_RETRY_TIMES] unless the
    environment variable is a negative number. *)
Lemma retry_times_unsigned env :
  (forall z, parseInt env = Int z -> 0 <= z) ->
  1 <= ScanConfigHelpers.retry_times_setting env.
Proof.
  intros H. unfold ScanConfigHelpers.retry_times_setting, num_or.
  destruct (parseInt env) as [|z]; [lia|].
  specialize (H z eq_refl). destruct (Z.eqb_spec z 0); lia.
Qed.

(** C4.  In every environment, whatever fails (the partial copy, the tool,
    the time limit, the parsing, the streams), for every path, each [probe]
    returns a result object to its caller and does not throw: the second
    prober always, the first whenever [PROBE_RETRY_TIMES] is at least 1, as
    it is for every unsigned setting ([retry_times_unsigned]).  The result
    object is probe data or [{ error: message }]. *)
Theorem probe_never_throws (env : Oracle) config this filePath s :
  (1 <= ScanConfig.PROBE_RETRY_TIMES config ->
   exists result s',
     snd (run env [] (Prober.probe config filePath s)) = (Returned result, s')) /\
  (exists result s',
     snd (run env [] (PartialProber.probe this config filePath s)) = (Returned result, s')).
Proof.
  split.
  - intros Ht.
    pose proof (run_runs env (Prober.probe config filePath s) []) as H.
    apply ProberRuns.probe_spec in H. destruct H as (o & s' & Hr & _ & Hends).
    rewrite Hr. destruct o as [result|t]; [eauto|]. destruct Hends as [_ Hnot]. contradiction.
  - pose proof (run_runs env (PartialProber.probe this config filePath s) []) as H.
    apply PartialProberRuns.partial_probe_spec in H. destruct H as (result & s' & Hr & _).
    eauto.
Qed.

Lemma probe_never_throws_witness :
  exists result s',
    snd (run offline [] (Prober.probe default_config "/lib/book.m4b" fresh_stats))
    = (Returned result, s').
Proof.
  apply (proj1 (probe_never_throws offline default_config default_prober
                  "/lib/book.m4b" fresh_stats)).
  simpl. lia.
Defined.

(** *** What enters the cache *)

Definition is_data (r : ProbeResult) : Prop := is_error r = false.

(** With a cache that finds only what was stored, a value found was in the
    store at the start or was put there in the run. *)
Lemma coherent_hits tr : forall store value,
  coherent store tr -> In value (lru_hits tr) ->
  In value store \/ In value (lru_sets tr).
Proof.
  unfold lru_hits, lru_sets.
  induction tr as [|ev tr IH]; intros store value Hc Hin; simpl in *; [contradiction|].
  destruct Hc as [Hhit Hc].
  destruct (lru_hit_value ev) as [h|] eqn:Eh.
  - destruct Hin as [<-|Hin]; [now left|].
    destruct (lru_set_value ev) as [w|] eqn:Ew.
    + destruct (IH _ _ Hc Hin) as [[<-|H]|H]; simpl; auto.
    + destruct (IH _ _ Hc Hin); auto.
  - destruct (lru_set_value ev) as [w|] eqn:Ew.
    + destruct (IH _ _ Hc Hin) as [[<-|H]|H]; simpl; auto.
    + destruct (IH _ _ Hc Hin); auto.
Qed.

(** Both probers end a call in one of the three ways of [probe_ends], or
    throw without having touched the cache. *)
Lemma either_probe_ends config this filePath s tr o s' :
  runs (Prober.probe config filePath s) tr (o, s') \/
  runs (PartialProber.probe this config filePath s) tr (o, s') ->
  match o with
  | Returned result => ProberRuns.probe_ends tr result
  | Threw _ => lru_sets tr = []
  end.
Proof.
  intros [H|H].
  - apply ProberRuns.probe_spec in H. destruct H as (o' & s1 & Hr & _ & H).
    inversion Hr; subst o' s1. destruct o; [exact H|tauto].
  - apply PartialProberRuns.partial_probe_spec in H.
    destruct H as (result & s1 & Hr & _ & [(Hh & Hs & Ht & _)|(Hh & _ & Hs)]);
      inversion Hr; subst o s1; unfold ProberRuns.probe_ends.
    + left. auto.
    + destruct (is_error result) eqn:E.
      * right. left. destruct Hs as [Hs|[He _]]; [auto|discriminate].
      * right. right. destruct Hs as [Hs|[_ Hs]]; auto.
Qed.

(** C9.  In every call of either [probe]: every value put in the cache is
    probe data, never an error object; when the call ends with an error
    object, or throws, nothing is put in the cache; and, the cache finding
    only what was stored and holding only probe data before the call, a
    value that the call takes from the cache is probe data, and the cache
    holds only probe data after the call. *)
Theorem only_probe_data_is_cached config this filePath s tr o s' :
  runs (Prober.probe config filePath s) tr (o, s') \/
  runs (PartialProber.probe this config filePath s) tr (o, s') ->
  Forall is_data (lru_sets tr) /\
  (forall result, o = Returned result -> is_error result = true -> lru_sets tr = []) /\
  (forall t, o = Threw t -> lru_sets tr = []) /\
  (forall store,
     coherent store tr -> Forall is_data store ->
     (forall result, o = Returned result -> lru_hits tr = [result] -> is_data result) /\
     Forall is_data (lru_sets tr ++ store)).
Proof.
  intros H. apply either_probe_ends in H.
  assert (Hsets : Forall is_data (lru_sets tr)).
  { destruct o as [result|t]; [|rewrite H; constructor].
    destruct H as [(_ & -> & _)|[(_ & _ & ->)|(_ & Hd & [->| ->])]]; repeat constructor.
    exact Hd. }
  split; [exact Hsets|]. split; [|split].
  - intros result ->.
    destruct H as [(_ & Hs & _)|[(_ & _ & Hs)|(_ & Hd & _)]]; auto. congruence.
  - intros t ->. exact H.
  - intros store Hc Hstore. split.
    + intros result -> Hhit.
      destruct (coherent_hits tr store result Hc) as [Hin|Hin].
      * rewrite Hhit. now left.
      * rewrite Forall_forall in Hstore. auto.
      * rewrite Forall_forall in Hsets. auto.
    + apply Forall_app. auto.
Qed.

Lemma only_probe_data_is_cached_witness :
  Forall is_data
    (lru_sets (fst (run offline [] (Prober.probe default_config "/lib/book.m4b" fresh_stats)))).
Proof.
  refine (proj1 (only_probe_data_is_cached default_config default_prober "/lib/book.m4b"
                   fresh_stats _
                   (fst (snd (run offline [] (Prober.probe default_config "/lib/book.m4b"
                                                fresh_stats))))
                   (snd (snd (run offline [] (Prober.probe default_config "/lib/book.m4b"
                                                fresh_stats)))) _)).
  left. rewrite <- surjective_pairing. apply run_runs.
Defined.

End ProbeProps.

(* ================================================================= *)
(** ** Further properties of the reconciler *)

Module ReconcilerFacts.
Import Reconciler ReconcilerProps.

(** [date?.valueOf() !== ms] *)
Definition time_differs (date : option Z) (ms : Z) : bool :=
  negb (option_eqb Z.eqb date (Some ms)).

(** Which differences the stages before the loop over the files report. *)
Definition item_changed (ignore : bool) (e : LibraryItem.t) (s : ScanData.t) : bool :=
  (negb ignore && item_differs Kino e s)
  || item_differs KlibraryFolderId e s || item_differs Kpath e s
  || item_differs KrelPath e s || item_differs KisFile e s
  || (negb ignore && (time_differs (LibraryItem.mtime e) (ScanData.mtimeMs s)
                      || time_differs (LibraryItem.birthtime e) (ScanData.birthtimeMs s)
                      || time_differs (LibraryItem.ctime e) (ScanData.ctimeMs s)))
  || LibraryItem.isMissing e.

(** The record after these stages: the keys compared and the three time
    stamps are those of the candidate, the record is not missing. *)
Definition synced_item (ignore : bool) (e : LibraryItem.t) (s : ScanData.t) : LibraryItem.t :=
  LibraryItem.mk (if ignore then LibraryItem.ino e else ScanData.ino s)
    (ScanData.libraryFolderId s) (ScanData.path s) (ScanData.relPath s) (ScanData.isFile s)
    (Some (ScanData.mtimeMs s)) (Some (ScanData.ctimeMs s)) (Some (ScanData.birthtimeMs s))
    false (LibraryItem.libraryFiles e) (LibraryItem.size e) (LibraryItem.lastScan e)
    (LibraryItem.lastScanVersion e).

Lemma compare_keys_spec ignore e s :
  compare_keys ignore s (mkState e false false)
  = mkState
      (LibraryItem.mk (if ignore then LibraryItem.ino e else ScanData.ino s)
         (ScanData.libraryFolderId s) (ScanData.path s) (ScanData.relPath s)
         (ScanData.isFile s) (LibraryItem.mtime e) (LibraryItem.ctime e)
         (LibraryItem.birthtime e) (LibraryItem.isMissing e) (LibraryItem.libraryFiles e)
         (LibraryItem.size e) (LibraryItem.lastScan e) (LibraryItem.lastScanVersion e))
      ((negb ignore && item_differs Kino e s)
       || item_differs KlibraryFolderId e s || item_differs Kpath e s
       || item_differs KrelPath e s || item_differs KisFile e s)
      (item_differs Kpath e s || item_differs KrelPath e s).
Proof.
  destruct e as [ie fe pe re ife mt ct bt miss files sz ls lv].
  destruct s as [is_ fs ps rs ifs mts cts bts cands].
  unfold compare_keys.
  destruct ignore; cbn [keysToCompare negb fold_left]; rewrite !key_step_spec;
    cbn [existing hasChanges hasPathChange andb orb];
    rewrite ?differs_after_adopt by discriminate;
    cbn [item_differs LibraryItem.ino LibraryItem.libraryFolderId LibraryItem.path
         LibraryItem.relPath LibraryItem.isFile ScanData.ino ScanData.libraryFolderId
         ScanData.path ScanData.relPath ScanData.isFile].
  - destruct (String.eqb_spec fe fs), (String.eqb_spec pe ps), (String.eqb_spec re rs),
      ife, ifs; subst; reflexivity.
  - destruct (strict_eq ie is_) eqn:Ei;
      [apply strict_eq_spec in Ei; subst|];
      destruct (String.eqb_spec fe fs), (String.eqb_spec pe ps), (String.eqb_spec re rs),
        ife, ifs; subst; reflexivity.
Qed.

Lemma compare_times_spec ignore s e hc hp :
  compare_times ignore s (mkState e hc hp)
  = mkState
      (LibraryItem.set_ctime (Some (ScanData.ctimeMs s))
         (LibraryItem.set_birthtime (Some (ScanData.birthtimeMs s))
            (LibraryItem.set_mtime (Some (ScanData.mtimeMs s)) e)))
      (hc || (negb ignore && (time_differs (LibraryItem.mtime e) (ScanData.mtimeMs s)
                              || time_differs (LibraryItem.birthtime e) (ScanData.birthtimeMs s)
                              || time_differs (LibraryItem.ctime e) (ScanData.ctimeMs s))))
      hp.
Proof.
  destruct e as [ie fe pe re ife mt ct bt miss files sz ls lv].
  destruct s as [is_ fs ps rs ifs mts cts bts cands].
  unfold compare_times, time_differs.
  destruct ignore; cbn; [now rewrite orb_false_r|].
  destruct (option_eqb Z.eqb mt (Some mts)) eqn:Em;
    [apply (option_eqb_spec Z.eqb Z.eqb_eq) in Em; subst|]; cbn;
    (destruct (option_eqb Z.eqb bt (Some bts)) eqn:Eb;
     [apply (option_eqb_spec Z.eqb Z.eqb_eq) in Eb; subst|]); cbn;
    (destruct (option_eqb Z.eqb ct (Some cts)) eqn:Ec;
     [apply (option_eqb_spec Z.eqb Z.eqb_eq) in Ec; subst|]); cbn;
    rewrite ?orb_true_r, ?orb_false_r; reflexivity.
Qed.

Lemma recover_missing_spec e hc hp :
  recover_missing (mkState e hc hp)
  = mkState (LibraryItem.set_isMissing false e) (hc || LibraryItem.isMissing e) hp.
Proof.
  destruct e as [ie fe pe re ife mt ct bt miss files sz ls lv].
  unfold recover_missing. cbn. destruct miss; rewrite ?orb_true_r, ?orb_false_r; reflexivity.
Qed.

Lemma item_stages_spec ignore e s :
  recover_missing (compare_times ignore s (compare_keys ignore s (mkState e false false)))
  = mkState (synced_item ignore e s) (item_changed ignore e s)
            (item_differs Kpath e s || item_differs KrelPath e s).
Proof.
  rewrite compare_keys_spec, compare_times_spec, recover_missing_spec.
  reflexivity.
Qed.

Lemma check_report_record ignore now version e s :
  let fl := file_loop ignore now (ScanData.libraryFiles s) (LibraryItem.libraryFiles e)
                      (item_changed ignore e s) in
  let files := kept fl ++ map (fun c => mark_added (snd c)) (added fl) in
  let r := checkLibraryItemData ignore now version e s in
  r_hasChanges r = (if Nat.eqb (List.length (added fl)) 0 then fileChanges fl else true) /\
  r_hasPathChange r = (item_differs Kpath e s || item_differs KrelPath e s) /\
  returned r = r_hasChanges r /\
  libraryFilesRemoved r = removed fl /\
  libraryFilesModified r = modified fl /\
  libraryFilesAdded r = map (fun c => (fst c, mark_added (snd c))) (added fl) /\
  existingLibraryItem r =
    (if r_hasChanges r
     then LibraryItem.set_lastScanVersion (Some version)
            (LibraryItem.set_lastScan (Some now)
               (LibraryItem.set_size (total_size files)
                  (LibraryItem.set_libraryFiles files (synced_item ignore e s))))
     else LibraryItem.set_libraryFiles files (synced_item ignore e s)).
Proof.
  cbn zeta. unfold checkLibraryItemData. cbn zeta. rewrite item_stages_spec.
  cbn [existing hasChanges hasPathChange].
  change (LibraryItem.libraryFiles (synced_item ignore e s)) with (LibraryItem.libraryFiles e).
  rewrite map_map. cbn [fst snd].
  destruct (if Nat.eqb _ 0 then _ else true); cbn; repeat split; reflexivity.
Qed.

(** The loop over the existing files, from its first state. *)
Lemma file_loop_spec ignore now cands efs hc :
  let fl := file_loop ignore now cands efs hc in
  removed fl =
    filter (fun ef => match find_match ignore cands ef with None => true | _ => false end) efs /\
  kept fl =
    flat_map (fun ef => match matched_update ignore now cands ef with
                        | Some (_, u, _) => [u] | None => [] end) efs /\
  modified fl =
    flat_map (fun ef => match matched_update ignore now cands ef with
                        | Some (_, u, true) => [(ef, u)] | _ => [] end) efs /\
  added fl =
    filter (fun c => negb (existsb (fun ef => match find_match ignore cands ef with
                                              | Some (i, _) => Nat.eqb (fst c) i
                                              | None => false end) efs))
           (indexed_from 0 cands) /\
  fileChanges fl = hc ||
    existsb (fun ef => match matched_update ignore now cands ef with
                       | Some (_, _, c) => c | None => true end) efs.
Proof.
  cbn zeta. unfold file_loop.
  destruct (file_loop_fold ignore now cands efs
              (mkFileLoop [] [] [] (indexed_from 0 cands) hc)) as (Hr & Hk & Hm & Ha & Hc).
  cbn zeta in *. simpl in Hr, Hk, Hm, Ha, Hc. auto.
Qed.

Definition nonempty {A : Type} (l : list A) : bool :=
  match l with [] => false | _ => true end.

Lemma nonempty_spec {A : Type} (l : list A) : nonempty l = true <-> l <> [].
Proof. destruct l; simpl; split; congruence. Qed.

Lemma nonempty_app {A : Type} (l1 l2 : list A) :
  nonempty (l1 ++ l2) = nonempty l1 || nonempty l2.
Proof. destruct l1; simpl; reflexivity. Qed.

Lemma nonempty_map {A B : Type} (f : A -> B) (l : list A) : nonempty (map f l) = nonempty l.
Proof. destruct l; reflexivity. Qed.

Lemma nonempty_length {A : Type} (l : list A) (b : bool) :
  (if Nat.eqb (List.length l) 0 then b else true) = b || nonempty l.
Proof. destruct l; simpl; [now rewrite orb_false_r|now rewrite orb_true_r]. Qed.

Lemma loop_changes ignore now cands efs :
  existsb (fun ef => match matched_update ignore now cands ef with
                     | Some (_, _, c) => c | None => true end) efs
  = nonempty (filter (fun ef => match find_match ignore cands ef with
                                | None => true | _ => false end) efs)
    || nonempty (flat_map (fun ef => match matched_update ignore now cands ef with
                                     | Some (_, u, true) => [(ef, u)] | _ => [] end) efs).
Proof.
  induction efs as [|ef efs IH]; simpl; [reflexivity|]. rewrite IH. clear IH.
  unfold matched_update. destruct (find_match ignore cands ef) as [[i c]|]; simpl.
  - destruct (snd (compareUpdateLibraryFile ignore now ef c)); simpl; [|reflexivity].
    now rewrite orb_true_r.
  - reflexivity.
Qed.

(** [hasChanges] as a function of the differences found. *)
Lemma hasChanges_formula ignore now version e s :
  let r := checkLibraryItemData ignore now version e s in
  r_hasChanges r =
    item_changed ignore e s || nonempty (libraryFilesRemoved r)
    || nonempty (libraryFilesModified r) || nonempty (libraryFilesAdded r).
Proof.
  cbn zeta.
  destruct (check_report_record ignore now version e s) as (-> & _ & _ & -> & -> & -> & _).
  rewrite nonempty_length, nonempty_map.
  destruct (file_loop_spec ignore now (ScanData.libraryFiles s) (LibraryItem.libraryFiles e)
              (item_changed ignore e s)) as (Hr & _ & Hm & _ & Hc).
  cbn zeta in Hr, Hm, Hc. rewrite Hc, Hr, Hm, loop_changes.
  now rewrite !orb_assoc.
Qed.

Lemma item_changed_split ignore e s :
  item_changed ignore e s =
    ScanConfigDraft.hasLibraryItemChanged ignore e s
    || item_differs KlibraryFolderId e s || item_differs KisFile e s
    || LibraryItem.isMissing e.
Proof.
  unfold item_changed, ScanConfigDraft.hasLibraryItemChanged, time_differs, item_differs.
  destruct ignore,
    (String.eqb (LibraryItem.libraryFolderId e) (ScanData.libraryFolderId s)),
    (String.eqb (LibraryItem.path e) (ScanData.path s)),
    (String.eqb (LibraryItem.relPath e) (ScanData.relPath s)),
    (Bool.eqb (LibraryItem.isFile e) (ScanData.isFile s)),
    (strict_eq (LibraryItem.ino e) (ScanData.ino s)),
    (option_eqb Z.eqb (LibraryItem.mtime e) (Some (ScanData.mtimeMs s))),
    (option_eqb Z.eqb (LibraryItem.ctime e) (Some (ScanData.ctimeMs s))),
    (option_eqb Z.eqb (LibraryItem.birthtime e) (Some (ScanData.birthtimeMs s))),
    (LibraryItem.isMissing e); reflexivity.
Qed.

(** [hasChanges] is true exactly when the quick test [hasLibraryItemChanged]
    of [scanConfig] is, or the folder or the kind of the item differs, or the
    item was flagged missing, or a file is reported removed, modified or
    added. *)
Theorem hasChanges_exactly_when_something_differs ignore now version e s :
  let r := checkLibraryItemData ignore now version e s in
  r_hasChanges r = true <->
    ScanConfigDraft.hasLibraryItemChanged ignore e s = true \/
    LibraryItem.libraryFolderId e <> ScanData.libraryFolderId s \/
    LibraryItem.isFile e <> ScanData.isFile s \/
    LibraryItem.isMissing e = true \/
    libraryFilesRemoved r <> [] \/ libraryFilesModified r <> [] \/ libraryFilesAdded r <> [].
Proof.
  cbn zeta. rewrite hasChanges_formula, item_changed_split.
  rewrite !orb_true_iff, !nonempty_spec. unfold item_differs.
  rewrite !negb_true_iff, String.eqb_neq.
  assert (Hb : Bool.eqb (LibraryItem.isFile e) (ScanData.isFile s) = false
               <-> LibraryItem.isFile e <> ScanData.isFile s).
  { destruct (LibraryItem.isFile e), (ScanData.isFile s); simpl; split; congruence. }
  rewrite Hb. tauto.
Qed.

(** [hasPathChange] tells that the path or the relative path of the item
    itself differs; whenever it is set, [hasChanges] is set too. *)
Theorem hasPathChange_is_about_the_item ignore now version e s :
  let r := checkLibraryItemData ignore now version e s in
  (r_hasPathChange r = true <->
     LibraryItem.path e <> ScanData.path s \/ LibraryItem.relPath e <> ScanData.relPath s) /\
  (r_hasPathChange r = true -> r_hasChanges r = true).
Proof.
  cbn zeta. rewrite hasChanges_formula.
  destruct (check_report_record ignore now version e s) as (_ & -> & _).
  unfold item_changed, item_differs. split.
  - now rewrite orb_true_iff, !negb_true_iff, !String.eqb_neq.
  - intros H. apply orb_true_iff in H.
    destruct H as [-> | ->]; rewrite ?orb_true_r; reflexivity.
Qed.

(** *** One file *)

Lemma file_changed_split ignore e s :
  file_changed ignore e s =
    ScanConfigHelpers.hasLibraryFileChanged ignore e s
    || Metadata.differs Metadata.KrelPath (LibraryFile.metadata e) (LibraryFile.metadata s).
Proof.
  unfold file_changed, ScanConfigHelpers.hasLibraryFileChanged, Metadata.differs.
  destruct ignore,
    (strict_eq (LibraryFile.ino e) (LibraryFile.ino s)),
    (String.eqb (Metadata.path (LibraryFile.metadata e)) (Metadata.path (LibraryFile.metadata s))),
    (String.eqb (Metadata.relPath (LibraryFile.metadata e))
                (Metadata.relPath (LibraryFile.metadata s))),
    (Z.eqb (Metadata.size (LibraryFile.metadata e)) (Metadata.size (LibraryFile.metadata s))),
    (Z.eqb (Metadata.mtimeMs (LibraryFile.metadata e))
           (Metadata.mtimeMs (LibraryFile.metadata s))),
    (Z.eqb (Metadata.ctimeMs (LibraryFile.metadata e))
           (Metadata.ctimeMs (LibraryFile.metadata s))); reflexivity.
Qed.

(** [compareUpdateLibraryFile] leaves the existing file with the inode
    number and the whole metadata of the scanned file and with its own
    [isSupplementary] and [isEBookFile]; it returns true, and stamps
    [updatedAt], exactly when [hasLibraryFileChanged] of [scanConfig] holds
    of the two files or their [relPath] differ. *)
Theorem compareUpdateLibraryFile_syncs_and_reports ignore now e s :
  let r := compareUpdateLibraryFile ignore now e s in
  snd r = ScanConfigHelpers.hasLibraryFileChanged ignore e s
          || Metadata.differs Metadata.KrelPath (LibraryFile.metadata e)
                              (LibraryFile.metadata s) /\
  LibraryFile.ino (fst r) = LibraryFile.ino s /\
  LibraryFile.metadata (fst r) = LibraryFile.metadata s /\
  LibraryFile.isSupplementary (fst r) = LibraryFile.isSupplementary e /\
  LibraryFile.isEBookFile (fst r) = LibraryFile.isEBookFile e /\
  LibraryFile.updatedAt (fst r) = (if snd r then Some now else LibraryFile.updatedAt e).
Proof.
  cbn zeta. rewrite compareUpdateLibraryFile_spec. cbn [fst snd].
  split; [apply file_changed_split|]. repeat split; reflexivity.
Qed.

Lemma compareUpdateLibraryFile2_spec ignore now e s :
  Reconciler2.compareUpdateLibraryFile ignore now e s =
  (LibraryFile.mk (LibraryFile.ino s) (LibraryFile.metadata s)
     (LibraryFile.isSupplementary e) (LibraryFile.isEBookFile e)
     (if file_changed ignore e s then Some now else LibraryFile.updatedAt e),
   file_changed ignore e s).
Proof.
  destruct e as [ie [pe re se me ce] sup eb up], s as [is_ [ps rs ss ms cs] sup' eb' up'].
  unfold Reconciler2.compareUpdateLibraryFile, ScanConfigHelpers.hasLibraryFileChanged,
    file_changed.
  simpl LibraryFile.ino. simpl LibraryFile.metadata.
  destruct (strict_eq ie is_) eqn:Hino.
  - apply strict_eq_spec in Hino. subst is_.
    destruct ignore; eqb_cases; try rewrite !Z.eqb_refl; try rewrite !String.eqb_refl;
      reflexivity.
  - destruct ignore; eqb_cases; try rewrite !Z.eqb_refl; try rewrite !String.eqb_refl;
      reflexivity.
Qed.

(** The second definition of [compareUpdateLibraryFile], which goes through
    [hasLibraryFileChanged], computes what the first one does: the same
    updated file and the same answer, under both policies. *)
Theorem compareUpdateLibraryFile_definitions_agree ignore now e s :
  Reconciler2.compareUpdateLibraryFile ignore now e s
  = compareUpdateLibraryFile ignore now e s.
Proof. now rewrite compareUpdateLibraryFile2_spec, compareUpdateLibraryFile_spec. Qed.

(** *** Matching *)

Lemma find_match_nth ignore cands ef i c :
  find_match ignore cands ef = Some (i, c) -> nth_error cands i = Some c.
Proof.
  unfold find_match. intros H.
  destruct (js_find _ cands) as [[j x]|] eqn:E.
  - inversion H; subst. now destruct (js_find_some _ _ _ _ E).
  - destruct (negb ignore); [|discriminate].
    now destruct (js_find_some _ _ _ _ H).
Qed.

Lemma find_match_none ignore cands ef :
  find_match ignore cands ef = None <->
  forall c, In c cands ->
    LibraryFile.path c <> LibraryFile.path ef /\
    (ignore = false -> LibraryFile.ino c <> LibraryFile.ino ef).
Proof.
  unfold find_match, js_find.
  destruct (find_from _ 0 cands) as [[j x]|] eqn:E.
  - split; [discriminate|]. intros H.
    destruct (find_from_some _ _ _ _ _ E) as (_ & Hn & Hp & _).
    apply String.eqb_eq in Hp. apply nth_error_In in Hn. now destruct (H x Hn).
  - rewrite find_from_none in E. destruct ignore; simpl.
    + split; [|reflexivity]. intros _ c Hc. split; [|discriminate].
      apply String.eqb_neq. now apply E.
    + rewrite find_from_none. split.
      * intros H c Hc. split; [apply String.eqb_neq; now apply E|].
        intros _ Hi. specialize (H c Hc). rewrite Hi in H.
        assert (strict_eq (LibraryFile.ino ef) (LibraryFile.ino ef) = true)
          by apply strict_eq_refl.
        congruence.
      * intros H c Hc. destruct (H c Hc) as [_ Hi].
        destruct (strict_eq (LibraryFile.ino c) (LibraryFile.ino ef)) eqn:Eo;
          [|reflexivity].
        apply strict_eq_spec in Eo. now elim Hi.
Qed.

Lemma indexed_from_nth {A : Type} (l : list A) : forall k i x,
  nth_error l i = Some x -> In ((k + i)%nat, x) (indexed_from k l).
Proof.
  induction l as [|a l IH]; intros k i x H; [now destruct i|].
  destruct i as [|i]; simpl in *.
  - inversion H; subst. left. now rewrite Nat.add_0_r.
  - right. replace (k + S i)%nat with (S k + i)%nat by lia. now apply IH.
Qed.

(** [f] carries the inode number and the metadata of [c]. *)
Definition carries (f c : LibraryFile.t) : Prop :=
  LibraryFile.ino f = LibraryFile.ino c /\ LibraryFile.metadata f = LibraryFile.metadata c.

Lemma mark_added_carries c : carries (mark_added c) c.
Proof. unfold mark_added. destruct (LibraryFile.isEBookFile c); split; reflexivity. Qed.

Lemma kept_and_removed ignore now cands efs :
  (List.length (flat_map (fun ef => match matched_update ignore now cands ef with
                                    | Some (_, u, _) => [u] | None => [] end) efs)
   + List.length (filter (fun ef => match find_match ignore cands ef with
                                    | None => true | _ => false end) efs)
   = List.length efs)%nat.
Proof.
  induction efs as [|ef efs IH]; simpl; [reflexivity|].
  unfold matched_update at 1. destruct (find_match ignore cands ef) as [[i c]|]; simpl; lia.
Qed.

(** The files of the record after a run. *)
Lemma files_after ignore now version e s :
  LibraryItem.libraryFiles (existingLibraryItem (checkLibraryItemData ignore now version e s))
  = flat_map (fun ef => match matched_update ignore now (ScanData.libraryFiles s) ef with
                        | Some (_, u, _) => [u] | None => [] end) (LibraryItem.libraryFiles e)
    ++ map snd (libraryFilesAdded (checkLibraryItemData ignore now version e s)).
Proof.
  destruct (check_report_record ignore now version e s) as (_ & _ & _ & _ & _ & -> & ->).
  destruct (file_loop_spec ignore now (ScanData.libraryFiles s) (LibraryItem.libraryFiles e)
              (item_changed ignore e s)) as (_ & Hk & _).
  cbn zeta in Hk. rewrite <- Hk, map_map. cbn [snd].
  now destruct (r_hasChanges _).
Qed.

Lemma added_spec ignore now version e s i f :
  In (i, f) (libraryFilesAdded (checkLibraryItemData ignore now version e s)) <->
  exists c, f = mark_added c /\ nth_error (ScanData.libraryFiles s) i = Some c /\
            forall ef j c', In ef (LibraryItem.libraryFiles e) ->
              find_match ignore (ScanData.libraryFiles s) ef = Some (j, c') -> j <> i.
Proof.
  destruct (check_report_record ignore now version e s) as (_ & _ & _ & _ & _ & -> & _).
  destruct (file_loop_spec ignore now (ScanData.libraryFiles s) (LibraryItem.libraryFiles e)
              (item_changed ignore e s)) as (_ & _ & _ & Ha & _).
  cbn zeta in Ha. rewrite Ha. clear Ha. rewrite in_map_iff. split.
  - intros ([j c] & Heq & Hin). cbn [fst snd] in Heq. inversion Heq; subst j f. clear Heq.
    apply filter_In in Hin. destruct Hin as [Hin Hno].
    apply indexed_from_in in Hin. rewrite Nat.sub_0_r in Hin. destruct Hin as [_ Hn].
    exists c. split; [reflexivity|]. split; [exact Hn|].
    intros ef j c' Hef Hfm ->. apply negb_true_iff in Hno.
    assert (Hex : existsb (fun ef0 => match find_match ignore (ScanData.libraryFiles s) ef0 with
                                      | Some (i0, _) => Nat.eqb (fst (i, c)) i0
                                      | None => false end)
                          (LibraryItem.libraryFiles e) = true).
    { apply existsb_exists. exists ef. split; [exact Hef|]. rewrite Hfm. apply Nat.eqb_refl. }
    congruence.
  - intros (c & -> & Hn & Hno). exists (i, c). split; [reflexivity|].
    apply filter_In. split.
    + exact (indexed_from_nth _ 0%nat i c Hn).
    + apply negb_true_iff. apply existsb_false. intros ef Hef. cbn [fst].
      destruct (find_match ignore (ScanData.libraryFiles s) ef) as [[j c']|] eqn:Hfm;
        [|reflexivity].
      apply Nat.eqb_neq. intros Hij. apply (Hno ef j c' Hef Hfm). now symmetry.
Qed.

(** Every file of the record after a run carries the inode number and the
    metadata of a candidate. *)
Lemma files_after_carry ignore now version e s f :
  In f (LibraryItem.libraryFiles
          (existingLibraryItem (checkLibraryItemData ignore now version e s))) ->
  exists i c, nth_error (ScanData.libraryFiles s) i = Some c /\ carries f c.
Proof.
  rewrite files_after. intros H. apply in_app_or in H. destruct H as [H|H].
  - apply in_flat_map in H. destruct H as (ef & Hef & H). unfold matched_update in H.
    destruct (find_match ignore (ScanData.libraryFiles s) ef) as [[i c]|] eqn:Hfm;
      [|contradiction].
    rewrite compareUpdateLibraryFile_spec in H. cbn [fst snd] in H.
    destruct H as [<-|[]]. exists i, c. split; [eapply find_match_nth; eauto|].
    split; reflexivity.
  - apply in_map_iff in H. destruct H as ([i f'] & Heq & H). cbn [snd] in Heq. subst f'.
    apply added_spec in H. destruct H as (c & -> & Hn & _).
    exists i, c. split; [exact Hn|apply mark_added_carries].
Qed.

(** Every candidate is carried by a file of the record after a run. *)
Lemma candidates_carried ignore now version e s i c :
  nth_error (ScanData.libraryFiles s) i = Some c ->
  exists f, In f (LibraryItem.libraryFiles
                    (existingLibraryItem (checkLibraryItemData ignore now version e s)))
            /\ carries f c.
Proof.
  intros Hn. rewrite files_after.
  destruct (existsb (fun ef => match find_match ignore (ScanData.libraryFiles s) ef with
                               | Some (j, _) => Nat.eqb i j
                               | None => false end) (LibraryItem.libraryFiles e)) eqn:Hex.
  - apply existsb_exists in Hex. destruct Hex as (ef & Hef & Hm).
    destruct (find_match ignore (ScanData.libraryFiles s) ef) as [[j c']|] eqn:Hfm;
      [|discriminate].
    apply Nat.eqb_eq in Hm. subst j.
    assert (c' = c) by (apply find_match_nth in Hfm; congruence). subst c'.
    eexists. split.
    + apply in_or_app. left. apply in_flat_map. exists ef. split; [exact Hef|].
      unfold matched_update. rewrite Hfm, compareUpdateLibraryFile_spec. cbn [fst snd].
      left. reflexivity.
    + split; reflexivity.
  - exists (mark_added c). split; [|apply mark_added_carries].
    apply in_or_app. right. apply in_map_iff. exists (i, mark_added c).
    split; [reflexivity|]. apply added_spec. exists c. split; [reflexivity|].
    split; [exact Hn|]. intros ef j c' Hef Hfm ->.
    assert (Hex' : existsb (fun ef0 => match find_match ignore (ScanData.libraryFiles s) ef0 with
                                       | Some (j, _) => Nat.eqb i j
                                       | None => false end) (LibraryItem.libraryFiles e) = true).
    { apply existsb_exists. exists ef. split; [exact Hef|]. rewrite Hfm. apply Nat.eqb_refl. }
    congruence.
Qed.

(** After every run the record describes what was scanned: its item-level
    keys and time stamps are those of the candidate (the inode number of the
    item under the Strict policy only), it is not flagged missing, every
    file of the record carries the inode number and the metadata of a
    candidate file, every candidate file is carried by a file of the record,
    and the record has as many files as before, less the removed ones, plus
    the added ones. *)
Theorem record_mirrors_the_candidate ignore now version e s :
  let r := checkLibraryItemData ignore now version e s in
  let e' := existingLibraryItem r in
  (LibraryItem.libraryFolderId e' = ScanData.libraryFolderId s /\
   LibraryItem.path e' = ScanData.path s /\
   LibraryItem.relPath e' = ScanData.relPath s /\
   LibraryItem.isFile e' = ScanData.isFile s /\
   LibraryItem.mtime e' = Some (ScanData.mtimeMs s) /\
   LibraryItem.ctime e' = Some (ScanData.ctimeMs s) /\
   LibraryItem.birthtime e' = Some (ScanData.birthtimeMs s) /\
   LibraryItem.isMissing e' = false /\
   LibraryItem.ino e' = (if ignore then LibraryItem.ino e else ScanData.ino s)) /\
  (forall f, In f (LibraryItem.libraryFiles e') ->
     exists c, In c (ScanData.libraryFiles s) /\ carries f c) /\
  (forall c, In c (ScanData.libraryFiles s) ->
     exists f, In f (LibraryItem.libraryFiles e') /\ carries f c) /\
  (List.length (LibraryItem.libraryFiles e') + List.length (libraryFilesRemoved r)
   = List.length (LibraryItem.libraryFiles e) + List.length (libraryFilesAdded r))%nat.
Proof.
  cbn zeta. split; [|split; [|split]].
  - destruct (check_report_record ignore now version e s) as (_ & _ & _ & _ & _ & _ & ->).
    destruct (r_hasChanges _); cbn; repeat split; reflexivity.
  - intros f Hf. destruct (files_after_carry ignore now version e s f Hf) as (i & c & Hn & Hc).
    exists c. split; [eapply nth_error_In; eauto|exact Hc].
  - intros c Hc. destruct (In_nth_error _ _ Hc) as [i Hn].
    eapply candidates_carried; eauto.
  - rewrite files_after, length_app, length_map.
    destruct (check_report_record ignore now version e s) as (_ & _ & _ & -> & _).
    destruct (file_loop_spec ignore now (ScanData.libraryFiles s) (LibraryItem.libraryFiles e)
                (item_changed ignore e s)) as (-> & _).
    pose proof (kept_and_removed ignore now (ScanData.libraryFiles s)
                  (LibraryItem.libraryFiles e)). lia.
Qed.

(** A file is reported removed exactly when it is a file of the record and
    no candidate has its path nor, under the Strict policy, its inode
    number; the run then reports a change, and no file of the record has the
    path of the removed file afterwards. *)
Theorem removed_files_have_no_candidate ignore now version e s ef :
  let r := checkLibraryItemData ignore now version e s in
  (In ef (libraryFilesRemoved r) <->
   In ef (LibraryItem.libraryFiles e) /\
   forall c, In c (ScanData.libraryFiles s) ->
     LibraryFile.path c <> LibraryFile.path ef /\
     (ignore = false -> LibraryFile.ino c <> LibraryFile.ino ef)) /\
  (In ef (libraryFilesRemoved r) ->
   r_hasChanges r = true /\
   forall f, In f (LibraryItem.libraryFiles (existingLibraryItem r)) ->
     LibraryFile.path f <> LibraryFile.path ef).
Proof.
  cbn zeta.
  assert (Hiff : In ef (libraryFilesRemoved (checkLibraryItemData ignore now version e s)) <->
                 In ef (LibraryItem.libraryFiles e) /\
                 find_match ignore (ScanData.libraryFiles s) ef = None).
  { destruct (check_report_record ignore now version e s) as (_ & _ & _ & -> & _).
    destruct (file_loop_spec ignore now (ScanData.libraryFiles s) (LibraryItem.libraryFiles e)
                (item_changed ignore e s)) as (-> & _).
    rewrite filter_In.
    destruct (find_match ignore (ScanData.libraryFiles s) ef) as [[i c]|];
      split; intros [H1 H2]; split; auto; discriminate. }
  split.
  - rewrite Hiff, find_match_none. reflexivity.
  - intros Hin. split.
    + rewrite hasChanges_formula.
      assert (Hne : nonempty (libraryFilesRemoved
                                (checkLibraryItemData ignore now version e s)) = true).
      { apply nonempty_spec. intros Hnil. rewrite Hnil in Hin. contradiction. }
      rewrite Hne. now rewrite orb_true_r.
    + intros f Hf. apply Hiff in Hin. destruct Hin as [_ Hnone].
      rewrite find_match_none in Hnone.
      destruct (files_after_carry ignore now version e s f Hf) as (i & c & Hn & _ & Hm).
      unfold LibraryFile.path. rewrite Hm. apply Hnone. eapply nth_error_In; eauto.
Qed.

(** *** Runs that change nothing *)

Lemma option_eqb_refl (x : option Z) : option_eqb Z.eqb x x = true.
Proof. now apply (option_eqb_spec Z.eqb Z.eqb_eq). Qed.

Lemma carries_unchanged ignore ef c : carries ef c -> file_changed ignore ef c = false.
Proof.
  intros [Hi Hm]. unfold file_changed, Metadata.differs. rewrite Hi, Hm.
  rewrite strict_eq_refl, !String.eqb_refl, !Z.eqb_refl.
  now destruct ignore.
Qed.

Lemma unchanged_strict_carries ef c : file_changed false ef c = false -> carries ef c.
Proof.
  destruct ef as [ie [pe re se me ce] sup eb up], c as [ic [pc rc sc mc cc] sup' eb' up'].
  unfold file_changed, carries, Metadata.differs. cbn.
  destruct (strict_eq ie ic) eqn:Ei; [|discriminate].
  apply strict_eq_spec in Ei.
  destruct (String.eqb_spec pe pc), (String.eqb_spec re rc), (Z.eqb_spec se sc),
    (Z.eqb_spec me mc), (Z.eqb_spec ce cc); try discriminate.
  intros _. subst. split; reflexivity.
Qed.

Lemma updated_of_carried ignore now ef c :
  carries ef c -> compareUpdateLibraryFile ignore now ef c = (ef, false).
Proof.
  intros H. rewrite compareUpdateLibraryFile_spec, (carries_unchanged ignore ef c H).
  destruct H as [Hi Hm]. rewrite <- Hi, <- Hm. now destruct ef.
Qed.

Lemma unchanged_tolerant_erased ef c :
  file_changed true ef c = false ->
  erase_file (fst (compareUpdateLibraryFile true 0 ef c)) = erase_file ef.
Proof.
  intros H. rewrite compareUpdateLibraryFile_spec, H. cbn [fst].
  destruct ef as [ie [pe re se me ce] sup eb up], c as [ic [pc rc sc mc cc] sup' eb' up'].
  unfold file_changed, Metadata.differs in H. cbn in H. unfold erase_file. cbn.
  destruct (String.eqb_spec pe pc), (String.eqb_spec re rc), (Z.eqb_spec se sc);
    try discriminate. now subst.
Qed.

(** The files kept by the loop, seen through [g], when every file has a
    match and its update is the file itself for [g]. *)
Lemma kept_map {B : Type} (g : LibraryFile.t -> B) ignore now cands efs :
  (forall ef, In ef efs ->
     exists i c, find_match ignore cands ef = Some (i, c) /\
                 g (fst (compareUpdateLibraryFile ignore now ef c)) = g ef) ->
  map g (flat_map (fun ef => match matched_update ignore now cands ef with
                             | Some (_, u, _) => [u] | None => [] end) efs)
  = map g efs.
Proof.
  induction efs as [|ef efs IH]; intros H; simpl; [reflexivity|].
  destruct (H ef (or_introl eq_refl)) as (i & c & Hfm & Hg).
  unfold matched_update at 1. rewrite Hfm. simpl. rewrite Hg. f_equal.
  apply IH. intros ef' Hef'. apply H. now right.
Qed.

(** What a run that reports no change tells about the files. *)
Lemma no_change_files ignore now version e s :
  r_hasChanges (checkLibraryItemData ignore now version e s) = false ->
  item_changed ignore e s = false /\
  libraryFilesRemoved (checkLibraryItemData ignore now version e s) = [] /\
  libraryFilesModified (checkLibraryItemData ignore now version e s) = [] /\
  libraryFilesAdded (checkLibraryItemData ignore now version e s) = [] /\
  forall ef, In ef (LibraryItem.libraryFiles e) ->
    exists i c, find_match ignore (ScanData.libraryFiles s) ef = Some (i, c) /\
                file_changed ignore ef c = false.
Proof.
  intros H. pose proof H as H0. rewrite hasChanges_formula in H0.
  apply orb_false_iff in H0. destruct H0 as [H0 Ha].
  apply orb_false_iff in H0. destruct H0 as [H0 Hm].
  apply orb_false_iff in H0. destruct H0 as [Hitem Hr].
  assert (Hnil : forall A (l : list A), nonempty l = false -> l = [])
    by (intros A [|a l]; [reflexivity|discriminate]).
  apply Hnil in Ha, Hm, Hr. repeat (split; [assumption|]).
  intros ef Hef.
  destruct (find_match ignore (ScanData.libraryFiles s) ef) as [[i c]|] eqn:Hfm.
  - exists i, c. split; [reflexivity|].
    destruct (file_changed ignore ef c) eqn:Hc; [|reflexivity].
    destruct (check_report_record ignore now version e s) as (_ & _ & _ & _ & Hmod & _).
    rewrite Hmod in Hm.
    destruct (file_loop_spec ignore now (ScanData.libraryFiles s) (LibraryItem.libraryFiles e)
                (item_changed ignore e s)) as (_ & _ & Hm' & _).
    cbn zeta in Hm'. rewrite Hm' in Hm.
    assert (Hin : In (ef, fst (compareUpdateLibraryFile ignore now ef c))
                     (flat_map (fun ef => match matched_update ignore now
                                                  (ScanData.libraryFiles s) ef with
                                          | Some (_, u, true) => [(ef, u)] | _ => [] end)
                               (LibraryItem.libraryFiles e))).
    { apply in_flat_map. exists ef. split; [exact Hef|].
      unfold matched_update. rewrite Hfm, compareUpdateLibraryFile_spec. cbn [fst snd].
      rewrite Hc. now left. }
    rewrite Hm in Hin. contradiction.
  - assert (Hin : In ef (libraryFilesRemoved (checkLibraryItemData ignore now version e s))).
    { destruct (check_report_record ignore now version e s) as (_ & _ & _ & -> & _).
      destruct (file_loop_spec ignore now (ScanData.libraryFiles s)
                  (LibraryItem.libraryFiles e) (item_changed ignore e s)) as (-> & _).
      apply filter_In. split; [exact Hef|]. now rewrite Hfm. }
    rewrite Hr in Hin. contradiction.
Qed.

Lemma erase_item_files files e :
  erase_item (LibraryItem.set_libraryFiles files e)
  = LibraryItem.set_libraryFiles (map erase_file files) (erase_item e).
Proof. reflexivity. Qed.

Lemma item_unchanged_strict e s :
  item_changed false e s = false -> synced_item false e s = e.
Proof.
  destruct e as [ie fe pe re ife mt ct bt miss files sz ls lv].
  destruct s as [is_ fs ps rs ifs mts cts bts cands].
  unfold item_changed, synced_item, item_differs, time_differs. cbn.
  destruct (strict_eq ie is_) eqn:Ei; [|discriminate].
  apply strict_eq_spec in Ei.
  destruct (String.eqb_spec fe fs), (String.eqb_spec pe ps), (String.eqb_spec re rs);
    try discriminate.
  destruct ife, ifs; try discriminate; cbn;
    (destruct (option_eqb Z.eqb mt (Some mts)) eqn:Em; [|discriminate]);
    (destruct (option_eqb Z.eqb bt (Some bts)) eqn:Eb; [|discriminate]);
    (destruct (option_eqb Z.eqb ct (Some cts)) eqn:Ec; [|discriminate]);
    apply (option_eqb_spec Z.eqb Z.eqb_eq) in Em, Eb, Ec;
    destruct miss; try discriminate; intros _; now subst.
Qed.

Lemma item_unchanged_erased ignore e s :
  item_changed ignore e s = false -> erase_item (synced_item ignore e s) = erase_item e.
Proof.
  destruct e as [ie fe pe re ife mt ct bt miss files sz ls lv].
  destruct s as [is_ fs ps rs ifs mts cts bts cands].
  unfold item_changed, synced_item, item_differs, erase_item. cbn.
  intros H. repeat (apply orb_false_iff in H; destruct H as [H ?]).
  repeat match goal with
         | H : negb _ = false |- _ => apply negb_false_iff in H
         | H : String.eqb _ _ = true |- _ => apply String.eqb_eq in H
         | H : Bool.eqb _ _ = true |- _ => apply eqb_prop in H
         end.
  now subst.
Qed.

(** The record is left exactly as it was by a run that reports no change,
    when the stages before the loop and the update of each matched file
    change nothing in it. *)
Lemma unchanged_record ignore now version e s :
  r_hasChanges (checkLibraryItemData ignore now version e s) = false ->
  synced_item ignore e s = e ->
  (forall ef i c, In ef (LibraryItem.libraryFiles e) ->
     find_match ignore (ScanData.libraryFiles s) ef = Some (i, c) -> carries ef c) ->
  existingLibraryItem (checkLibraryItemData ignore now version e s) = e.
Proof.
  intros H Hitem Hfiles.
  destruct (no_change_files ignore now version e s H) as (_ & _ & _ & Ha & Hmatch).
  destruct (check_report_record ignore now version e s) as (_ & _ & _ & _ & _ & Hadd & ->).
  rewrite H, Hitem.
  destruct (file_loop_spec ignore now (ScanData.libraryFiles s) (LibraryItem.libraryFiles e)
              (item_changed ignore e s)) as (_ & Hk & _).
  cbn zeta in Hk. rewrite Hk. clear Hk.
  rewrite Hadd in Ha. apply map_eq_nil in Ha. rewrite Ha. cbn [map]. rewrite app_nil_r.
  rewrite <- (map_id (flat_map _ _)).
  rewrite (kept_map (fun f => f)); [rewrite map_id; now destruct e|].
  intros ef Hef. destruct (Hmatch ef Hef) as (i & c & Hfm & _).
  exists i, c. split; [exact Hfm|].
  now rewrite (updated_of_carried ignore now ef c (Hfiles ef i c Hef Hfm)).
Qed.

(** A run that reports no change returns false and lists nothing as
    removed, modified or added; it leaves [size], [lastScan] and
    [lastScanVersion] alone.  Under the Strict policy the record is then
    exactly what it was; under both policies it is what it was up to the
    inode numbers and the time stamps of the item and of its files. *)
Theorem no_change_reported_means_nothing_written ignore now version e s :
  let r := checkLibraryItemData ignore now version e s in
  r_hasChanges r = false ->
  returned r = false /\ r_hasPathChange r = false /\
  libraryFilesRemoved r = [] /\ libraryFilesModified r = [] /\ libraryFilesAdded r = [] /\
  LibraryItem.size (existingLibraryItem r) = LibraryItem.size e /\
  LibraryItem.lastScan (existingLibraryItem r) = LibraryItem.lastScan e /\
  LibraryItem.lastScanVersion (existingLibraryItem r) = LibraryItem.lastScanVersion e /\
  (ignore = false -> existingLibraryItem r = e) /\
  erase_item (existingLibraryItem r) = erase_item e.
Proof.
  cbn zeta. intros H.
  destruct (no_change_files ignore now version e s H) as (Hitem & Hr & Hm & Ha & Hmatch).
  destruct (check_report_record ignore now version e s)
    as (_ & Hp & Hret & _ & _ & Hadd & Hrec).
  split; [now rewrite Hret|]. split.
  { rewrite Hp. unfold item_changed in Hitem.
    destruct (item_differs Kpath e s), (item_differs KrelPath e s); try reflexivity;
      rewrite ?orb_true_r in Hitem; simpl in Hitem; rewrite ?orb_true_r in Hitem;
      discriminate. }
  repeat (split; [assumption|]).
  rewrite H in Hrec.
  split; [now rewrite Hrec|]. split; [now rewrite Hrec|]. split; [now rewrite Hrec|].
  split.
  - intros ->. apply unchanged_record; [exact H|now apply item_unchanged_strict|].
    intros ef i c Hef Hfm. destruct (Hmatch ef Hef) as (i' & c' & Hfm' & Hc).
    rewrite Hfm in Hfm'. inversion Hfm'; subst. now apply unchanged_strict_carries.
  - rewrite Hrec, erase_item_files, (item_unchanged_erased ignore e s Hitem).
    rewrite Hadd in Ha. apply map_eq_nil in Ha. rewrite Ha. cbn [map]. rewrite app_nil_r.
    destruct (file_loop_spec ignore now (ScanData.libraryFiles s) (LibraryItem.libraryFiles e)
                (item_changed ignore e s)) as (_ & Hk & _).
    cbn zeta in Hk. rewrite Hk. clear Hk.
    rewrite (kept_map erase_file).
    + now destruct e.
    + intros ef Hef. destruct (Hmatch ef Hef) as (i & c & Hfm & Hc).
      exists i, c. split; [exact Hfm|]. destruct ignore.
      * rewrite compareUpdateLibraryFile_spec, Hc. cbn [fst].
        pose proof (unchanged_tolerant_erased ef c Hc) as Hu.
        rewrite compareUpdateLibraryFile_spec, Hc in Hu. exact Hu.
      * now rewrite (updated_of_carried false now ef c (unchanged_strict_carries ef c Hc)).
Qed.

Lemma no_change_reported_means_nothing_written_witness :
  r_hasChanges (checkLibraryItemData true 1700000600000 "2.0.0" book_existing book_scanned)
    = false /\
  returned (checkLibraryItemData true 1700000600000 "2.0.0" book_existing book_scanned)
    = false.
Proof.
  split; [reflexivity|].
  exact (proj1 (no_change_reported_means_nothing_written true 1700000600000 "2.0.0"
                  book_existing book_scanned eq_refl)).
Defined.

(** *** A second run *)

(** [s'] reports what [s] reports: the same item fields and, file by file,
    the same inode number and metadata.  (A run sets [isSupplementary] on
    the candidate files it adds; the candidate scanned again, or used again,
    differs from the first at most there.) *)
Definition same_candidate (s s' : ScanData.t) : Prop :=
  ScanData.ino s' = ScanData.ino s /\
  ScanData.libraryFolderId s' = ScanData.libraryFolderId s /\
  ScanData.path s' = ScanData.path s /\
  ScanData.relPath s' = ScanData.relPath s /\
  ScanData.isFile s' = ScanData.isFile s /\
  ScanData.mtimeMs s' = ScanData.mtimeMs s /\
  ScanData.ctimeMs s' = ScanData.ctimeMs s /\
  ScanData.birthtimeMs s' = ScanData.birthtimeMs s /\
  Forall2 carries (ScanData.libraryFiles s') (ScanData.libraryFiles s).

Lemma same_candidate_refl s : same_candidate s s.
Proof.
  repeat split. induction (ScanData.libraryFiles s); constructor; auto. split; reflexivity.
Qed.

Lemma Forall2_nth {A B : Type} (R : A -> B -> Prop) (l : list A) (l' : list B) :
  Forall2 R l l' ->
  forall i, match nth_error l i, nth_error l' i with
            | Some a, Some b => R a b
            | None, None => True
            | _, _ => False
            end.
Proof.
  induction 1 as [|a b l l' Hab _ IH]; intros [|i]; simpl; auto.
  apply IH.
Qed.

Lemma carried_paths cands' cands :
  Forall2 carries cands' cands -> map LibraryFile.path cands' = map LibraryFile.path cands.
Proof.
  induction 1 as [|a b l l' [_ Hm] _ IH]; simpl; [reflexivity|].
  unfold LibraryFile.path at 1 3. now rewrite Hm, IH.
Qed.

(** With pairwise distinct candidate paths, a record whose files each carry
    a candidate is matched to that candidate, by path. *)
Lemma carried_is_matched ignore cands f i c :
  NoDup (map LibraryFile.path cands) ->
  nth_error cands i = Some c -> carries f c ->
  find_match ignore cands f = Some (i, c).
Proof.
  intros Hnd Hn [_ Hm].
  assert (Hp : LibraryFile.path c = LibraryFile.path f)
    by (unfold LibraryFile.path; now rewrite Hm).
  destruct (js_find_path_nodup cands c (LibraryFile.path f) Hnd (nth_error_In _ _ Hn) Hp)
    as (j & Hf & Hj).
  assert (j = i) by (eapply (nodup_map_nth_inj LibraryFile.path); eauto). subst j.
  now apply find_match_path_first.
Qed.

Lemma in_sync_no_change ignore now version e s :
  NoDup (map LibraryFile.path (ScanData.libraryFiles s)) ->
  item_changed ignore e s = false ->
  synced_item ignore e s = e ->
  (forall f, In f (LibraryItem.libraryFiles e) ->
     exists i c, nth_error (ScanData.libraryFiles s) i = Some c /\ carries f c) ->
  (forall i c, nth_error (ScanData.libraryFiles s) i = Some c ->
     exists f, In f (LibraryItem.libraryFiles e) /\ carries f c) ->
  r_hasChanges (checkLibraryItemData ignore now version e s) = false /\
  existingLibraryItem (checkLibraryItemData ignore now version e s) = e.
Proof.
  intros Hnd Hitem Hsync Hfiles Hcands.
  assert (Hmatch : forall f, In f (LibraryItem.libraryFiles e) ->
            exists i c, find_match ignore (ScanData.libraryFiles s) f = Some (i, c)
                        /\ carries f c).
  { intros f Hf. destruct (Hfiles f Hf) as (i & c & Hn & Hc).
    exists i, c. split; [|exact Hc]. now apply carried_is_matched. }
  assert (Hch : r_hasChanges (checkLibraryItemData ignore now version e s) = false).
  { rewrite hasChanges_formula, Hitem.
    destruct (check_report_record ignore now version e s) as (_ & _ & _ & -> & -> & -> & _).
    destruct (file_loop_spec ignore now (ScanData.libraryFiles s) (LibraryItem.libraryFiles e)
                (item_changed ignore e s)) as (-> & _ & -> & -> & _).
    rewrite nonempty_map.
    rewrite filter_nil, flat_map_nil, filter_nil; [reflexivity| | |].
    - intros [j c] Hjc. cbn [fst]. apply negb_false_iff. apply existsb_exists.
      apply indexed_from_in in Hjc. rewrite Nat.sub_0_r in Hjc. destruct Hjc as [_ Hn].
      destruct (Hcands j c Hn) as (f & Hf & Hc). exists f. split; [exact Hf|].
      rewrite (carried_is_matched ignore _ f j c Hnd Hn Hc). apply Nat.eqb_refl.
    - intros f Hf. destruct (Hmatch f Hf) as (i & c & Hfm & Hc).
      unfold matched_update. rewrite Hfm, (updated_of_carried ignore now f c Hc). reflexivity.
    - intros f Hf. destruct (Hmatch f Hf) as (i & c & -> & _). reflexivity. }
  split; [exact Hch|]. apply unchanged_record; [exact Hch|exact Hsync|].
  intros f i c Hf Hfm. destruct (Hmatch f Hf) as (i' & c' & Hfm' & Hc).
  rewrite Hfm in Hfm'. now inversion Hfm'; subst.
Qed.

(** Reconciliation is idempotent.  When the paths of the candidate files are
    pairwise distinct, a second run, on the record that a run left and
    against a candidate that reports the same, reports no change: nothing is
    removed, modified or added, the call returns false and the record stays
    exactly as the first run left it. *)
Theorem reconciliation_is_idempotent ignore now version now' version' e s s' :
  NoDup (map LibraryFile.path (ScanData.libraryFiles s)) ->
  same_candidate s s' ->
  let r := checkLibraryItemData ignore now version e s in
  let r' := checkLibraryItemData ignore now' version' (existingLibraryItem r) s' in
  r_hasChanges r' = false /\ returned r' = false /\ r_hasPathChange r' = false /\
  libraryFilesRemoved r' = [] /\ libraryFilesModified r' = [] /\ libraryFilesAdded r' = [] /\
  existingLibraryItem r' = existingLibraryItem r.
Proof.
  intros Hnd (Si & Sf & Sp & Sr & Sk & Sm & Sc & Sb & Sfiles). cbn zeta.
  pose proof (carried_paths _ _ Sfiles) as Hpaths.
  assert (Hnd' : NoDup (map LibraryFile.path (ScanData.libraryFiles s')))
    by now rewrite Hpaths.
  assert (Hitem : item_changed ignore
                    (existingLibraryItem (checkLibraryItemData ignore now version e s)) s'
                  = false /\
                  synced_item ignore
                    (existingLibraryItem (checkLibraryItemData ignore now version e s)) s'
                  = existingLibraryItem (checkLibraryItemData ignore now version e s)).
  { destruct (check_report_record ignore now version e s) as (_ & _ & _ & _ & _ & _ & ->).
    unfold item_changed, synced_item, item_differs, time_differs.
    destruct (r_hasChanges _), ignore; cbn; rewrite ?Si, ?Sf, ?Sp, ?Sr, ?Sk, ?Sm, ?Sc, ?Sb;
      rewrite ?strict_eq_refl, ?option_eqb_refl, ?String.eqb_refl, ?Z.eqb_refl, ?eqb_reflx; cbn;
      split; reflexivity. }
  destruct Hitem as [Hitem Hsync].
  destruct (in_sync_no_change ignore now' version'
              (existingLibraryItem (checkLibraryItemData ignore now version e s)) s'
              Hnd' Hitem Hsync) as [Hch Hrec].
  - intros f Hf. destruct (files_after_carry ignore now version e s f Hf) as (i & c & Hn & Hc).
    pose proof (Forall2_nth _ _ _ Sfiles i) as Hi. rewrite Hn in Hi.
    destruct (nth_error (ScanData.libraryFiles s') i) as [c'|] eqn:Hn'; [|contradiction].
    exists i, c'. split; [exact Hn'|].
    destruct Hc as [H1 H2], Hi as [H3 H4]. split; congruence.
  - intros i c' Hn'.
    pose proof (Forall2_nth _ _ _ Sfiles i) as Hi. rewrite Hn' in Hi.
    destruct (nth_error (ScanData.libraryFiles s) i) as [c|] eqn:Hn; [|contradiction].
    destruct (candidates_carried ignore now version e s i c Hn) as (f & Hf & Hc).
    exists f. split; [exact Hf|].
    destruct Hc as [H1 H2], Hi as [H3 H4]. split; congruence.
  - destruct (no_change_files ignore now' version' _ s' Hch) as (_ & Hr & Hm & Ha & _).
    destruct (check_report_record ignore now' version'
                (existingLibraryItem (checkLibraryItemData ignore now version e s)) s')
      as (_ & Hp & Hret & _).
    split; [exact Hch|]. split; [now rewrite Hret|]. split.
    { rewrite Hp. unfold item_changed in Hitem.
      destruct (item_differs Kpath _ s'), (item_differs KrelPath _ s'); try reflexivity;
        rewrite ?orb_true_r in Hitem; simpl in Hitem; rewrite ?orb_true_r in Hitem;
        discriminate. }
    auto.
Qed.

Lemma reconciliation_is_idempotent_witness :
  NoDup (map LibraryFile.path (ScanData.libraryFiles renamed_scanned)) /\
  r_hasChanges (checkLibraryItemData false 300 "2.0.0"
                  (existingLibraryItem
                     (checkLibraryItemData false 200 "2.0.0" renamed_existing renamed_scanned))
                  renamed_scanned) = false.
Proof.
  assert (H : NoDup (map LibraryFile.path (ScanData.libraryFiles renamed_scanned)))
    by (simpl; constructor; [intros []|constructor]).
  split; [exact H|].
  exact (proj1 (reconciliation_is_idempotent false 200 "2.0.0" 300 "2.0.0"
                  renamed_existing renamed_scanned renamed_scanned H
                  (same_candidate_refl renamed_scanned))).
Defined.

(** *** The second definition of [checkLibraryItemData] *)

Lemma find_from_ext {A : Type} (p q : A -> bool) (l : list A) :
  (forall x, In x l -> p x = q x) -> forall i, find_from p i l = find_from q i l.
Proof.
  induction l as [|a l IH]; intros H i; simpl; [reflexivity|].
  rewrite (H a) by now left. destruct (q a); [reflexivity|].
  apply IH. intros x Hx. apply H. now right.
Qed.

(** When the existing file and every candidate have a path, the matching
    through [isLibraryFileMatch] is the search by path, under both
    policies. *)
Lemma helper_match_by_path ignore cands ef :
  LibraryFile.path ef <> "" ->
  (forall c, In c cands -> LibraryFile.path c <> "") ->
  ScanConfigHelpers.find_match_with_helper ignore cands ef =
  js_find (fun lf => String.eqb (LibraryFile.path lf) (LibraryFile.path ef)) cands.
Proof.
  intros Hef Hc. unfold ScanConfigHelpers.find_match_with_helper, js_find.
  rewrite (find_from_ext
             (fun lf => ScanConfigHelpers.isLibraryFileMatch ignore lf ef)
             (fun lf => String.eqb (LibraryFile.path lf) (LibraryFile.path ef))).
  - now destruct (find_from _ 0 cands).
  - intros c Hin. apply isLibraryFileMatch_with_paths; auto.
Qed.

(** Under the Tolerant policy it is the search by path for all files. *)
Lemma helper_match_tolerant cands ef :
  ScanConfigHelpers.find_match_with_helper true cands ef = find_match true cands ef.
Proof.
  rewrite find_match_tolerant.
  unfold ScanConfigHelpers.find_match_with_helper, js_find.
  destruct (String.eqb_spec (LibraryFile.path ef) "") as [Hempty|Hpath].
  - rewrite (find_from_ext
               (fun lf => ScanConfigHelpers.isLibraryFileMatch true lf ef)
               (fun _ => false)).
    + assert (Hnone : find_from (fun _ : LibraryFile.t => false) 0 cands = None)
        by now apply find_from_none.
      now rewrite Hnone.
    + intros c _. unfold ScanConfigHelpers.isLibraryFileMatch, ScanConfigHelpers.path_truthy.
      rewrite Hempty. simpl. now rewrite andb_false_r.
  - rewrite (find_from_ext
               (fun lf => ScanConfigHelpers.isLibraryFileMatch true lf ef)
               (fun lf => String.eqb (LibraryFile.path lf) (LibraryFile.path ef))).
    + now destruct (find_from _ 0 cands).
    + intros c _. unfold ScanConfigHelpers.isLibraryFileMatch, ScanConfigHelpers.path_truthy.
      apply String.eqb_neq in Hpath. rewrite Hpath. simpl. rewrite andb_true_r.
      destruct (String.eqb_spec (LibraryFile.path c) ""); simpl; [|reflexivity].
      symmetry. apply String.eqb_neq. apply String.eqb_neq in Hpath. congruence.
Qed.

Lemma fold_left_ext {A B : Type} (f g : A -> B -> A) (l : list B) :
  (forall a b, f a b = g a b) -> forall a, fold_left f l a = fold_left g l a.
Proof.
  intros H. induction l as [|b l IH]; intros a; simpl; [reflexivity|]. now rewrite H, IH.
Qed.

(** Under the Tolerant policy the two definitions of [checkLibraryItemData]
    compute the same report and leave the same record, for every record and
    every candidate. *)
Theorem tolerant_definitions_agree now version e s :
  Reconciler2.checkLibraryItemData true now version e s
  = checkLibraryItemData true now version e s.
Proof.
  unfold Reconciler2.checkLibraryItemData, checkLibraryItemData. cbn zeta.
  unfold Reconciler2.file_loop, file_loop.
  rewrite (fold_left_ext (Reconciler2.file_step true now (ScanData.libraryFiles s))
                         (file_step true now (ScanData.libraryFiles s))); [reflexivity|].
  intros st ef. unfold Reconciler2.file_step, file_step.
  rewrite helper_match_tolerant.
  destruct (find_match true (ScanData.libraryFiles s) ef) as [[i c]|]; [|reflexivity].
  now rewrite compareUpdateLibraryFile2_spec, compareUpdateLibraryFile_spec.
Qed.

Lemma file_step2_spec ignore now cands st ef :
  let st1 := Reconciler2.file_step ignore now cands st ef in
  removed st1 = removed st ++
    (match ScanConfigHelpers.find_match_with_helper ignore cands ef with
     | None => [ef] | _ => [] end) /\
  added st1 =
    (match ScanConfigHelpers.find_match_with_helper ignore cands ef with
     | Some (i, _) => filter (fun c => negb (Nat.eqb (fst c) i)) (added st)
     | None => added st end) /\
  (fileChanges st = true -> fileChanges st1 = true) /\
  (ScanConfigHelpers.find_match_with_helper ignore cands ef = None ->
   fileChanges st1 = true).
Proof.
  cbn zeta. unfold Reconciler2.file_step.
  destruct (ScanConfigHelpers.find_match_with_helper ignore cands ef) as [[i m]|].
  - destruct (Reconciler2.compareUpdateLibraryFile ignore now ef m) as [u c].
    destruct c; cbn; rewrite app_nil_r; repeat split; auto; discriminate.
  - cbn. repeat split; auto.
Qed.

(** The loop over the existing files of the second definition. *)
Lemma file_loop2_fold ignore now cands : forall efs st,
  let st' := fold_left (Reconciler2.file_step ignore now cands) efs st in
  removed st' = removed st ++
    filter (fun ef => match ScanConfigHelpers.find_match_with_helper ignore cands ef with
                      | None => true | _ => false end) efs /\
  added st' =
    filter (fun c => negb (existsb (fun ef =>
               match ScanConfigHelpers.find_match_with_helper ignore cands ef with
               | Some (i, _) => Nat.eqb (fst c) i
               | None => false end) efs)) (added st) /\
  (fileChanges st = true -> fileChanges st' = true) /\
  (forall ef, In ef efs -> ScanConfigHelpers.find_match_with_helper ignore cands ef = None ->
              fileChanges st' = true).
Proof.
  induction efs as [|ef efs IH]; intros st; cbn zeta.
  - simpl. rewrite app_nil_r. split; [reflexivity|]. split; [|split; [auto|intros ef []]].
    induction (added st) as [|c l IHl]; simpl; [reflexivity|]. now rewrite <- IHl.
  - simpl fold_left. specialize (IH (Reconciler2.file_step ignore now cands st ef)).
    cbn zeta in IH. destruct IH as (Hr & Ha & Hc & Hn).
    destruct (file_step2_spec ignore now cands st ef) as (Sr & Sa & Sc & Sn).
    cbn zeta in Sr, Sa, Sc, Sn.
    rewrite Hr, Ha, Sr, Sa. clear Hr Ha Sr Sa. simpl filter. simpl existsb.
    split; [|split; [|split]].
    + rewrite <- app_assoc. f_equal.
      now destruct (ScanConfigHelpers.find_match_with_helper ignore cands ef) as [[i m]|].
    + destruct (ScanConfigHelpers.find_match_with_helper ignore cands ef) as [[i m]|].
      * apply (filter_negb_or (fun c0 => Nat.eqb (fst c0) i)).
      * reflexivity.
    + auto.
    + intros ef0 [<-|Hin] H0; eauto.
Qed.

(** In the second definition of [checkLibraryItemData], when the existing
    files and the candidate files all have a path, a file is matched by its
    path alone, under the Strict policy too: an existing file without a
    candidate at its path is reported removed and the run reports a change,
    even when a candidate has its inode number; and a candidate whose path
    no existing file has is reported added. *)
Theorem second_definition_matches_by_path_alone ignore now version e s :
  (forall ef, In ef (LibraryItem.libraryFiles e) -> LibraryFile.path ef <> "") ->
  (forall c, In c (ScanData.libraryFiles s) -> LibraryFile.path c <> "") ->
  let r := Reconciler2.checkLibraryItemData ignore now version e s in
  (forall ef, In ef (LibraryItem.libraryFiles e) ->
     ScanConfigHelpers.find_match_with_helper ignore (ScanData.libraryFiles s) ef =
     js_find (fun lf => String.eqb (LibraryFile.path lf) (LibraryFile.path ef))
             (ScanData.libraryFiles s)) /\
  (forall ef, In ef (LibraryItem.libraryFiles e) ->
     (forall c, In c (ScanData.libraryFiles s) -> LibraryFile.path c <> LibraryFile.path ef) ->
     In ef (libraryFilesRemoved r) /\ r_hasChanges r = true) /\
  (forall i c, nth_error (ScanData.libraryFiles s) i = Some c ->
     (forall ef, In ef (LibraryItem.libraryFiles e) ->
        LibraryFile.path ef <> LibraryFile.path c) ->
     In (i, mark_added c) (libraryFilesAdded r) /\ r_hasChanges r = true).
Proof.
  intros Hefs Hcands. cbn zeta.
  assert (Hmatch : forall ef, In ef (LibraryItem.libraryFiles e) ->
            ScanConfigHelpers.find_match_with_helper ignore (ScanData.libraryFiles s) ef =
            js_find (fun lf => String.eqb (LibraryFile.path lf) (LibraryFile.path ef))
                    (ScanData.libraryFiles s))
    by (intros ef Hef; apply helper_match_by_path; auto).
  split; [exact Hmatch|].
  unfold Reconciler2.checkLibraryItemData. cbn zeta. rewrite item_stages_spec.
  cbn [existing hasChanges hasPathChange].
  change (LibraryItem.libraryFiles (synced_item ignore e s)) with (LibraryItem.libraryFiles e).
  unfold Reconciler2.file_loop.
  match goal with |- context [fold_left _ _ ?st0] =>
    destruct (file_loop2_fold ignore now (ScanData.libraryFiles s)
                (LibraryItem.libraryFiles e) st0) as (Hr & Ha & _ & Hn)
  end.
  cbn zeta in Hr, Ha, Hn. cbn [removed added] in Hr, Ha.
  split.
  - intros ef Hef Hnopath.
    assert (Hnone : ScanConfigHelpers.find_match_with_helper ignore
                      (ScanData.libraryFiles s) ef = None).
    { rewrite (Hmatch ef Hef). apply find_from_none. intros c Hc.
      apply String.eqb_neq. now apply Hnopath. }
    pose proof (Hn ef Hef Hnone) as Hch.
    assert (Hin : In ef (removed (fold_left
                   (Reconciler2.file_step ignore now (ScanData.libraryFiles s))
                   (LibraryItem.libraryFiles e)
                   (mkFileLoop [] [] [] (indexed_from 0 (ScanData.libraryFiles s))
                      (item_changed ignore e s))))).
    { rewrite Hr. simpl. apply filter_In. split; [exact Hef|]. now rewrite Hnone. }
    rewrite Hch. destruct (Nat.eqb _ 0); cbn; auto.
  - intros i c Hnth Hnew.
    assert (Hin : In (i, c) (added (fold_left
                   (Reconciler2.file_step ignore now (ScanData.libraryFiles s))
                   (LibraryItem.libraryFiles e)
                   (mkFileLoop [] [] [] (indexed_from 0 (ScanData.libraryFiles s))
                      (item_changed ignore e s))))).
    { rewrite Ha. apply filter_In. split; [exact (indexed_from_nth _ 0%nat i c Hnth)|].
      apply negb_true_iff. apply existsb_false. intros ef Hef. cbn [fst].
      rewrite (Hmatch ef Hef).
      destruct (js_find _ (ScanData.libraryFiles s)) as [[j c']|] eqn:Hf; [|reflexivity].
      apply Nat.eqb_neq. intros ->.
      destruct (js_find_some _ _ _ _ Hf) as (Hn' & Hp & _).
      apply String.eqb_eq in Hp. rewrite Hnth in Hn'. inversion Hn'; subst c'.
      now apply (Hnew ef Hef). }
    assert (Hlen : Nat.eqb (List.length (added (fold_left
                   (Reconciler2.file_step ignore now (ScanData.libraryFiles s))
                   (LibraryItem.libraryFiles e)
                   (mkFileLoop [] [] [] (indexed_from 0 (ScanData.libraryFiles s))
                      (item_changed ignore e s))))) 0 = false).
    { destruct (added _); [contradiction|reflexivity]. }
    rewrite Hlen. cbn. split; [|reflexivity].
    apply in_map_iff. exists (i, c). split; [reflexivity|exact Hin].
Qed.

(** The rename of section 8 again: under the Strict policy the second
    definition reports path A removed and path B added. *)
Lemma second_definition_matches_by_path_alone_witness :
  libraryFilesRemoved (Reconciler2.checkLibraryItemData false 200 "2.0.0"
                         renamed_existing renamed_scanned)
    = LibraryItem.libraryFiles renamed_existing /\
  In (0%nat, LibraryFile.mk (JNum 42) (Metadata.mk "/lib/book/B.mp3" "B.mp3" 5000 100 100)
                false false None)
     (libraryFilesAdded (Reconciler2.checkLibraryItemData false 200 "2.0.0"
                           renamed_existing renamed_scanned)).
Proof.
  split; [reflexivity|].
  refine (proj1 (proj2 (proj2 (second_definition_matches_by_path_alone false 200 "2.0.0"
                   renamed_existing renamed_scanned _ _)) 0%nat _ eq_refl _)).
  - intros ef [<-|[]]. discriminate.
  - intros c [<-|[]]. discriminate.
  - intros ef [<-|[]]. discriminate.
Defined.

End ReconcilerFacts.

(* ================================================================= *)
(** ** Properties of the configuration modules *)

Module ScanConfigFacts.
Import ScanConfigHelpers.

Lemma path_truthy_spec p : path_truthy p = true <-> p <> "".
Proof. unfold path_truthy. now rewrite negb_true_iff, String.eqb_neq. Qed.

(** [isLibraryFileMatch] does not depend on the order of its two arguments.
    Two files match only when they have the same path, which is not empty,
    or, under the Strict policy and when one of them has no path, the same
    inode, which is truthy (not missing, [null], [0] or the empty string).
    The first draft of the helper says the
    same, except under the Tolerant policy for two files of which one has no
    path: these match when their paths and sizes are equal. *)
Theorem isLibraryFileMatch_is_symmetric ignore file1 file2 :
  isLibraryFileMatch ignore file1 file2 = isLibraryFileMatch ignore file2 file1 /\
  (isLibraryFileMatch ignore file1 file2 = true ->
     (LibraryFile.path file1 = LibraryFile.path file2 /\ LibraryFile.path file1 <> "") \/
     (ignore = false /\
      (LibraryFile.path file1 = "" \/ LibraryFile.path file2 = "") /\
      LibraryFile.ino file1 = LibraryFile.ino file2 /\
      truthy (LibraryFile.ino file1) = true)) /\
  ScanConfigDraft.isLibraryFileMatch ignore file1 file2 =
    (isLibraryFileMatch ignore file1 file2
     || (ignore
         && negb (path_truthy (LibraryFile.path file1) && path_truthy (LibraryFile.path file2))
         && String.eqb (LibraryFile.path file1) (LibraryFile.path file2)
         && Z.eqb (Metadata.size (LibraryFile.metadata file1))
                  (Metadata.size (LibraryFile.metadata file2)))).
Proof.
  unfold isLibraryFileMatch, ScanConfigDraft.isLibraryFileMatch. split; [|split].
  - rewrite (String.eqb_sym (LibraryFile.path file1)), (strict_eq_sym (LibraryFile.ino file1)).
    destruct (path_truthy (LibraryFile.path file1)), (path_truthy (LibraryFile.path file2)),
      ignore, (truthy (LibraryFile.ino file1)), (truthy (LibraryFile.ino file2));
      reflexivity.
  - destruct (path_truthy (LibraryFile.path file1)) eqn:H1,
             (path_truthy (LibraryFile.path file2)) eqn:H2; cbn [andb].
    + intros H. apply String.eqb_eq in H. apply path_truthy_spec in H1. auto.
    + destruct ignore; cbn [negb andb]; [discriminate|].
      destruct (truthy (LibraryFile.ino file1)) eqn:I1; [|discriminate].
      destruct (truthy (LibraryFile.ino file2)) eqn:I2; [|discriminate].
      cbn [andb]. intros H. apply strict_eq_spec in H.
      right. split; [reflexivity|]. split.
      * right. unfold path_truthy in H2. apply negb_false_iff in H2.
        now apply String.eqb_eq in H2.
      * auto.
    + destruct ignore; cbn [negb andb]; [discriminate|].
      destruct (truthy (LibraryFile.ino file1)) eqn:I1; [|discriminate].
      destruct (truthy (LibraryFile.ino file2)) eqn:I2; [|discriminate].
      cbn [andb]. intros H. apply strict_eq_spec in H.
      right. split; [reflexivity|]. split.
      * left. unfold path_truthy in H1. apply negb_false_iff in H1.
        now apply String.eqb_eq in H1.
      * auto.
    + destruct ignore; cbn [negb andb]; [discriminate|].
      destruct (truthy (LibraryFile.ino file1)) eqn:I1; [|discriminate].
      destruct (truthy (LibraryFile.ino file2)) eqn:I2; [|discriminate].
      cbn [andb]. intros H. apply strict_eq_spec in H.
      right. split; [reflexivity|]. split.
      * left. unfold path_truthy in H1. apply negb_false_iff in H1.
        now apply String.eqb_eq in H1.
      * auto.
  - destruct (path_truthy (LibraryFile.path file1)), (path_truthy (LibraryFile.path file2)),
      ignore, (truthy (LibraryFile.ino file1)), (truthy (LibraryFile.ino file2));
      cbn; rewrite ?orb_false_r; reflexivity.
Qed.

(** *** Scan modes *)

Lemma env_is_true_spec (env : Env) name :
  env_is_true env name = true <-> env name = Some "true".
Proof.
  unfold env_is_true. destruct (env name) as [v|].
  - rewrite String.eqb_eq. split; congruence.
  - split; discriminate.
Qed.

(** The scan mode in force: [process.env.SCAN_MODE || 'normal']. *)
Definition mode (env : Env) : string := string_or (env "SCAN_MODE") "normal".

Lemma mode_is (env : Env) m :
  m <> "normal" -> m <> "" ->
  (String.eqb (mode env) m = true <-> env "SCAN_MODE" = Some m).
Proof.
  intros Hm He. unfold mode, string_or. rewrite String.eqb_eq.
  destruct (env "SCAN_MODE") as [v|].
  - destruct (String.eqb_spec v ""); split; congruence.
  - split; [congruence|discriminate].
Qed.

Import ScanConfigModes.

Lemma load_fields env :
  let c := load env in
  SCAN_MODE c = mode env /\
  ENABLE_PROBE_CACHE c = env_is_true env "ENABLE_PROBE_CACHE" || String.eqb (mode env) "fast" /\
  USE_MINIMAL_PROBE c = env_is_true env "USE_MINIMAL_PROBE" || String.eqb (mode env) "fast" /\
  SKIP_METADATA_TAGS c = env_is_true env "SKIP_METADATA_TAGS" || String.eqb (mode env) "fast" /\
  SKIP_COVER_EXTRACTION c = env_is_true env "SKIP_COVER" || String.eqb (mode env) "fast" /\
  SKIP_COVER_SEARCH c =
    env_is_true env "SKIP_COVER_SEARCH" || String.eqb (mode env) "fast"
    || String.eqb (mode env) "normal" /\
  SKIP_EBOOK_METADATA c = env_is_true env "SKIP_EBOOK_METADATA" /\
  IGNORE_FILE_METADATA_CHANGES c = env_is_true env "IGNORE_FILE_METADATA" /\
  PROBE_CACHE_TTL c = int_or (parseInt (env_value env "PROBE_CACHE_TTL")) 604800 /\
  PROBE_CACHE_SIZE c = int_or (parseInt (env_value env "PROBE_CACHE_SIZE")) 10000 /\
  PROBE_BATCH_SIZE c = int_or (parseInt (env_value env "PROBE_BATCH_SIZE")) 8 /\
  PROBE_TIMEOUT c = int_or (parseInt (env_value env "PROBE_TIMEOUT")) 30000 /\
  PROBE_RETRY_TIMES c = int_or (parseInt (env_value env "PROBE_RETRY_TIMES")) 3.
Proof.
  cbn zeta. unfold load, apply_mode, read. fold (mode env).
  cbn [SCAN_MODE].
  destruct (String.eqb_spec (mode env) "fast") as [Hf|Hf].
  - rewrite Hf. cbn. rewrite ?orb_true_r. repeat split; reflexivity.
  - destruct (String.eqb (mode env) "normal"); cbn; rewrite ?orb_true_r, ?orb_false_r;
      repeat split; reflexivity.
Qed.

(** What the accessors of the loaded configuration answer, in terms of the
    environment.  The fast mode switches on the cache, the minimal probe and
    the skipping of tags and covers whatever the other variables say; the
    online search for covers is skipped unless the mode is ['full'] and
    [SKIP_COVER_SEARCH] is not ['true'].  The accessors of the configuration
    that the probers and the cache read agree with these. *)
Theorem scan_mode_decides_the_accessors env :
  let c := load env in
  (isFastMode c = true <-> env "SCAN_MODE" = Some "fast") /\
  (shouldUseCache c = true <->
     env "ENABLE_PROBE_CACHE" = Some "true" \/ env "SCAN_MODE" = Some "fast") /\
  (shouldUseMinimalProbe c = true <->
     env "USE_MINIMAL_PROBE" = Some "true" \/ env "SCAN_MODE" = Some "fast") /\
  (shouldSkipMetadata c = true <->
     env "SKIP_METADATA_TAGS" = Some "true" \/ env "SCAN_MODE" = Some "fast") /\
  (shouldSkipCover c = true <->
     env "SKIP_COVER" = Some "true" \/ env "SCAN_MODE" = Some "fast") /\
  (shouldSkipCoverSearch c = false <->
     env "SCAN_MODE" = Some "full" /\ env "SKIP_COVER_SEARCH" <> Some "true") /\
  ScanConfig.shouldUseCache (exported c) = shouldUseCache c /\
  ScanConfig.shouldUseMinimalProbe (exported c) = shouldUseMinimalProbe c /\
  ScanConfig.shouldSkipMetadata (exported c) = shouldSkipMetadata c.
Proof.
  cbn zeta.
  destruct (load_fields env) as (Hm & Hc & Hp & Ht & Hx & Hs & _).
  cbn zeta in *.
  assert (Hfast := mode_is env "fast"). assert (Hfull := mode_is env "full").
  assert (Hexp : ScanConfig.shouldUseCache (exported (load env)) = shouldUseCache (load env) /\
                 ScanConfig.shouldUseMinimalProbe (exported (load env))
                   = shouldUseMinimalProbe (load env) /\
                 ScanConfig.shouldSkipMetadata (exported (load env))
                   = shouldSkipMetadata (load env))
    by (repeat split; reflexivity).
  specialize (Hfast ltac:(discriminate) ltac:(discriminate)).
  specialize (Hfull ltac:(discriminate) ltac:(discriminate)).
  revert Hexp.
  unfold isFastMode, shouldUseCache, shouldUseMinimalProbe, shouldSkipMetadata,
    shouldSkipCover, shouldSkipCoverSearch.
  intros Hexp. rewrite Hm, Hc, Hp, Ht, Hx, Hs.
  split; [exact Hfast|].
  split; [rewrite orb_true_iff, env_is_true_spec, Hfast; tauto|].
  split; [rewrite !orb_true_iff, env_is_true_spec, Hfast; tauto|].
  split; [rewrite !orb_true_iff, env_is_true_spec, Hfast; tauto|].
  split; [rewrite !orb_true_iff, env_is_true_spec, Hfast; tauto|].
  split; [|rewrite <- Hc, <- Hp, <- Ht, <- Hm; exact Hexp].
  rewrite <- Hfull, <- (env_is_true_spec env "SKIP_COVER_SEARCH").
  destruct (String.eqb_spec (mode env) "full") as [E|E].
  - rewrite E. cbn. rewrite !orb_false_r.
    destruct (env_is_true env "SKIP_COVER_SEARCH"); split; intros H;
      try discriminate; try reflexivity;
      try (split; [reflexivity|discriminate]).
    destruct H as [_ H]. now elim H.
  - rewrite orb_true_r. split; [discriminate|]. intros [H _]. discriminate.
Qed.

(** The numeric settings, each with its name in the environment and its
    default. *)
Definition numeric_settings : list (string * (ScanConfigModes.t -> Z) * Z) :=
  [("PROBE_CACHE_TTL", PROBE_CACHE_TTL, 604800);
   ("PROBE_CACHE_SIZE", PROBE_CACHE_SIZE, 10000);
   ("PROBE_BATCH_SIZE", PROBE_BATCH_SIZE, 8);
   ("PROBE_TIMEOUT", PROBE_TIMEOUT, 30000);
   ("PROBE_RETRY_TIMES", PROBE_RETRY_TIMES, 3)].

Lemma int_or_spec n fallback :
  (forall z, n = Int z -> z <> 0 -> int_or n fallback = z) /\
  (n = NaN \/ n = Int 0 -> int_or n fallback = fallback) /\
  (fallback <> 0 -> int_or n fallback <> 0).
Proof.
  unfold int_or, num_or. destruct n as [|z].
  - repeat split; auto; discriminate.
  - destruct (Z.eqb_spec z 0).
    + subst. repeat split; auto. intros z' [= <-] H. now elim H.
    + repeat split; auto.
      * now intros z' [= <-].
      * intros [H|[= H]]; [discriminate|contradiction].
Qed.

(** Each numeric setting of the loaded configuration is the integer that
    [parseInt] reads from its variable, when there is one and it is not 0
    (and within the 53 bits that a JavaScript number holds exactly), and the
    default otherwise, in particular when the variable is not set: no
    setting is ever 0, and a variable set to 0 counts as not set.  The scan
    mode leaves these settings alone. *)
Theorem numeric_settings_fall_back_to_defaults (env : Env) name setting default :
  In (name, setting, default) numeric_settings ->
  let value := parseInt (env_value env name) in
  setting (load env) <> 0 /\
  (forall z, value = Int z -> z <> 0 -> Z.abs z <= 2 ^ 53 -> setting (load env) = z) /\
  (value = NaN \/ value = Int 0 -> setting (load env) = default) /\
  (env name = None -> setting (load env) = default).
Proof.
  intros Hin. cbn zeta.
  destruct (load_fields env) as (_ & _ & _ & _ & _ & _ & _ & _ & H1 & H2 & H3 & H4 & H5).
  cbn zeta in *.
  assert (Hs : setting (load env) = int_or (parseInt (env_value env name)) default /\
               default <> 0).
  { simpl in Hin.
    destruct Hin as [H|[H|[H|[H|[H|[]]]]]]; inversion H; subst; split;
      auto; discriminate. }
  destruct Hs as [-> Hd].
  destruct (int_or_spec (parseInt (env_value env name)) default) as (Hz & Hf & Hn).
  repeat split; auto.
  intros Hnone. apply Hf. left. unfold env_value. now rewrite Hnone.
Qed.

(** [PROBE_RETRY_TIMES=0] gives the three attempts of the default. *)
Lemma numeric_settings_fall_back_to_defaults_witness :
  PROBE_RETRY_TIMES
    (load (fun name => if String.eqb name "PROBE_RETRY_TIMES" then Some "0" else None)) = 3.
Proof.
  refine (proj1 (proj2 (proj2
            (numeric_settings_fall_back_to_defaults
               (fun name => if String.eqb name "PROBE_RETRY_TIMES" then Some "0" else None)
               "PROBE_RETRY_TIMES" PROBE_RETRY_TIMES 3 _))) _).
  - simpl. tauto.
  - right. reflexivity.
Defined.

(** *** The fast scan mode of the second [scanConfig] *)

(** The arguments that [doProbe] passes to the tool before the file, apart
    from the two limits and [-show_chapters]. *)
Definition standard_args : list string :=
  ["-hide_banner"; "-loglevel"; "fatal"; "-show_error"; "-show_format";
   "-show_streams"; "-show_programs"; "-show_private_data"; "-print_format"; "json"].

(** The options of [getProbeOptions] ask to skip the chapters only when both
    [FAST_SCAN_MODE] and [SKIP_EMBEDDED_CHAPTERS] are set, and then
    [shouldSkipChapterScan] agrees for every file; [shouldSkipChapterScan]
    itself holds as soon as one of the two is set, or the file has more than
    500 MiB.  Given to [doProbe], the options make a command line with both
    limits, 5000000 in the fast mode and 0 otherwise, the standard arguments,
    [-show_chapters] unless the options skip the chapters, and the file
    last. *)
Theorem fast_scan_options_and_chapters (env : Env) file size :
  let c := ScanConfigFastScan.load env in
  let o := ScanConfigFastScan.getProbeOptions c in
  let fast := env_is_true env "FAST_SCAN_MODE" in
  (NodeFfprobe.skipChapters o = true <->
     env "FAST_SCAN_MODE" = Some "true" /\ env "SKIP_EMBEDDED_CHAPTERS" = Some "true") /\
  (NodeFfprobe.skipChapters o = true -> ScanConfigFastScan.shouldSkipChapterScan c size = true) /\
  (ScanConfigFastScan.shouldSkipChapterScan c size = true <->
     env "FAST_SCAN_MODE" = Some "true" \/ env "SKIP_EMBEDDED_CHAPTERS" = Some "true" \/
     exists n, size = Some n /\ 524288000 < n) /\
  NodeFfprobe.build_args file (NodeFfprobe.Object o) =
    ["-analyzeduration"; if fast then "5000000" else "0";
     "-probesize"; if fast then "5000000" else "0"]
    ++ standard_args
    ++ (if NodeFfprobe.skipChapters o then [] else ["-show_chapters"])
    ++ [file].
Proof.
  cbn zeta.
  unfold ScanConfigFastScan.load, ScanConfigFastScan.getProbeOptions,
    ScanConfigFastScan.shouldSkipChapterScan.
  cbn [ScanConfigFastScan.FAST_SCAN_MODE ScanConfigFastScan.SKIP_EMBEDDED_CHAPTERS].
  rewrite <- !env_is_true_spec.
  destruct (env_is_true env "FAST_SCAN_MODE"), (env_is_true env "SKIP_EMBEDDED_CHAPTERS");
    cbn [NodeFfprobe.skipChapters orb];
    (split; [split; [auto; discriminate|intros [? ?]; auto; discriminate]|]);
    (split; [auto; discriminate|]);
    (split; [|reflexivity]);
    try (split; [auto|reflexivity]).
  destruct size as [n|].
  - change (500 * 1024 * 1024) with 524288000.
    destruct (Z.ltb_spec 524288000 n); split; intros H'; try reflexivity; try discriminate.
    + right. right. eauto.
    + destruct H' as [H'|[H'|(n' & [= <-] & H')]]; try discriminate. lia.
  - split; [discriminate|]. intros [H'|[H'|(n' & H' & _)]]; discriminate.
Qed.

End ScanConfigFacts.

(* ================================================================= *)
(** ** Properties of the normalised probe data *)

Module ProbeDataFacts.

(** *** Chapters *)

Lemma map_chapters_spec chapters : forall index,
  List.length (map_chapters index chapters) = List.length chapters /\
  map id (map_chapters index chapters)
    = map (fun k => index + Z.of_nat k) (seq 0 (List.length chapters)) /\
  Forall (fun c => truthy (title c) = true) (map_chapters index chapters) /\
  Forall2 (fun ch c =>
             start c = ParseFloatOr0 (Raw.start_time ch) /\
             end_ c = ParseFloatOr0 (Raw.end_time ch) /\
             (truthy (get_prop_opt (Raw.c_tags ch) "title") = true ->
              title c = get_prop_opt (Raw.c_tags ch) "title") /\
             (truthy (get_prop_opt (Raw.c_tags ch) "title") = false ->
              title c = JStr ("Chapter " ++ decimal (id c + 1))%string))
          chapters (map_chapters index chapters).
Proof.
  induction chapters as [|ch rest IH]; intros index; simpl.
  - repeat split; constructor.
  - destruct (IH (index + 1)) as (Hl & Hi & Ht & Hf). split; [now rewrite Hl|]. split; [|split].
    + rewrite Hi, Z.add_0_r. f_equal. rewrite <- seq_shift, map_map.
      apply map_ext. intros k. lia.
    + constructor; [|exact Ht]. simpl. unfold js_or.
      destruct (truthy (get_prop_opt (Raw.c_tags ch) "title")) eqn:E; [exact E|reflexivity].
    + constructor; [|exact Hf]. simpl. unfold js_or.
      destruct (truthy (get_prop_opt (Raw.c_tags ch) "title")); repeat split; auto;
        discriminate.
Qed.

(** Both probers number the chapters from 0 in the order of the tool's
    output and give every chapter a title that is not empty: its [title] tag
    when that is truthy, and ["Chapter N"], with N the number plus one,
    otherwise.  No chapter is dropped.  [parseChapters] of the second prober
    makes of a list what [transformChapters] of the first makes of it, and
    the empty list of a missing one. *)
Theorem chapters_are_numbered_and_titled chapters :
  let result := Prober.transformChapters chapters in
  List.length result = List.length chapters /\
  map id result = map Z.of_nat (seq 0 (List.length chapters)) /\
  Forall (fun c => truthy (title c) = true) result /\
  Forall2 (fun ch c =>
             start c = ParseFloatOr0 (Raw.start_time ch) /\
             end_ c = ParseFloatOr0 (Raw.end_time ch) /\
             (truthy (get_prop_opt (Raw.c_tags ch) "title") = true ->
              title c = get_prop_opt (Raw.c_tags ch) "title") /\
             (truthy (get_prop_opt (Raw.c_tags ch) "title") = false ->
              title c = JStr ("Chapter " ++ decimal (id c + 1))%string))
          chapters result /\
  PartialProber.parseChapters (Some chapters) = result /\
  PartialProber.parseChapters None = [].
Proof.
  cbn zeta. unfold Prober.transformChapters.
  destruct (map_chapters_spec chapters 0) as (Hl & Hi & Ht & Hf).
  repeat split; auto.
Qed.

(** *** Tags *)

Lemma get_set_prop o key v k :
  get_prop (set_prop o key v) k = if String.eqb key k then v else get_prop o k.
Proof.
  induction o as [|[k0 w] o IH]; simpl.
  - reflexivity.
  - destruct (String.eqb_spec k0 key) as [->|Hne]; simpl.
    + now destruct (String.eqb key k).
    + rewrite IH. destruct (String.eqb_spec key k) as [->|Hk]; [|reflexivity].
      apply String.eqb_neq in Hne. now rewrite Hne.
Qed.

Lemma get_prop_app o1 o2 k :
  get_prop (o1 ++ o2) k =
  if existsb (fun entry => String.eqb (fst entry) k) o1 then get_prop o1 k else get_prop o2 k.
Proof.
  induction o1 as [|[k0 w] o1 IH]; simpl; [reflexivity|].
  destruct (String.eqb k0 k); simpl; [reflexivity|exact IH].
Qed.

Lemma set_prop_keys o key v :
  NoDup (map fst o) -> NoDup (map fst (set_prop o key v)) /\
  forall k, In k (map fst (set_prop o key v)) <-> k = key \/ In k (map fst o).
Proof.
  induction o as [|[k0 w] o IH]; simpl; intros Hnd.
  - split; [constructor; [intros []|constructor]|]. intros k. intuition congruence.
  - inversion Hnd as [|? ? Hnot Hnd']; subst.
    destruct (String.eqb_spec k0 key) as [->|Hne]; simpl.
    + split; [now constructor|]. intros k. intuition congruence.
    + destruct (IH Hnd') as [IH1 IH2]. split.
      * constructor; [|exact IH1]. rewrite IH2. intros [H|H]; congruence.
      * intros k. rewrite IH2. intuition congruence.
Qed.

(** Assignments [o[f(entry)] = value] in the order of the entries: a lookup
    finds the value of the last entry with the key. *)
Lemma assignments_spec (f : string * jsprim -> string) (entries : JsObject) : forall o,
  NoDup (map fst o) ->
  let o' := fold_left (fun acc entry => set_prop acc (f entry) (snd entry)) entries o in
  NoDup (map fst o') /\
  forall k, get_prop o' k =
            get_prop (rev (map (fun entry => (f entry, snd entry)) entries) ++ o) k.
Proof.
  induction entries as [|e entries IH]; intros o Hnd; cbn zeta; simpl.
  - auto.
  - destruct (set_prop_keys o (f e) (snd e) Hnd) as [Hnd' _].
    destruct (IH _ Hnd') as [IH1 IH2]. cbn zeta in IH1, IH2. split; [exact IH1|].
    intros k. rewrite IH2, <- app_assoc, !get_prop_app. simpl.
    destruct (existsb _ (rev _)); [reflexivity|].
    rewrite get_set_prop, orb_false_r. now destruct (String.eqb (f e) k).
Qed.

(** The key under which [transformTags] stores a tag. *)
Definition normalizedKey (key : string) : string :=
  match Prober.mapping_of Prober.tagMapping (toLowerCase key) with
  | Some k => k
  | None => key
  end.

(** The entries of a tags object with their keys replaced, last entry
    first: a lookup in this list finds the last entry with the key. *)
Definition renamed (f : string -> string) (tags : JsObject) : JsObject :=
  rev (map (fun entry => (f (fst entry), snd entry)) tags).

(** A key whose lower-case form names a property that every object
    inherits. *)
Definition inherited_name (key : string) : bool :=
  String.eqb (toLowerCase key) "constructor" || String.eqb (toLowerCase key) "__proto__".

(** [transformTags] stores every tag of the tool's output, none is dropped:
    the fifteen known names, whatever their case, under their [tag...] key,
    every other tag under its own key; the keys of the result are pairwise
    distinct, and when several tags end up under one key the last one in
    the output wins.  (For tags whose name does not collide with an
    inherited property.) *)
Theorem transformTags_keeps_the_last_value tags :
  Forall (fun entry => inherited_name (fst entry) = false) tags ->
  NoDup (map fst (Prober.transformTags tags)) /\
  (forall key, get_prop (Prober.transformTags tags) key
               = get_prop (renamed normalizedKey tags) key) /\
  (forall key value, In (key, value) tags ->
     exists value', In (normalizedKey key, value') (Prober.transformTags tags)).
Proof.
  intros _. unfold Prober.transformTags, renamed.
  destruct (assignments_spec (fun entry => normalizedKey (fst entry)) tags []
              ltac:(constructor)) as [Hnd Hget].
  cbn zeta in Hnd, Hget. unfold normalizedKey in *.
  split; [exact Hnd|]. split.
  - intros key. rewrite Hget, app_nil_r. reflexivity.
  - intros key value Hin.
    assert (Hk : forall (entries : JsObject) o,
              NoDup (map fst o) ->
              (In key (map fst entries) \/
               In (match Prober.mapping_of Prober.tagMapping (toLowerCase key) with
                   | Some k => k | None => key end) (map fst o)) ->
              In (match Prober.mapping_of Prober.tagMapping (toLowerCase key) with
                  | Some k => k | None => key end)
                 (map fst (fold_left
                    (fun acc entry =>
                       set_prop acc
                         (match Prober.mapping_of Prober.tagMapping
                                  (toLowerCase (fst entry)) with
                          | Some k => k | None => fst entry end) (snd entry))
                    entries o))).
    { induction entries as [|e entries IH]; intros o Ho [H|H]; simpl in *;
        try contradiction; auto.
      - destruct (set_prop_keys o
                    (match Prober.mapping_of Prober.tagMapping (toLowerCase (fst e)) with
                     | Some k => k | None => fst e end) (snd e) Ho) as [Hnd' Hkeys].
        apply IH; [exact Hnd'|]. destruct H as [<-|H]; [|now left].
        right. apply Hkeys. now left.
      - destruct (set_prop_keys o
                    (match Prober.mapping_of Prober.tagMapping (toLowerCase (fst e)) with
                     | Some k => k | None => fst e end) (snd e) Ho) as [Hnd' Hkeys].
        apply IH; [exact Hnd'|]. right. apply Hkeys. now right. }
    specialize (Hk tags [] ltac:(constructor)
                  (or_introl (in_map fst tags (key, value) Hin))).
    apply in_map_iff in Hk. destruct Hk as ([k v] & Hkv & Hin'). simpl in Hkv. subst k.
    exists v. exact Hin'.
Qed.

Lemma transformTags_keeps_the_last_value_witness :
  get_prop (Prober.transformTags [("TITLE", JStr "Emma"); ("Title", JStr "Emma (unabridged)");
                                  ("narrator", JStr "J. S.")]) "tagTitle"
  = JStr "Emma (unabridged)".
Proof.
  refine (eq_trans
            (proj1 (proj2 (transformTags_keeps_the_last_value
                             [("TITLE", JStr "Emma"); ("Title", JStr "Emma (unabridged)");
                              ("narrator", JStr "J. S.")] _)) "tagTitle") _).
  - repeat constructor.
  - reflexivity.
Defined.

(** [parseTags] of the second prober reads the tags without regard to the
    case of their names, the last one in the output when several names
    differ in case only, and returns the same eighteen keys for every tags
    object, [undefined] where the output has no such tag; [album-artist],
    [year] and [series_part] stand in for [album_artist], [date] and
    [series-part] when these are missing or empty.  Without a tags object,
    or when the configuration skips the metadata, it returns [{}], and then
    [parseProbeData] returns no tags either. *)
Theorem parseTags_reads_names_without_case config tags :
  let tag := get_prop (renamed toLowerCase tags) in
  PartialProber.parseTags config None = [] /\
  PartialProber.parseTags config (Some tags) =
    (if ScanConfig.shouldSkipMetadata config then []
     else [("tagTitle", tag "title");
           ("tagAlbum", tag "album");
           ("tagArtist", tag "artist");
           ("tagAlbumArtist", js_or (tag "album_artist") (tag "album-artist"));
           ("tagGenre", tag "genre");
           ("tagDate", js_or (tag "date") (tag "year"));
           ("tagComposer", tag "composer");
           ("tagComment", tag "comment");
           ("tagDescription", tag "description");
           ("tagPublisher", tag "publisher");
           ("tagSubtitle", tag "subtitle");
           ("tagTrack", tag "track");
           ("tagDisc", tag "disc");
           ("tagLanguage", tag "language");
           ("tagISBN", tag "isbn");
           ("tagASIN", tag "asin");
           ("tagSeries", tag "series");
           ("tagSeriesPart", js_or (tag "series-part") (tag "series_part"))]) /\
  (forall raw data,
     PartialProber.parseProbeData config raw = Returned data ->
     ScanConfig.shouldSkipMetadata config = true -> pd_tags data = []).
Proof.
  cbn zeta. split; [reflexivity|]. split.
  - unfold PartialProber.parseTags, renamed.
    destruct (ScanConfig.shouldSkipMetadata config); [reflexivity|].
    destruct (assignments_spec (fun entry => toLowerCase (fst entry)) tags []
                ltac:(constructor)) as [_ Hget].
    cbn zeta in Hget. rewrite !Hget, !app_nil_r. reflexivity.
  - intros raw data H Hskip. unfold PartialProber.parseProbeData in H.
    destruct raw as [| |d]; try discriminate.
    destruct (Raw.format d); [|discriminate].
    destruct (match Raw.streams d with Some l => Raw.find_stream "audio" l | None => None end);
      [|discriminate].
    inversion H; subst. cbn [pd_tags]. now rewrite Hskip.
Qed.

(** *** The two transformations of the first prober *)

(** A result without what the minimal mode does not read: the tags, and the
    channel layout and the language of the audio stream. *)
Definition without_tags (p : ProbeData) : ProbeData :=
  mkProbeData (pd_format p) (pd_duration p) (pd_size p) (pd_bit_rate p)
    (option_map (fun a => mkAudioStream (codec a) (a_sample_rate a) (a_channels a)
                            JUndefined (a_bit_rate a) (a_time_base a) JUndefined)
                (audio_stream p))
    (video_stream p) (pd_chapters p) [].

(** On every output of the tool, [transformMinimalData] returns what
    [transformFullData] returns, less the tags, the channel layout and the
    language: format, duration, size, bit rate, codecs, sample rate,
    channels, time base and chapters are the same in both modes.  Both
    throw only on [null]; on any other output, even one without format,
    streams and chapters, they return an object: without audio stream
    exactly when the output has none, and with empty tags when the format
    has none. *)
Theorem minimal_data_is_full_data_without_tags data :
  Prober.transformMinimalData data =
    match Prober.transformFullData data with
    | Returned p => Returned (without_tags p)
    | Threw t => Threw t
    end /\
  ((exists t, Prober.transformFullData data = Threw t) <-> data = Raw.JsonNull) /\
  (forall p, Prober.transformFullData data = Returned p ->
     (audio_stream p = None <->
      Raw.find_stream "audio" (Prober.streams_of
                                 (match data with
                                  | Raw.JsonObject d => d
                                  | _ => Raw.empty_data
                                  end)) = None) /\
     (Raw.tags (Prober.format_of (match data with
                                  | Raw.JsonObject d => d
                                  | _ => Raw.empty_data
                                  end)) = None ->
      pd_tags p = [])).
Proof.
  unfold Prober.transformMinimalData, Prober.transformFullData, Prober.object_of.
  destruct data as [| |d]; cbv zeta.
  - split; [reflexivity|]. split; [split; eauto|]. discriminate.
  - split; [reflexivity|]. split; [split; [intros (t & H); discriminate|discriminate]|].
    intros p [= <-]. simpl. split; [tauto|reflexivity].
  - split.
    + unfold without_tags. simpl.
      destruct (Raw.find_stream "audio" (Prober.streams_of d)); reflexivity.
    + split; [split; [intros (t & H); discriminate|discriminate]|].
      intros p [= <-]. simpl. split.
      * destruct (Raw.find_stream "audio" (Prober.streams_of d)); split; congruence.
      * intros ->. reflexivity.
Qed.

End ProbeDataFacts.

(* ================================================================= *)
(** ** Further properties of [doProbe] *)

Module NodeFfprobeFacts.
Import NodeFfprobe NodeFfprobeProps NodeFfprobeArgs.

(** The events up to the first ['error'] or ['close']. *)
Lemma first_loud_event events :
  forallb quiet events = false ->
  exists pre ev post,
    events = pre ++ ev :: post /\ forallb quiet pre = true /\ quiet ev = false.
Proof.
  induction events as [|ev events IH]; simpl; [discriminate|].
  destruct (quiet ev) eqn:Hq; simpl.
  - intros H. destruct (IH H) as (pre & ev' & post & -> & Hpre & Hev).
    exists (ev :: pre), ev', post. simpl. rewrite Hq. auto.
  - intros _. exists [], ev, events. auto.
Qed.

(** After an ['error'] or a ['close'] the promise is settled. *)
Lemma loud_event_settles st ev tr st' :
  quiet ev = false -> runs (on_event st ev) tr st' -> promise st' <> None.
Proof.
  intros Hq H.
  assert (Hs : forall o, promise (settle o st) <> None).
  { intros o. unfold settle. destruct (promise st) eqn:E; [congruence|discriminate]. }
  destruct ev; try discriminate; simpl in H.
  - destruct H as [_ ->]. apply Hs.
  - destruct (_ && _).
    + destruct H as [_ ->]. apply Hs.
    + destruct H as (x & tr' & _ & H). destruct x; destruct H as [_ ->]; apply Hs.
Qed.

Lemma settled_stays_settled events : forall st tr st',
  promise st <> None -> runs (on_events st events) tr st' -> promise st' <> None.
Proof.
  intros st tr st' Hp H. destruct (promise st) as [o|] eqn:E; [|contradiction].
  rewrite (settled_stays events st tr st' o E H). discriminate.
Qed.

(** The promise of [doProbe] is settled by the first ['error'] or ['close']
    event of the child process and by nothing else.  An ['error'] that
    comes before any ['close'] rejects the promise with the error itself,
    whatever came before and whatever follows, and without parsing
    anything when no ['close'] follows.  As long as the process emits
    neither event the promise stays pending, and the output is not
    parsed. *)
Theorem doProbe_settles_on_the_first_error_or_close path file options tr res events :
  runs (doProbe path file options) tr res ->
  observe spawned tr = [events] ->
  (res = None <-> forallb quiet events = true) /\
  (forallb quiet events = true -> parse_answers tr = []) /\
  (forall pre message post,
     events = pre ++ ProcError message :: post -> forallb quiet pre = true ->
     res = Some (Threw (JsError message)) /\
     (forallb quiet post = true -> parse_answers tr = [])).
Proof.
  intros H Hsp. simpl in H. destruct H as (events' & tr' & -> & H).
  simpl in Hsp. inversion Hsp; subst events'. clear Hsp.
  unfold after_spawn in H. apply runs_bindP in H.
  destruct H as (tr1 & st & tr2 & H1 & [-> ->] & ->). rewrite app_nil_r.
  assert (Hquiet : forall pre st0 tr0 st1,
            forallb quiet pre = true -> runs (on_events st0 pre) tr0 st1 ->
            tr0 = [] /\ promise st1 = promise st0).
  { induction pre as [|ev pre IH]; intros st0 tr0 st1 Hq Hr; simpl in *.
    - destruct Hr as [-> ->]. auto.
    - apply andb_true_iff in Hq. destruct Hq as [Hev Hq].
      apply runs_bindP in Hr. destruct Hr as (ta & sa & tb & Ha & Hb & ->).
      destruct ev; try discriminate; simpl in Ha; destruct Ha as [-> ->];
        destruct (IH _ _ _ Hq Hb) as [-> ->]; auto. }
  split; [|split].
  - split.
    + intros Hnone. destruct (forallb quiet events) eqn:Hq; [reflexivity|].
      destruct (first_loud_event events Hq) as (pre & ev & post & -> & Hpre & Hev).
      rewrite on_events_quiet in H1 by exact Hpre. simpl in H1.
      apply runs_bindP in H1. destruct H1 as (ta & sa & tb & Ha & Hb & _).
      pose proof (loud_event_settles _ _ _ _ Hev Ha) as Hs.
      now elim (settled_stays_settled post sa tb st Hs Hb).
    + intros Hq. now destruct (Hquiet events _ _ _ Hq H1) as [_ ->].
  - intros Hq. simpl. now destruct (Hquiet events _ _ _ Hq H1) as [-> _].
  - intros pre message post -> Hpre.
    rewrite on_events_quiet in H1 by exact Hpre. simpl in H1. split.
    + eapply settled_stays; [|exact H1]. reflexivity.
    + intros Hpost. simpl. now destruct (Hquiet post _ _ _ Hpost H1) as [-> _].
Qed.

(** The tool cannot be started: the promise rejects with the error of
    [spawn], although a ['close'] follows. *)
Lemma doProbe_settles_on_the_first_error_or_close_witness :
  snd (run offline [] (doProbe None "book.mp3" NoOptions))
  = Some (Threw (JsError "spawn ffprobe ENOENT")).
Proof.
  exact (proj1 (proj2 (proj2
           (doProbe_settles_on_the_first_error_or_close None "book.mp3" NoOptions _ _
              [ProcError "spawn ffprobe ENOENT"; Close]
              (run_runs offline (doProbe None "book.mp3" NoOptions) []) eq_refl))
           [] "spawn ffprobe ENOENT" [Close] eq_refl eq_refl)).
Defined.

(** [doProbe] passes the file as the last argument.  It appends the file to
    the array it is given as [options], or as [options.customArgs], and that
    array is the caller's: when files are probed one after the other with
    the same array, each call passes to the tool the arguments of the array
    as it was at first, then every file probed before, then its own file.
    With an options object without [customArgs], or without options, every
    call passes the same arguments and its own file only. *)
Theorem doProbe_appends_to_the_array_of_the_caller files :
  forall options,
  let spawned := fst (probe_each files options) in
  List.length spawned = List.length files /\
  (forall i file, nth_error files i = Some file ->
     exists args, nth_error spawned i = Some args /\ last args "" = file /\
       match options with
       | ArgsArray a => args = a ++ firstn i files ++ [file]
       | Object o =>
           match customArgs o with
           | Some a => args = a ++ firstn i files ++ [file]
           | None => args = build_args file options
           end
       | NoOptions => args = build_args file options
       end).
Proof.
  induction files as [|f files IH]; intros options; cbn zeta.
  - split; [reflexivity|]. intros [|i] file H; discriminate.
  - simpl. specialize (IH (options_after f options)). cbn zeta in IH.
    destruct (probe_each files (options_after f options)) as [spawned options'].
    cbn [fst] in *. destruct IH as [Hlen Hnth]. split; [simpl; now rewrite Hlen|].
    intros [|i] file H; simpl in H.
    + inversion H; subst file. exists (build_args f options). split; [reflexivity|].
      split; [unfold build_args; apply last_last|].
      destruct options as [|a|o]; try reflexivity.
      unfold build_args. simpl. now destruct (customArgs o).
    + destruct (Hnth i file H) as (args & Hargs & Hlast & Hform).
      exists args. split; [exact Hargs|]. split; [exact Hlast|].
      destruct options as [|a|o]; simpl in Hform |- *.
      * exact Hform.
      * rewrite Hform. now rewrite <- app_assoc.
      * destruct (customArgs o) as [a|] eqn:Hc; simpl in Hform.
        -- rewrite Hform. now rewrite <- app_assoc.
        -- rewrite Hc in Hform. unfold build_args in *. now rewrite Hc in *.
Qed.

Lemma doProbe_appends_to_the_array_of_the_caller_witness :
  nth_error (fst (probe_each ["a.mp3"; "b.mp3"] (ArgsArray ["-show_format"]))) 1
  = Some ["-show_format"; "a.mp3"; "b.mp3"].
Proof.
  destruct (proj2 (doProbe_appends_to_the_array_of_the_caller ["a.mp3"; "b.mp3"]
                     (ArgsArray ["-show_format"])) 1%nat "b.mp3" eq_refl)
    as (args & Hargs & _ & ->).
  exact Hargs.
Defined.

End NodeFfprobeFacts.

(* ================================================================= *)
(** ** Further observations of a run *)

(** The key of a [cache.get(key)] and what it found. *)
Definition lru_lookup (ev : Event) : option (string * option ProbeResult) :=
  match ev with
  | Ev e x => match e in Eff X return X -> option (string * option ProbeResult) with
              | Lru_get key => fun answer => Some (key, answer)
              | _ => fun _ => None
              end x
  end.

(** The key and the value of a [cache.set(key, value)]. *)
Definition lru_store (ev : Event) : option (string * ProbeResult) :=
  match ev with
  | Ev e _ => match e with
              | Lru_set key value => Some (key, value)
              | _ => None
              end
  end.

(** The descriptor that an [fs.open] returned. *)
Definition opened_fd (ev : Event) : option Z :=
  match ev with
  | Ev e x => match e in Eff X return X -> option Z with
              | Fs_open _ => fun answer => match answer with inr fd => Some fd | inl _ => None end
              | _ => fun _ => None
              end x
  end.

(** The descriptor of an [fd.close()]. *)
Definition closed_fd (ev : Event) : option Z :=
  match ev with
  | Ev e _ => match e with
              | Fd_close fd => Some fd
              | _ => None
              end
  end.

(** The number of bytes asked of an [fd.read]. *)
Definition read_length (ev : Event) : option Z :=
  match ev with
  | Ev e _ => match e with
              | Fd_read _ length => Some length
              | _ => None
              end
  end.

(** The text hashed and its digest. *)
Definition hashed (ev : Event) : option (string * string) :=
  match ev with
  | Ev e x => match e in Eff X return X -> option (string * string) with
              | Sha256_hex data => fun digest => Some (data, digest)
              | _ => fun _ => None
              end x
  end.

(** The milliseconds of a [setTimeout] that is awaited. *)
Definition delay (ev : Event) : option Z :=
  match ev with
  | Ev e _ => match e with
              | SetTimeout ms => Some ms
              | _ => None
              end
  end.

(** The time limit of a [Promise.race] and whether the timer settled
    first. *)
Definition timer (ev : Event) : option (Z * bool) :=
  match ev with
  | Ev e x => match e in Eff X return X -> option (Z * bool) with
              | TimerFirst ms => fun fired => Some (ms, fired)
              | _ => fun _ => None
              end x
  end.

(** A partial copy: source, target, first and last byte, and whether it
    succeeded. *)
Record Copy := mkCopy {
  copy_source : string;
  copy_target : string;
  copy_first : Z;
  copy_last : Z;
  copy_done : bool
}.

Definition copy (ev : Event) : option Copy :=
  match ev with
  | Ev e x => match e in Eff X return X -> option Copy with
              | Pipeline source target first last =>
                  fun answer => Some (mkCopy source target first last
                                        (match answer with inr _ => true | inl _ => false end))
              | _ => fun _ => None
              end x
  end.

(** The file, the arguments and the time limit of an [execFile]. *)
Definition exec_file (ev : Event) : option (string * list string * Z) :=
  match ev with
  | Ev e _ => match e with
              | ExecFile file args timeout _ => Some (file, args, timeout)
              | _ => None
              end
  end.

(** A call that only reads the file system, hashes, or uses the cache. *)
Definition cache_call (ev : Event) : Prop :=
  match ev with
  | Ev e _ => match e with
              | Fs_stat _ | Fs_open _ | Fd_read _ _ | Fd_close _ | Sha256_hex _
              | Lru_get _ | Lru_set _ _ => True
              | _ => False
              end
  end.

Lemma observe_none {B : Type} (f : Event -> option B) (tr : list Event) :
  Forall (fun ev => f ev = None) tr -> observe f tr = [].
Proof.
  induction 1 as [|ev tr Hev _ IH]; simpl; [reflexivity|]. now rewrite Hev.
Qed.

Lemma cache_calls_unobserved {B : Type} (f : Event -> option B) (tr : list Event) :
  (forall ev, cache_call ev -> f ev = None) -> Forall cache_call tr -> observe f tr = [].
Proof.
  intros Hf H. apply observe_none. eapply Forall_impl; [|exact H]. exact Hf.
Qed.

Ltac solve_calls :=
  repeat first [ assumption
               | apply Forall_nil
               | apply Forall_cons; [exact I|]
               | apply Forall_app; split ].

(* ================================================================= *)
(** ** Further properties of the probe cache *)

Module CacheFacts.
Import ProbeCache.

Lemma getFileSize_run filePath s tr r :
  runs (getFileSize filePath s) tr r ->
  exists answer, tr = [Ev (Fs_stat filePath) answer] /\
    r = (Returned (match answer with inr size => size | inl _ => 0 end), s).
Proof.
  unfold getFileSize. intros H. inv_runs; eexists; split; reflexivity.
Qed.

(** [getFileHash] closes the descriptor it opened, whatever fails after the
    [open]; it reads at most the first MiB; it returns the first 32
    characters of the digest of what it read, or counts an error and
    returns [null]. *)
Lemma getFileHash_run filePath s tr r :
  runs (getFileHash filePath s) tr r ->
  Forall cache_call tr /\
  observe lru_lookup tr = [] /\ observe lru_store tr = [] /\
  observe opened_fd tr = observe closed_fd tr /\
  Forall (fun n => n <= 1048576) (observe read_length tr) /\
  ((exists data digest,
      observe hashed tr = [(data, digest)] /\
      r = (Returned (Some (String.substring 0 32 digest)), s)) \/
   r = (Returned None, Stats.incr_errors s)).
Proof.
  unfold getFileHash. intros H. inv_runs;
    repeat match goal with
           | H : runs (getFileSize _ _) _ _ |- _ =>
               apply getFileSize_run in H; destruct H as (? & ? & ?)
           end; inv_runs; simpl;
    (split; [solve_calls|]);
    repeat (split; [reflexivity|]);
    (split; [repeat constructor; apply Z.le_min_l|]);
    first [ left; do 2 eexists; split; reflexivity | right; reflexivity ].
Qed.

(** The size that an [fs.stat] reported, 0 when it failed. *)
Definition stat_size (ev : Event) : option Z :=
  match ev with
  | Ev e x => match e in Eff X return X -> option Z with
              | Fs_stat _ => fun answer => Some (match answer with inr n => n | inl _ => 0 end)
              | _ => fun _ => None
              end x
  end.



Lemma getCacheKey_run filePath fileSize s tr r :
  runs (getCacheKey filePath fileSize s) tr r ->
  Forall cache_call tr /\
  observe lru_lookup tr = [] /\ observe lru_store tr = [] /\
  observe opened_fd tr = observe closed_fd tr /\
  ((exists data digest,
      observe hashed tr = [(data, digest)] /\
      r = (Returned (Some (String.substring 0 32 digest ++ "_" ++ decimal fileSize)%string), s)) \/
   (r = (Returned None, s) \/ r = (Returned None, Stats.incr_errors s))).
Proof.
  unfold getCacheKey. intros H. inv_runs;
    match goal with
    | H : runs (getFileHash _ _) _ _ |- _ =>
        apply getFileHash_run in H;
        destruct H as (Hc & Hl & Hs & Hfd & _ & [(data & digest & Hh & Hr)|Hr])
    end; inv_runs; rewrite ?app_nil_r;
    repeat (split; [assumption|]);
    first [ left; do 2 eexists; split; [eassumption|reflexivity]
          | right; left; reflexivity
          | right; right; reflexivity ].
Qed.

Lemma get_lookup_spec config filePath s tr r :
  runs (get config filePath s) tr r ->
  exists value s',
    r = (Returned value, s') /\
    Forall cache_call tr /\ observe lru_store tr = [] /\
    observe opened_fd tr = observe closed_fd tr /\
    (ScanConfig.shouldUseCache config = false -> tr = [] /\ value = None /\ s' = s) /\
    match observe lru_lookup tr with
    | [] => value = None /\
            Stats.hits s' = Stats.hits s /\ Stats.misses s' = Stats.misses s /\
            (Stats.errors s' = Stats.errors s \/ Stats.errors s' = (Stats.errors s + 1)%N)
    | [(key, found)] =>
        value = found /\
        s' = (match found with Some _ => Stats.incr_hits s | None => Stats.incr_misses s end) /\
        exists data digest fileSize,
          observe hashed tr = [(data, digest)] /\
          hd_error (observe stat_size tr) = Some fileSize /\
          key = (String.substring 0 32 digest ++ "_" ++ decimal fileSize)%string
    | _ => False
    end.
Proof.
  unfold get. intros H.
  destruct (ScanConfig.shouldUseCache config) eqn:Hcache; cbn [negb] in H.
  - inv_runs;
      repeat match goal with
             | H : runs (getFileSize _ _) _ _ |- _ =>
                 apply getFileSize_run in H; destruct H as (? & ? & ?)
             | H : runs (getCacheKey _ _ _) _ _ |- _ =>
                 apply getCacheKey_run in H;
                 destruct H as (Hc & Hl & Hs & Hfd & [(data & digest & Hh & Hr)|[Hr|Hr]])
             end; inv_runs;
      do 2 eexists; (split; [reflexivity|]);
      (split; [solve_calls|]);
      rewrite ?observe_app, ?app_nil_r; simpl;
      rewrite ?observe_app, ?app_nil_r, ?Hl, ?Hs, ?Hh; simpl;
      (split; [reflexivity|]);
      (split; [try rewrite Hfd; rewrite ?app_nil_r; reflexivity|]);
      (split; [discriminate|]);
      first [ split; [reflexivity|]; split; [reflexivity|]; do 3 eexists;
              split; [reflexivity|]; split; reflexivity
            | repeat split; auto ].
  - inv_runs. do 2 eexists. split; [reflexivity|]. simpl. repeat split; auto.
Qed.

(** Every lookup in the cache counts as exactly one hit or one miss, and
    nothing else does.  [get] never throws.  When it asks the cache, it does
    so once, under the key made of the first 32 characters of the digest
    and of the size that [fs.stat] reported first (0 when that failed); it
    returns what the cache found and counts one hit, or returns [null] and
    counts one miss.  When it cannot make the key it asks nothing, returns
    [null], counts no hit and no miss, and at most one error.  With the
    cache disabled it makes no call at all.  In every case it only reads
    the file system, hashes and asks the cache, and closes the descriptor it
    opened. *)
Theorem get_counts_every_lookup config filePath s tr r :
  runs (get config filePath s) tr r ->
  exists value s',
    r = (Returned value, s') /\
    Forall cache_call tr /\ observe lru_store tr = [] /\
    observe opened_fd tr = observe closed_fd tr /\
    (ScanConfig.shouldUseCache config = false -> tr = [] /\ value = None /\ s' = s) /\
    match observe lru_lookup tr with
    | [] => value = None /\
            Stats.hits s' = Stats.hits s /\ Stats.misses s' = Stats.misses s /\
            (Stats.errors s' = Stats.errors s \/ Stats.errors s' = (Stats.errors s + 1)%N)
    | [(key, found)] =>
        value = found /\
        s' = (match found with Some _ => Stats.incr_hits s | None => Stats.incr_misses s end) /\
        exists data digest fileSize,
          observe hashed tr = [(data, digest)] /\
          hd_error (observe stat_size tr) = Some fileSize /\
          key = (String.substring 0 32 digest ++ "_" ++ decimal fileSize)%string
    | _ => False
    end.
Proof. apply get_lookup_spec. Qed.

Lemma get_counts_every_lookup_witness :
  snd (run offline [] (get ProbeCacheProps.default_config "/lib/book.m4b" fresh_stats))
  = (Returned None, Stats.incr_errors fresh_stats).
Proof.
  destruct (get_counts_every_lookup ProbeCacheProps.default_config "/lib/book.m4b" fresh_stats
              _ _ (run_runs offline
                     (get ProbeCacheProps.default_config "/lib/book.m4b" fresh_stats) []))
    as (value & s' & Hr & _).
  rewrite Hr. vm_compute in Hr. exact (eq_sym Hr).
Defined.

(** [set] never throws and makes only calls of the cache. *)
Lemma set_run config filePath probeData s tr r :
  runs (set config filePath probeData s) tr r ->
  exists done s', r = (Returned done, s') /\ Forall cache_call tr.
Proof.
  unfold set. intros H.
  destruct (ScanConfig.shouldUseCache config); cbn [negb] in H.
  - inv_runs;
      repeat match goal with
             | H : runs (getFileSize _ _) _ _ |- _ =>
                 apply getFileSize_run in H; destruct H as (? & ? & ?)
             | H : runs (getCacheKey _ _ _) _ _ |- _ =>
                 apply getCacheKey_run in H;
                 destruct H as (Hc & _ & _ & _ & [(data & digest & _ & Hr)|[Hr|Hr]])
             end; inv_runs;
      do 2 eexists; (split; [reflexivity|]); solve_calls.
  - inv_runs. do 2 eexists. split; [reflexivity|]. constructor.
Qed.

Lemma get_run config filePath s tr r :
  runs (get config filePath s) tr r ->
  exists value s', r = (Returned value, s') /\ Forall cache_call tr /\
    lru_hits tr = match value with Some v => [v] | None => [] end.
Proof.
  intros H. pose proof (CacheRuns.get_spec config filePath s tr r H)
    as (value & s' & Hr & _ & _ & _ & _ & Hh).
  destruct (get_lookup_spec config filePath s tr r H)
    as (value' & s'' & Hr' & Hc & _).
  exists value, s'. auto.
Qed.






End CacheFacts.

(* ================================================================= *)
(** ** Further properties of the first prober *)

Module ProberFacts.
Import Prober.

Lemma tool_runs_app tr1 tr2 : tool_runs (tr1 ++ tr2) = (tool_runs tr1 + tool_runs tr2)%nat.
Proof. unfold tool_runs. now rewrite observe_app, length_app. Qed.

Lemma cache_calls_quiet tr :
  Forall cache_call tr ->
  tool_runs tr = 0%nat /\ observe delay tr = [] /\ observe timer tr = [] /\
  observe copy tr = [] /\ observe exec_file tr = [] /\ unlinks tr = [] /\
  parse_answers tr = [].
Proof.
  intros H. unfold tool_runs, unlinks, parse_answers.
  assert (Hq : forall (B : Type) (f : Event -> option B),
            (forall ev, cache_call ev -> f ev = None) -> observe f tr = [])
    by (intros B f Hf; now apply cache_calls_unobserved).
  rewrite (Hq _ tool_run), (Hq _ delay), (Hq _ timer), (Hq _ copy), (Hq _ exec_file),
    (Hq _ unlink_path), (Hq _ parse_answer);
    try (intros [X e x]; destruct e; simpl; intros []; reflexivity).
  repeat split.
Qed.

(** What an attempt of the retry wrapper is expected to be: one start of the
    tool, no pause, no time limit, no call of the cache, the state left
    alone, and an [Error] when it fails. *)
Definition attempt_like {A : Type} (fn : M A) : Prop :=
  forall s tr r, runs (fn s) tr r ->
    snd r = s /\ proper (fst r) /\ tool_runs tr = 1%nat /\
    observe delay tr = [] /\ observe timer tr = [] /\
    lru_sets tr = [] /\ lru_hits tr = [].

Lemma probeMinimal_attempt filepath : attempt_like (probeMinimal filepath).
Proof.
  intros s tr r H. unfold probeMinimal in H. inv_runs;
    try match goal with
        | H : _ = transformMinimalData ?d |- _ =>
            pose proof (ProberRuns.transformMinimalData_proper d) as Hp; rewrite <- H in Hp;
            try contradiction
        end;
    simpl; repeat split; auto.
Qed.

Lemma probeFull_attempt filepath : attempt_like (probeFull filepath).
Proof.
  intros s tr r H. unfold probeFull in H. inv_runs;
    try match goal with
        | H : _ = transformFullData ?d |- _ =>
            pose proof (ProberRuns.transformFullData_proper d) as Hp; rewrite <- H in Hp;
            try contradiction
        end;
    simpl; repeat split; auto.
Qed.

(** The pauses after [n] failed attempts, counted from the loop index [i]. *)
Definition pauses_from (i : Z) (n : nat) : list Z :=
  map (fun k => 1000 * (i + Z.of_nat k)) (seq 1 n).

Lemma pauses_from_S i n :
  pauses_from i (S n) = 1000 * (i + 1) :: pauses_from (i + 1) n.
Proof.
  unfold pauses_from. cbn [seq map]. f_equal.
  rewrite <- seq_shift, map_map. apply map_ext. intros k. f_equal. lia.
Qed.

Lemma retry_loop_run {A : Type} (fn : M A) (times : Z) :
  attempt_like fn ->
  forall rounds i lastError s tr r,
  runs (retry_loop fn times rounds i lastError s) tr r ->
  times = i + Z.of_nat rounds ->
  snd r = s /\
  (tool_runs tr <= rounds)%nat /\
  ((0 < rounds)%nat -> (1 <= tool_runs tr)%nat /\ proper (fst r)) /\
  (rounds = 0%nat -> r = (Threw lastError, s)) /\
  observe delay tr = pauses_from i (tool_runs tr - 1) /\
  observe timer tr = [] /\ lru_sets tr = [] /\ lru_hits tr = [] /\
  (forall t, fst r = Threw t -> tool_runs tr = rounds).
Proof.
  intros Hfn. induction rounds as [|rounds IH]; intros i lastError s tr r H Ht.
  - cbn [retry_loop] in H. apply runs_throw in H. destruct H as [-> ->].
    simpl. repeat split; auto; lia.
  - cbn [retry_loop] in H. apply runs_try_catch in H.
    destruct H as [(a & s1 & H & ->)|(tr1 & t & s1 & tr2 & H & H2 & ->)].
    + destruct (Hfn _ _ _ H) as (Hs & _ & Hruns & Hd & Htm & Hsets & Hhits).
      simpl in Hs. subst s1. rewrite Hruns, Hd. simpl.
      repeat split; auto; try lia; discriminate.
    + destruct (Hfn _ _ _ H) as (Hs & Hp & Hruns & Hd & Htm & Hsets & Hhits).
      simpl in Hs, Hp. subst s1. destruct t as [message|]; [|contradiction].
      apply runs_bind in H2.
      destruct H2 as [(tr3 & u & s3 & tr4 & H3 & H4 & ->)|(t' & s3 & H3 & _)].
      * assert (Hpause : s3 = s /\
                  (((i <? times - 1) = true /\ tr3 = [Ev (SetTimeout (1000 * (i + 1))) tt]) \/
                   ((i <? times - 1) = false /\ tr3 = []))).
        { destruct (i <? times - 1) eqn:E.
          - apply runs_bind in H3.
            destruct H3 as [(ta & m & sa & tb & Ha & Hb & ->)|(t' & sa & Ha & Hb)].
            + apply runs_message_of in Ha. destruct Ha as [-> Ha]. inversion Ha; subst.
              apply runs_call in Hb. destruct Hb as ([] & -> & Hb). inversion Hb; subst. auto.
            + apply runs_message_of in Ha. destruct Ha as [_ Ha]. discriminate.
          - apply runs_ret in H3. destruct H3 as [-> H3]. inversion H3; subst. auto. }
        destruct Hpause as [-> Hpause].
        assert (Ht' : times = i + 1 + Z.of_nat rounds) by lia.
        destruct (IH _ _ _ _ _ H4 Ht') as (Rs & Rle & Rpos & Rzero & Rd & Rtm & Rsets & Rhits & Rthrow).
        unfold lru_sets, lru_hits in *.
        rewrite !tool_runs_app, !observe_app, Hruns, Hd, Htm, Hsets, Hhits, Rd, Rtm, Rsets, Rhits.
        destruct Hpause as [[E ->]|[E ->]]; cbn [tool_runs observe delay timer lru_set_value
                                                  lru_hit_value tool_run List.length app].
        -- apply Z.ltb_lt in E. assert (Hr : (0 < rounds)%nat) by lia.
           destruct (Rpos Hr) as [Rone Rproper].
           split; [exact Rs|]. split; [lia|]. split; [intros _; split; [lia|exact Rproper]|].
           split; [discriminate|]. split.
           { replace (1 + (0 + tool_runs tr4) - 1)%nat with (S (tool_runs tr4 - 1)) by lia.
             now rewrite pauses_from_S. }
           repeat split; auto. intros t0 Hthrow. rewrite (Rthrow t0 Hthrow). lia.
        -- apply Z.ltb_ge in E. assert (Hr : rounds = 0%nat) by lia. subst rounds.
           pose proof (Rzero eq_refl) as Hr0. subst r.
           cbn [retry_loop] in H4. apply runs_throw in H4. destruct H4 as [-> _].
           simpl. repeat split; auto; try lia; discriminate.
      * exfalso. destruct (i <? times - 1).
        -- apply runs_bind in H3.
           destruct H3 as [(ta & m & sa & tb & Ha & Hb & ->)|(t'' & sa & Ha & Hb)].
           ++ apply runs_call in Hb. destruct Hb as (x & _ & Hb). discriminate.
           ++ apply runs_message_of in Ha. destruct Ha as [_ Ha]. discriminate.
        -- apply runs_ret in H3. destruct H3 as [_ H3]. discriminate.
Qed.

Lemma withRetry_run {A : Type} (fn : M A) (times : Z) s tr r :
  attempt_like fn ->
  runs (withRetry fn times s) tr r ->
  snd r = s /\
  (tool_runs tr <= Z.to_nat times)%nat /\
  (1 <= times -> proper (fst r)) /\
  (times <= 0 -> tr = [] /\ r = (Threw JsUndefined, s)) /\
  observe delay tr = pauses_from 0 (tool_runs tr - 1) /\
  observe timer tr = [] /\ lru_sets tr = [] /\ lru_hits tr = [] /\
  (forall t, fst r = Threw t -> tool_runs tr = Z.to_nat times).
Proof.
  intros Hfn H. unfold withRetry in H.
  destruct (Z.leb_spec times 0) as [Hle|Hgt].
  - replace (Z.to_nat times) with 0%nat in * by lia.
    cbn [retry_loop] in H. apply runs_throw in H. destruct H as [-> ->].
    simpl. repeat split; auto; lia.
  - destruct (retry_loop_run fn times Hfn _ _ _ _ _ _ H ltac:(lia))
      as (Rs & Rle & Rpos & _ & Rd & Rtm & Rsets & Rhits & Rthrow).
    repeat split; auto; try lia.
    intros _. apply Rpos. lia.
Qed.

Lemma pauses_from_0 n : pauses_from 0 n = map (fun k => 1000 * Z.of_nat k) (seq 1 n).
Proof. unfold pauses_from. apply map_ext. intros k. f_equal. Qed.

Lemma withTimeout_run {A : Type} (promise : M A) (timeout : Z) s tr r :
  runs (withTimeout promise timeout s) tr r ->
  exists tr0 r0 fired,
    runs (promise s) tr0 r0 /\ tr = tr0 ++ [Ev (TimerFirst timeout) fired] /\
    r = (if fired then (Threw (JsError "Probe timeout"), snd r0) else r0).
Proof.
  unfold withTimeout. intros H. apply runs_bindP in H.
  destruct H as (tr1 & r1 & tr2 & H1 & H2 & ->).
  simpl in H2. destruct H2 as (fired & tr' & -> & H2).
  exists tr1, r1, fired. destruct fired; destruct H2 as [-> ->]; auto.
Qed.

(** The attempts of [probe] and its time limit. *)
Lemma protected_run config filepath s tr r :
  runs (withTimeout
          (withRetry (if ScanConfig.shouldUseMinimalProbe config
                      then probeMinimal filepath else probeFull filepath)
                     (ScanConfig.PROBE_RETRY_TIMES config))
          (ScanConfig.PROBE_TIMEOUT config) s) tr r ->
  let times := ScanConfig.PROBE_RETRY_TIMES config in
  exists fired,
    snd r = s /\
    (tool_runs tr <= Z.to_nat times)%nat /\
    observe delay tr = pauses_from 0 (tool_runs tr - 1) /\
    observe timer tr = [(ScanConfig.PROBE_TIMEOUT config, fired)] /\
    lru_sets tr = [] /\ lru_hits tr = [] /\
    (fired = true -> fst r = Threw (JsError "Probe timeout")) /\
    (fired = false ->
       (forall t, fst r = Threw t -> tool_runs tr = Z.to_nat times) /\
       (1 <= times -> proper (fst r)) /\
       (times <= 0 -> fst r = Threw JsUndefined)).
Proof.
  intros H. cbn zeta. apply withTimeout_run in H.
  destruct H as (tr0 & r0 & fired & H & -> & ->).
  apply withRetry_run in H;
    [|destruct (ScanConfig.shouldUseMinimalProbe config);
      [apply probeMinimal_attempt|apply probeFull_attempt]].
  destruct H as (Hs & Hle & Hp & Hz & Hd & Htm & Hsets & Hhits & Hthrow).
  exists fired. unfold lru_sets, lru_hits in *.
  rewrite tool_runs_app, !observe_app, Hd, Htm, Hsets, Hhits.
  cbn [tool_runs observe tool_run delay timer lru_set_value lru_hit_value List.length app].
  rewrite Nat.add_0_r, app_nil_r.
  split; [now destruct fired|]. split; [exact Hle|]. split; [reflexivity|].
  split; [reflexivity|]. split; [reflexivity|]. split; [reflexivity|]. split.
  - now intros ->.
  - intros ->. split; [exact Hthrow|]. split; [exact Hp|].
    intros Ht. destruct (Hz Ht) as [_ ->]. reflexivity.
Qed.

(** One call of the first [probe].  When the cache answers, the tool is not
    started, nothing waits and no time limit is set.  Otherwise the tool is
    started at most [PROBE_RETRY_TIMES] times, with a pause of 1000, 2000,
    ... milliseconds after each failed attempt but the last, and one time
    limit of [PROBE_TIMEOUT] milliseconds is set, for all attempts together.
    When the time limit wins, the result is [{ error: 'Probe timeout' }]
    and nothing is stored, whatever the attempts gave.  When it does not,
    an error result means that all [PROBE_RETRY_TIMES] attempts were made
    and failed; and with a [PROBE_RETRY_TIMES] below 1 no attempt is made
    and [probe] throws a [TypeError] instead of returning. *)
Theorem probe_retries_under_one_time_limit config filepath s tr r :
  runs (probe config filepath s) tr r ->
  let times := ScanConfig.PROBE_RETRY_TIMES config in
  (tool_runs tr <= Z.to_nat times)%nat /\
  observe delay tr = map (fun k => 1000 * Z.of_nat k) (seq 1 (tool_runs tr - 1)) /\
  match lru_hits tr with
  | [] =>
      exists fired,
        observe timer tr = [(ScanConfig.PROBE_TIMEOUT config, fired)] /\
        (fired = true ->
           fst r = Returned (ErrorResult "Probe timeout") /\ lru_sets tr = []) /\
        (fired = false ->
           (forall result, fst r = Returned result -> is_error result = true ->
              tool_runs tr = Z.to_nat times) /\
           (times <= 0 ->
              fst r = Threw (JsError
                               "Cannot read properties of undefined (reading 'message')")))
  | value :: _ =>
      fst r = Returned value /\ tool_runs tr = 0%nat /\ observe timer tr = []
  end.
Proof.
  intros H. cbn zeta. rewrite <- pauses_from_0. unfold probe in H. cbv zeta in H.
  apply runs_bind in H.
  destruct H as [(tr1 & cached & s1 & tr2 & Hget & Hrest & ->)|(t & s1 & Hget & _)];
    [|apply CacheFacts.get_run in Hget; destruct Hget as (v & s' & Hr & _); discriminate].
  destruct (CacheFacts.get_run _ _ _ _ _ Hget) as (v & s' & Hr & Hcalls & Hhits).
  inversion Hr; subst v s'. clear Hr.
  destruct (cache_calls_quiet tr1 Hcalls) as (Q1 & Q2 & Q3 & _).
  pose proof (CacheRuns.get_spec _ _ _ _ _ Hget) as (v0 & s0 & _ & G1 & _).
  unfold lru_hits, lru_sets in *.
  rewrite tool_runs_app, !observe_app, Hhits, Q1, Q2, Q3. cbn [app Nat.add].
  destruct cached as [value|].
  - apply runs_ret in Hrest. destruct Hrest as [-> ->]. unfold tool_runs. simpl.
    repeat split; auto; lia.
  - apply runs_try_catch in Hrest.
    destruct Hrest as [(a & s2 & Hbody & ->)|(tr3 & t & s2 & tr4 & Hbody & Hh & ->)].
    + apply runs_bind in Hbody.
      destruct Hbody as [(tr3 & result & s3 & tr4 & Hprot & Hset & ->)|(t & s3 & _ & Hr)];
        [|discriminate].
      apply protected_run in Hprot. cbn zeta in Hprot.
      destruct Hprot as (fired & _ & Hle & Hd & Htm & Hsets & Hhits' & Hfired & Hnot).
      simpl fst in Hfired, Hnot.
      destruct fired; [specialize (Hfired eq_refl); discriminate|].
      destruct (Hnot eq_refl) as (_ & _ & Hzero).
      apply runs_bind in Hset.
      destruct Hset as [(tr5 & done & s5 & tr6 & Hset & Hret & ->)|(t & s5 & _ & Hr)];
        [|discriminate].
      apply runs_ret in Hret. destruct Hret as [-> Hret]. inversion Hret; subst.
      pose proof (CacheRuns.set_spec _ _ _ _ _ _ Hset)
        as (done' & s5' & _ & Sh & _ & St & _ & _).
      apply CacheFacts.set_run in Hset. destruct Hset as (d & s6 & _ & Scalls).
      destruct (cache_calls_quiet tr5 Scalls) as (S1 & S2 & S3 & _).
      unfold lru_hits in *.
      rewrite !tool_runs_app, !observe_app, Hhits', Sh, S1, S2, S3, Hd, Htm, !app_nil_r,
        !Nat.add_0_r.
      split; [exact Hle|]. split; [reflexivity|].
      exists false. split; [reflexivity|]. split; [discriminate|].
      intros _. split.
      * intros res [= <-] He. discriminate.
      * intros Ht. specialize (Hzero Ht). discriminate.
    + assert (Hprot : exists tr5 r5,
                 runs (withTimeout
                         (withRetry (if ScanConfig.shouldUseMinimalProbe config
                                     then probeMinimal filepath else probeFull filepath)
                                    (ScanConfig.PROBE_RETRY_TIMES config))
                         (ScanConfig.PROBE_TIMEOUT config) s1) tr5 r5 /\
                 tr3 = tr5 /\ r5 = (Threw t, s2)).
      { apply runs_bind in Hbody.
        destruct Hbody as [(tr5 & result & s3 & tr6 & Hprot & Hset & ->)|(t' & s3 & Hprot & Hr)].
        - exfalso. apply runs_bind in Hset.
          destruct Hset as [(tr7 & done & s5 & tr8 & Hset & Hret & ->)|(t' & s5 & Hset & _)].
          + apply runs_ret in Hret. destruct Hret as [_ Hret]. discriminate.
          + apply CacheFacts.set_run in Hset. destruct Hset as (d & s6 & Hr & _). discriminate.
        - inversion Hr; subst. eauto. }
      destruct Hprot as (tr5 & r5 & Hprot & -> & ->).
      apply protected_run in Hprot. cbn zeta in Hprot.
      destruct Hprot as (fired & _ & Hle & Hd & Htm & Hsets & Hhits' & Hfired & Hnot).
      simpl fst in Hfired, Hnot.
      assert (Hquiet : tool_runs tr4 = 0%nat /\ observe delay tr4 = [] /\
                       observe timer tr4 = [] /\ observe lru_hit_value tr4 = [] /\
                       observe lru_set_value tr4 = [] /\
                       r = (match t with
                            | JsError m => Returned (ErrorResult m)
                            | JsUndefined =>
                                Threw (JsError
                                  "Cannot read properties of undefined (reading 'message')")
                            end, s2)).
      { apply runs_bind in Hh.
        destruct Hh as [(ta & m & sa & tb & Ha & Hb & ->)|(t' & sa & Ha & ->)];
          apply runs_message_of in Ha; destruct Ha as [-> Ha]; destruct t; inversion Ha; subst.
        - apply runs_ret in Hb. destruct Hb as [-> ->]. simpl. repeat split.
        - simpl. repeat split. }
      destruct Hquiet as (T1 & T2 & T3 & T4 & T5 & ->).
      unfold lru_hits, lru_sets in *.
      rewrite !tool_runs_app, !observe_app, Hhits', Hd, Htm, T1, T2, T3, T4, !app_nil_r,
        !Nat.add_0_r.
      split; [exact Hle|]. split; [reflexivity|].
      exists fired. split; [reflexivity|]. split.
      * intros ->. specialize (Hfired eq_refl). inversion Hfired; subst.
        split; [reflexivity|]. rewrite G1, Hsets, T5. reflexivity.
      * intros ->. destruct (Hnot eq_refl) as (Hall & _ & Hzero). split.
        -- intros result _ _. now apply (Hall t).
        -- intros Ht. specialize (Hzero Ht). inversion Hzero; subst. reflexivity.
Qed.

Lemma probe_retries_under_one_time_limit_witness :
  observe delay (fst (run offline []
                        (probe ProbeProps.default_config "/lib/book.m4b" fresh_stats)))
  = [1000; 2000].
Proof.
  destruct (probe_retries_under_one_time_limit ProbeProps.default_config "/lib/book.m4b"
              fresh_stats _ _
              (run_runs offline
                 (probe ProbeProps.default_config "/lib/book.m4b" fresh_stats) []))
    as (_ & Hd & _).
  rewrite Hd. vm_compute. reflexivity.
Defined.

End ProberFacts.

(* ================================================================= *)
(** ** The temporary copy of the second prober *)

Module PartialProberFacts.
Import PartialProber.

Lemma prefix_app a b : String.prefix a (a ++ b) = true.
Proof.
  induction a as [|c a IH]; simpl; [now destruct b|].
  destruct (ascii_dec c c) as [_|Hc]; [exact IH|now elim Hc].
Qed.

Lemma includes_app a b : includes (a ++ b) a = true.
Proof.
  pose proof (prefix_app a b) as H.
  remember (a ++ b)%string as hay. destruct hay; cbn [includes]; now rewrite H.
Qed.

Lemma temp_path_accepted dir name :
  Path_join dir name <> "" /\ includes (Path_join dir name) dir = true.
Proof.
  unfold Path_join. split; [|apply includes_app].
  destruct dir; discriminate.
Qed.

(** What a part of [probe] may leave in a run, apart from calls of the
    cache: copies, starts of the tool through [execFile], and unlinks. *)
Record Footprint := mkFootprint {
  copies : list Copy;
  tools : list (string * list string * Z);
  unlinked : list string
}.

Definition footprint (tr : list Event) : Footprint :=
  mkFootprint (observe copy tr) (observe exec_file tr) (unlinks tr).

Lemma footprint_app tr1 tr2 :
  footprint (tr1 ++ tr2)
  = mkFootprint (copies (footprint tr1) ++ copies (footprint tr2))
                (tools (footprint tr1) ++ tools (footprint tr2))
                (unlinked (footprint tr1) ++ unlinked (footprint tr2)).
Proof. unfold footprint, unlinks. now rewrite !observe_app. Qed.

Lemma cache_calls_footprint tr : Forall cache_call tr -> footprint tr = mkFootprint [] [] [].
Proof.
  intros H. destruct (ProberFacts.cache_calls_quiet tr H) as (_ & _ & _ & H1 & H2 & H3 & _).
  unfold footprint. now rewrite H1, H2, H3.
Qed.

(** The name of the temporary file made at the time [now]. *)
Definition temp_name (this : t) (filePath : string) (now : Z) : string :=
  Path_join (TempProbeDir this) (Path_basename filePath ++ "_" ++ decimal now ++ ".tmp").

Lemma readPartialFile_run this filePath maxBytes s tr r :
  runs (readPartialFile this filePath maxBytes s) tr r ->
  exists now,
    snd r = s /\ tools (footprint tr) = [] /\ unlinked (footprint tr) = [] /\
    ((copies (footprint tr) = [] /\ exists message, fst r = Threw (JsError message)) \/
     (exists last done,
        copies (footprint tr) = [mkCopy filePath (temp_name this filePath now) 0 last done] /\
        last < maxBytes /\
        if done then fst r = Returned (temp_name this filePath now)
        else exists message, fst r = Threw (JsError message))).
Proof.
  unfold readPartialFile, ensureTempDir. intros H. inv_runs;
    exists x; simpl; (split; [reflexivity|]); (split; [reflexivity|]);
    (split; [reflexivity|]);
    first [ left; split; [reflexivity|]; eexists; reflexivity
          | right; do 2 eexists; split; [reflexivity|]; split; [lia|];
            first [ reflexivity | eexists; reflexivity ] ].
Qed.

(** Step 2 of [probe]: [tempFile] is set exactly when a copy was made and
    succeeded. *)
Lemma partial_read_run this config filePath s tr r :
  runs (partial_read this config filePath s) tr r ->
  let maxBytes := Z_or (ScanConfig.PARTIAL_READ_SIZE config) (5 * 1024 * 1024) in
  exists tempFile,
    r = (Returned tempFile, s) /\
    tools (footprint tr) = [] /\ unlinked (footprint tr) = [] /\
    (ScanConfig.USE_PARTIAL_READ config = Some false -> tr = [] /\ tempFile = None) /\
    match tempFile with
    | Some file =>
        exists now last,
          file = temp_name this filePath now /\ last < maxBytes /\
          copies (footprint tr) = [mkCopy filePath file 0 last true]
    | None =>
        copies (footprint tr) = [] \/
        exists now last,
          last < maxBytes /\
          copies (footprint tr) = [mkCopy filePath (temp_name this filePath now) 0 last false]
    end.
Proof.
  unfold partial_read. intros H. cbn zeta.
  destruct (ScanConfig.USE_PARTIAL_READ config) as [[|]|] eqn:Hu;
    try (apply runs_ret in H; destruct H as [-> ->]; exists None; simpl;
         repeat split; auto);
    (apply runs_try_catch in H;
     destruct H as [(a & s1 & H & ->)|(tr1 & t & s1 & tr2 & H & Hh & ->)];
     [ apply runs_bind in H;
       destruct H as [(tr3 & file & s3 & tr4 & H & Hr & ->)|(t & s3 & _ & Hr)];
       [|discriminate];
       apply runs_ret in Hr; destruct Hr as [-> Hr]; inversion Hr; subst;
       apply readPartialFile_run in H;
       destruct H as (now & Hs & Ht & Hu' & [(_ & m & Hm)|(last & done & Hc & Hl & Hd)]);
       simpl in *; [discriminate|];
       destruct done; [|destruct Hd as (m & Hm); discriminate];
       inversion Hd; subst; rewrite app_nil_r;
       exists (Some (temp_name this filePath now));
       repeat split; auto; try discriminate; eauto
     | apply runs_bind in H;
       destruct H as [(tr3 & file & s3 & tr4 & H & Hr & ->)|(t' & s3 & H & Hr)];
       [apply runs_ret in Hr; destruct Hr as [_ Hr]; discriminate|];
       inversion Hr; subst;
       apply readPartialFile_run in H;
       destruct H as (now & Hs & Ht & Hu' & Hcopy); simpl in Hs; subst;
       assert (Hquiet : tr2 = [] /\ r = (Returned None, s));
       [ destruct Hcopy as [(_ & m & Hm)|(last & done & _ & _ & Hd)];
         [|destruct done; [discriminate|destruct Hd as (m & Hm)]];
         simpl in Hm; inversion Hm; subst;
         apply runs_bind in Hh;
         (destruct Hh as [(ta & x & sa & tb & Ha & Hb & ->)|(t' & sa & Ha & _)];
          apply runs_message_of in Ha; destruct Ha as [-> Ha]; [|discriminate]);
         inversion Ha; subst; apply runs_ret in Hb; destruct Hb as [-> ->]; auto
       |];
       destruct Hquiet as [-> ->]; rewrite app_nil_r;
       exists None; repeat split; auto; try discriminate;
       destruct Hcopy as [(Hc & _)|(last & done & Hc & Hl & Hd)]; [now left|];
       destruct done; [discriminate|]; right; eauto ]).
Qed.

(** Steps 3 and 4 of [probe]: the tool is started once, on the copy when
    there is one and on the file itself otherwise. *)
Lemma probe_try_run this config filePath tempFile s tr r :
  runs (probe_try this config filePath tempFile s) tr r ->
  copies (footprint tr) = [] /\ unlinked (footprint tr) = [] /\
  exists args timeout,
    tools (footprint tr) = [(FFProbePath this, args, timeout)] /\
    last args "" = match tempFile with Some file => file | None => filePath end.
Proof.
  unfold probe_try, probe_target, probe_catch, runFFProbe. cbv zeta. intros H. inv_runs;
    repeat match goal with
           | H : runs (ProbeCache.set _ _ _ _) _ _ |- _ =>
               apply CacheFacts.set_run in H; destruct H as (? & ? & ? & H);
               apply cache_calls_footprint in H
           end; inv_runs;
    rewrite ?footprint_app;
    repeat match goal with H : footprint _ = _ |- _ => rewrite H end;
    simpl; (split; [reflexivity|]); (split; [reflexivity|]);
    do 2 eexists; (split; [reflexivity|]); reflexivity.
Qed.

(** The temporary copy of a call of the second [probe].  When the cache
    answers, nothing is copied, started or unlinked.  Otherwise the tool is
    started once, and at most one copy is made, none when
    [USE_PARTIAL_READ] is [false]: of the file probed, from its first byte,
    of at most [PARTIAL_READ_SIZE] bytes (5 MiB by default), to a file of
    [TempProbeDir] named after the file and the time.  When the copy
    succeeded the tool reads the copy, and the copy is unlinked once, as the
    last call of [probe], whatever the tool gave.  When there is no copy, or
    the copy failed, the tool reads the file itself and nothing is unlinked:
    [probe] does not remove what a failed copy left. *)
Theorem partial_copy_is_probed_then_unlinked this config filePath s tr r :
  runs (probe this config filePath s) tr r ->
  let maxBytes := Z_or (ScanConfig.PARTIAL_READ_SIZE config) (5 * 1024 * 1024) in
  match lru_hits tr with
  | _ :: _ => footprint tr = mkFootprint [] [] []
  | [] =>
      exists target args timeout,
        tools (footprint tr) = [(FFProbePath this, args, timeout)] /\
        last args "" = target /\
        (ScanConfig.USE_PARTIAL_READ config = Some false -> copies (footprint tr) = []) /\
        match copies (footprint tr) with
        | [] => target = filePath /\ unlinked (footprint tr) = []
        | [c] =>
            copy_source c = filePath /\ copy_first c = 0 /\ copy_last c < maxBytes /\
            (exists now, copy_target c = temp_name this filePath now) /\
            if copy_done c
            then target = copy_target c /\ unlinked (footprint tr) = [copy_target c] /\
                 exists tr' answer, tr = tr' ++ [Ev (Fs_unlink (copy_target c)) answer]
            else target = filePath /\ unlinked (footprint tr) = []
        | _ => False
        end
  end.
Proof.
  intros H. cbn zeta. unfold probe in H.
  apply runs_bind in H.
  destruct H as [(tr1 & cached & s1 & tr2 & Hget & Hrest & ->)|(t & s1 & Hget & _)].
  2: { destruct (ScanConfig.shouldUseCache config).
       - apply CacheFacts.get_run in Hget. destruct Hget as (v & s' & Hr & _). discriminate.
       - apply runs_ret in Hget. destruct Hget as [_ Hr]. discriminate. }
  assert (Hfirst : footprint tr1 = mkFootprint [] [] [] /\
                   lru_hits tr1 = match cached with Some v => [v] | None => [] end).
  { destruct (ScanConfig.shouldUseCache config).
    - apply CacheFacts.get_run in Hget. destruct Hget as (v & s' & Hr & Hc & Hh).
      inversion Hr; subst. split; [now apply cache_calls_footprint|exact Hh].
    - apply runs_ret in Hget. destruct Hget as [-> Hr]. inversion Hr; subst. auto. }
  destruct Hfirst as [F1 L1]. unfold lru_hits in *.
  rewrite observe_app, footprint_app, F1, L1. cbn [copies tools unlinked app].
  destruct cached as [value|].
  - apply runs_ret in Hrest. destruct Hrest as [-> _]. reflexivity.
  - apply runs_bind in Hrest.
    destruct Hrest as [(tr3 & o & s3 & tr4 & Hread & Hrest & ->)|(t & s3 & Hread & _)];
      [|apply runs_attempt in Hread; destruct Hread as (? & ? & _ & Hr); discriminate].
    apply runs_attempt in Hread. destruct Hread as (o' & s' & Hread & Hr).
    inversion Hr; subst o' s'. clear Hr.
    pose proof (PartialProberRuns.partial_read_spec _ _ _ _ _ _ Hread)
      as (tf & _ & _ & L3 & _).
    apply partial_read_run in Hread. cbn zeta in Hread.
    destruct Hread as (tempFile & Hr & T3 & U3 & Hoff & Hcopy). inversion Hr; subst o s3.
    clear Hr. unfold lru_hits in *.
    apply runs_try_finally in Hrest.
    destruct Hrest as (tr5 & o5 & s5 & tr6 & oc & s6 & Htry & Hclean & -> & _).
    pose proof (PartialProberRuns.probe_try_spec _ _ _ _ _ _ _ Htry)
      as (res & s7 & _ & _ & L5 & _).
    apply probe_try_run in Htry. destruct Htry as (C5 & U5 & args & timeout & T5 & Hlast).
    unfold lru_hits in *.
    rewrite !observe_app, !footprint_app, L3, L5, T3, U3, C5, U5, T5.
    cbn [copies tools unlinked app]. rewrite ?app_nil_r.
    destruct tempFile as [file|].
    + destruct Hcopy as (now & last & -> & Hl & Hc).
      destruct (temp_path_accepted (TempProbeDir this)
                  (Path_basename filePath ++ "_" ++ decimal now ++ ".tmp")) as [Hne Hinc].
      fold (temp_name this filePath now) in Hne, Hinc.
      apply String.eqb_neq in Hne. rewrite Hne in Hclean.
      unfold cleanupTempFile in Hclean. rewrite Hne, Hinc in Hclean. cbn [negb andb] in Hclean.
      assert (Hunlink : exists answer,
                 tr6 = [Ev (Fs_unlink (temp_name this filePath now)) answer]).
      { apply runs_try_catch in Hclean.
        destruct Hclean as [(a & sa & Ha & _)|(ta & t & sa & tb & Ha & Hb & ->)];
          apply runs_await in Ha; destruct Ha as (x & -> & Hx).
        - now exists x.
        - apply runs_ret in Hb. destruct Hb as [-> _]. now exists x. }
      destruct Hunlink as (answer & ->).
      rewrite Hc. simpl.
      exists (temp_name this filePath now), args, timeout.
      split; [reflexivity|]. split; [exact Hlast|]. split.
      * intros Hu. destruct (Hoff Hu) as [_ Hn]. discriminate.
      * repeat split; eauto. rewrite !app_assoc. eauto.
    + apply runs_ret in Hclean. destruct Hclean as [-> _]. simpl. rewrite app_nil_r.
      exists filePath, args, timeout.
      split; [reflexivity|]. split; [exact Hlast|]. split.
      * intros Hu. destruct (Hoff Hu) as [-> _]. reflexivity.
      * unfold footprint in Hcopy. cbn [copies] in Hcopy.
        destruct Hcopy as [->|(now & last & Hl & ->)]; [auto|].
        simpl. repeat split; eauto.
Qed.

(** An environment in which the file system works and the tool is
    missing. *)
Definition no_tool : Oracle := fun _ X e =>
  match e in Eff X return X -> X with
  | Fs_stat _ => fun _ => inr 8000000
  | Fs_mkdir _ => fun _ => inr tt
  | Pipeline _ _ _ _ => fun _ => inr tt
  | Fs_unlink _ => fun _ => inr tt
  | _ => fun answer => answer
  end (refuse X e).

Lemma partial_copy_is_probed_then_unlinked_witness :
  unlinked (footprint (fst (run no_tool []
                              (probe ProbeProps.default_prober ProbeProps.default_config
                                     "/lib/book.m4b" fresh_stats))))
  = ["/tmp/abs-probe-cache/book.m4b_1700000000000.tmp"].
Proof.
  pose proof (partial_copy_is_probed_then_unlinked ProbeProps.default_prober
                ProbeProps.default_config "/lib/book.m4b" fresh_stats _ _
                (run_runs no_tool
                   (probe ProbeProps.default_prober ProbeProps.default_config
                          "/lib/book.m4b" fresh_stats) [])) as H.
  vm_compute in H.
  destruct H as (target & args & timeout & _ & _ & _ & _ & _ & _ & _ & _ & H & _).
  vm_compute. exact H.
Defined.

End PartialProberFacts.
